(** * Run_Trained_model.py: batched PointNetReg inference

    A shallow embedding of [src/Run_Trained_model.py]: the text protocol
    parser [read_beams_text], the batch padder [pad_points], the forward
    pass of [PointNetReg] in evaluation mode, the mini-batch loop of
    [main] and the result writer [write_results_text].

    Conventions.
    - Characters are code points below 256 ([ascii]); a file is the list
      of the lines that iterating over it yields.
    - numpy arrays and torch tensors are a shape together with the
      row-major list of their entries ([ndarray]).
    - Python exceptions are values of [error]; a function that may raise
      returns a [result].
    - float32 arithmetic is an interface ([PyFloat]) with two instances:
      IEEE 754 binary32 ([binary32]), which rounds, overflows and has NaN
      as the code does, and the real numbers ([R_float]), which idealise
      rounding away and serve where only exact values occur. *)

From Stdlib Require Import ZArith List String Ascii Bool Lia Reals Lra.
From Stdlib Require Import DecimalString.
From Stdlib Require Import Floats.SpecFloat.
From stdpp Require Import list.
Import ListNotations.

Open Scope string_scope.

(** ** Exceptions and results *)

Inductive error : Type :=
| BadBeamHeader (line : string)          (* ValueError("Bad beam header: ...") *)
| BadPointLine (line : string)           (* ValueError("Bad point line: ...") *)
| IntLiteralError (tok : string)         (* int(tok): invalid literal *)
| FloatLiteralError (tok : string)       (* float(tok): could not convert *)
| BeamShapeError (id : Z) (shp : list nat) (* ValueError("Beam id: Expected (N,3) ...") *)
| NoBeamsError                           (* RuntimeError("No beams found in input file.") *)
| CheckpointMismatch                     (* load_state_dict: names or shapes differ *)
| InputShapeError (shp : list nat)       (* ValueError("Expected input shape (B, N, 3) ...") *)
| EmptyReductionError                    (* torch: reduction over a dimension of size 0 *)
| MaxEmptyError                          (* max([]) *)
| RangeStepError                         (* range(): step 0 *)
| ArrayShapeError                        (* numpy: index or broadcast failure *)
| IndexError.

Inductive result (A : Type) : Type :=
| Ok (a : A)
| Err (e : error).
Arguments Ok {A} a.
Arguments Err {A} e.

Definition rbind {A B} (r : result A) (k : A -> result B) : result B :=
  match r with
  | Ok a => k a
  | Err e => Err e
  end.

Notation "'let*' x ':=' r 'in' k" := (rbind r (fun x => k))
  (at level 10, x pattern, r at level 100, k at level 200).

Fixpoint rmap {A B} (f : A -> result B) (l : list A) : result (list B) :=
  match l with
  | [] => Ok []
  | a :: l' => let* b := f a in let* bs := rmap f l' in Ok (b :: bs)
  end.

Definition is_ok {A} (r : result A) : bool :=
  match r with Ok _ => true | Err _ => false end.

(** ** Python string primitives *)

(** [str.isspace] on the code points below 256. *)
Definition is_space (c : ascii) : bool :=
  let n := nat_of_ascii c in
  ((9 <=? n)%nat && (n <=? 13)%nat) || ((28 <=? n)%nat && (n <=? 32)%nat)
  || (n =? 133)%nat || (n =? 160)%nat.

Fixpoint lstrip (s : string) : string :=
  match s with
  | EmptyString => EmptyString
  | String c s' => if is_space c then lstrip s' else s
  end.

Fixpoint rstrip (s : string) : string :=
  match s with
  | EmptyString => EmptyString
  | String c s' =>
      match rstrip s' with
      | EmptyString => if is_space c then EmptyString else String c EmptyString
      | r => String c r
      end
  end.

(** [s.strip()] *)
Definition strip (s : string) : string := rstrip (lstrip s).

(** [s.split()]: the maximal runs of non-whitespace characters. *)
Fixpoint split (s : string) : list string :=
  match s with
  | EmptyString => []
  | String c s' =>
      if is_space c then split s'
      else match s' with
           | EmptyString => [String c EmptyString]
           | String c' _ =>
               if is_space c' then String c EmptyString :: split s'
               else match split s' with
                    | t :: ts => String c t :: ts
                    | [] => [String c EmptyString]
                    end
           end
  end.

(** [s.startswith(p)] *)
Definition startswith (s p : string) : bool := String.prefix p s.

Definition digit_of (c : ascii) : option Z :=
  let n := nat_of_ascii c in
  if ((48 <=? n)%nat && (n <=? 57)%nat) then Some (Z.of_nat (n - 48)) else None.

(** Decimal digits with single underscores between digits, as [int]
    accepts them; [prev] tells whether the previous character was a digit. *)
Fixpoint int_digits (acc : Z) (prev : bool) (s : string) : option Z :=
  match s with
  | EmptyString => if prev then Some acc else None
  | String c s' =>
      match digit_of c with
      | Some d => int_digits (acc * 10 + d) true s'
      | None =>
          if (Ascii.eqb c "_" && prev)%bool then int_digits acc false s' else None
      end
  end.

(** [int(tok)] on a token without whitespace: [None] stands for the
    ValueError. *)
Definition py_int (tok : string) : option Z :=
  match tok with
  | String "+" r => int_digits 0 false r
  | String "-" r => option_map Z.opp (int_digits 0 false r)
  | _ => int_digits 0 false tok
  end.

(** [str(i)] for an int. *)
Definition str_int (i : Z) : string := NilZero.string_of_int (Z.to_int i).

Definition newline : string := String (ascii_of_nat 10) EmptyString.

(** ** float32 interface *)

Class PyFloat (F : Type) : Type := {
  f0 : F;                         (* 0.0 *)
  fadd : F -> F -> F;
  fsub : F -> F -> F;
  fmul : F -> F -> F;
  fdiv : F -> F -> F;
  fmax : F -> F -> F;
  fsqrt : F -> F;
  eps_normalize : F;              (* 1e-8, the eps of F.normalize *)
  eps_bn : F;                     (* 1e-5, the default eps of BatchNorm1d *)
  py_float : string -> option F;  (* float(tok), stored as float32 *)
  fmt6 : F -> string              (* format(x, ".6f") *)
}.

(** ** Arrays *)

Record ndarray (A : Type) : Type := mk_ndarray {
  shape : list nat;
  data : list A
}.
Arguments mk_ndarray {A} shape data.
Arguments shape {A} n.
Arguments data {A} n.

Definition ndim {A} (a : ndarray A) : nat := length (shape a).

Definition prod_list (l : list nat) : nat := fold_right Nat.mul 1%nat l.

(** [np.zeros(shape)] *)
Definition np_zeros {A} (shp : list nat) (z : A) : ndarray A :=
  mk_ndarray shp (replicate (prod_list shp) z).

(** [np.asarray(rows)] for a list of rows of equal length. *)
Definition np_asarray {A} (rows : list (list A)) : ndarray A :=
  match rows with
  | [] => mk_ndarray [0%nat] []
  | r :: _ => mk_ndarray [length rows; length r] (concat rows)
  end.

(** ** Beams and the parser [read_beams_text] *)

Section Pipeline.
Context {F : Type} `{PyFloat F}.

(** The dict [{"id": int, "points": np.ndarray (Ni,3) float32}]. *)
Record Beam : Type := mk_Beam {
  beam_id : Z;
  points : ndarray F
}.

(** The three local variables of [read_beams_text]. *)
Record parser_state : Type := mk_pstate {
  beams : list Beam;
  cur_id : option Z;
  cur_pts : list (list F)
}.

Definition parser_init : parser_state := mk_pstate [] None [].

(** [float(tok)], raising on a token that is not a float literal. *)
Definition to_float (tok : string) : result F :=
  match py_float tok with
  | Some x => Ok x
  | None => Err (FloatLiteralError tok)
  end.

(** One iteration of the loop [for raw in f]. *)
Definition parse_line (st : parser_state) (raw : string) : result parser_state :=
  let line := strip raw in
  if String.eqb line "" then Ok st
  else if startswith line "beam " then
    let parts := split line in
    if (length parts <? 2)%nat then Err (BadBeamHeader line)
    else
      match py_int (nth 1 parts "") with
      | None => Err (IntLiteralError (nth 1 parts ""))
      | Some i => Ok (mk_pstate (beams st) (Some i) [])
      end
  else if String.eqb line "endbeam" then
    match cur_id st with
    | None => Ok st
    | Some i =>
        if (length (cur_pts st) =? 0)%nat then Ok (mk_pstate (beams st) None [])
        else
          let pts := np_asarray (cur_pts st) in
          if negb (ndim pts =? 2)%nat || negb (nth 1 (shape pts) 0 =? 3)%nat
          then Err (BeamShapeError i (shape pts))
          else Ok (mk_pstate (beams st ++ [mk_Beam i pts]) None [])
    end
  else
    let parts := split line in
    if (length parts <? 3)%nat then Err (BadPointLine line)
    else
      let* x := to_float (nth 0 parts "") in
      let* y := to_float (nth 1 parts "") in
      let* z := to_float (nth 2 parts "") in
      Ok (mk_pstate (beams st) (cur_id st) (cur_pts st ++ [[x; y; z]])).

(** The loop over the lines, stopped by the first exception. *)
Fixpoint parse_lines (st : parser_state) (lines : list string) : result parser_state :=
  match lines with
  | [] => Ok st
  | raw :: rest => let* st' := parse_line st raw in parse_lines st' rest
  end.

Definition read_beams_text (lines : list string) : result (list Beam) :=
  let* st := parse_lines parser_init lines in Ok (beams st).

(** ** The batch padder [pad_points] *)

(** [b["points"].shape[0]] *)
Definition size0 (b : Beam) : result nat :=
  match shape (points b) with
  | n :: _ => Ok n
  | [] => Err IndexError
  end.

(** The body of the loop [for i, b in enumerate(beams)]: one slice
    assignment into [x] and one into [mask].  The points of a beam are an
    array of shape (n, 3), as the docstring of [read_beams_text] says;
    any other shape is outside the model and reported as an error. *)
Definition pad_row (target_n i : nat) (b : Beam)
    (xm : ndarray F * ndarray bool) : result (ndarray F * ndarray bool) :=
  let pts := points b in
  match shape pts with
  | [n; 3%nat] =>
      if (target_n <=? n)%nat then
        (* x[i, :, :] = pts[:target_n, :] ; mask[i, :] = True *)
        Ok (mk_ndarray (shape (fst xm))
              (list_inserts (i * (target_n * 3)) (take (target_n * 3) (data pts))
                 (data (fst xm))),
            mk_ndarray (shape (snd xm))
              (list_inserts (i * target_n) (replicate target_n true) (data (snd xm))))
      else
        (* x[i, :n, :] = pts ; mask[i, :n] = True *)
        Ok (mk_ndarray (shape (fst xm))
              (list_inserts (i * (target_n * 3)) (data pts) (data (fst xm))),
            mk_ndarray (shape (snd xm))
              (list_inserts (i * target_n) (replicate n true) (data (snd xm))))
  | _ => Err ArrayShapeError
  end.

Fixpoint pad_loop (target_n i : nat) (bs : list Beam)
    (xm : ndarray F * ndarray bool) : result (ndarray F * ndarray bool) :=
  match bs with
  | [] => Ok xm
  | b :: rest => let* xm' := pad_row target_n i b xm in pad_loop target_n (S i) rest xm'
  end.

Definition pad_points (bs : list Beam) (target_n : option nat)
    : result (ndarray F * ndarray bool * list nat) :=
  let* sizes := rmap size0 bs in
  let* target_n :=
    match target_n with
    | Some t => Ok t
    | None => match sizes with [] => Err MaxEmptyError | _ => Ok (max_list sizes) end
    end in
  let B := length bs in
  let x := np_zeros [B; target_n; 3%nat] f0 in
  let mask := np_zeros [B; target_n] false in
  let* xm := pad_loop target_n 0 bs (x, mask) in
  Ok (fst xm, snd xm, sizes).

(** ** The model [PointNetReg] in evaluation mode *)

(** Parameters and running statistics of a [BatchNorm1d]. *)
Record bn_params : Type := mk_bn {
  bn_weight : list F;
  bn_bias : list F;
  running_mean : list F;
  running_var : list F
}.

(** The entry ["model_state"] of a checkpoint.  A [Conv1d] with kernel
    size 1 and a [Linear] layer both hold a matrix, one row per output
    channel. *)
Record state_dict : Type := mk_state {
  conv1_weight : list (list F);  bn1 : bn_params;
  conv2_weight : list (list F);  bn2 : bn_params;
  conv3_weight : list (list F);  bn3 : bn_params;
  fc1_weight : list (list F);    bn4 : bn_params;
  fc2_weight : list (list F);    bn5 : bn_params;
  fc_out_weight : list (list F);
  fc_out_bias : list F
}.

Definition matrix_has_shape (rows cols : nat) (m : list (list F)) : bool :=
  (length m =? rows)%nat && forallb (fun r => (length r =? cols)%nat) m.

Definition bn_has_shape (n : nat) (p : bn_params) : bool :=
  (length (bn_weight p) =? n)%nat && (length (bn_bias p) =? n)%nat
  && (length (running_mean p) =? n)%nat && (length (running_var p) =? n)%nat.

(** The shapes of [PointNetReg()] with its default [feat_dims=(64,128,256)]
    and [head_dims=(256,128)]. *)
Definition shapes_match (sd : state_dict) : bool :=
  matrix_has_shape 64 3 (conv1_weight sd) && bn_has_shape 64 (bn1 sd)
  && matrix_has_shape 128 64 (conv2_weight sd) && bn_has_shape 128 (bn2 sd)
  && matrix_has_shape 256 128 (conv3_weight sd) && bn_has_shape 256 (bn3 sd)
  && matrix_has_shape 256 256 (fc1_weight sd) && bn_has_shape 256 (bn4 sd)
  && matrix_has_shape 128 256 (fc2_weight sd) && bn_has_shape 128 (bn5 sd)
  && matrix_has_shape 6 128 (fc_out_weight sd)
  && (length (fc_out_bias sd) =? 6)%nat.

(** [load_checkpoint]: a fresh default model, [load_state_dict] (strict)
    and [model.eval()].  The value returned is the model in evaluation
    mode, which is how [forward] below reads it. *)
Definition load_checkpoint (ckpt : state_dict) : result state_dict :=
  if shapes_match ckpt then Ok ckpt else Err CheckpointMismatch.

Definition fsum (l : list F) : F := foldl fadd f0 l.

Definition dot (w x : list F) : F := fsum (zip_with fmul w x).

(** [Linear(bias=False)], and [Conv1d(kernel_size=1, bias=False)] at one point. *)
Definition linear (W : list (list F)) (x : list F) : list F :=
  map (fun w => dot w x) W.

(** [BatchNorm1d] in evaluation mode, channel by channel:
    [(x - running_mean) / sqrt(running_var + eps) * weight + bias]. *)
Fixpoint bn_channels (x mean var w b : list F) : list F :=
  match x, mean, var, w, b with
  | xi :: x', mi :: mean', vi :: var', wi :: w', bi :: b' =>
      fadd (fmul (fdiv (fsub xi mi) (fsqrt (fadd vi eps_bn))) wi) bi
      :: bn_channels x' mean' var' w' b'
  | _, _, _, _, _ => []
  end.

Definition batchnorm (p : bn_params) (x : list F) : list F :=
  bn_channels x (running_mean p) (running_var p) (bn_weight p) (bn_bias p).

Definition relu (x : list F) : list F := map (fun a => fmax a f0) x.

(** [torch.max(x, 2)[0]]: the channel-wise maximum over the points. *)
Definition max_pool (feats : list (list F)) : list F :=
  match feats with
  | [] => []
  | p :: ps => foldl (zip_with fmax) p ps
  end.

(** [F.normalize(v_raw, dim=1, eps=1e-8)] on one row. *)
Definition normalize (v_raw : list F) : list F :=
  let norm := fsqrt (fsum (map (fun a => fmul a a) v_raw)) in
  map (fun a => fdiv a (fmax norm eps_normalize)) v_raw.

(** Lines 103-113 of [forward] on one row of [raw]. *)
Definition canonicalize (raw : list F) : list F * list F :=
  let v_raw := take 3 raw in
  let c_raw := take 3 (drop 3 raw) in
  let v := normalize v_raw in
  let d := fsum (zip_with fmul c_raw v) in
  let c := zip_with fsub c_raw (map (fun a => fmul d a) v) in
  (v, c).

(** The shared per-point transform: three [Conv1d]/[BatchNorm1d]/[relu]
    stages applied to the coordinates of one point. *)
Definition point_features (m : state_dict) (p : list F) : list F :=
  let h1 := relu (batchnorm (bn1 m) (linear (conv1_weight m) p)) in
  let h2 := relu (batchnorm (bn2 m) (linear (conv2_weight m) h1)) in
  relu (batchnorm (bn3 m) (linear (conv3_weight m) h2)).

(** The regression head; [Dropout] is the identity in evaluation mode. *)
Definition head (m : state_dict) (g : list F) : list F :=
  let a1 := relu (batchnorm (bn4 m) (linear (fc1_weight m) g)) in
  let a2 := relu (batchnorm (bn5 m) (linear (fc2_weight m) a1)) in
  zip_with fadd (linear (fc_out_weight m) a2) (fc_out_bias m).

(** [forward] on one element of the batch, a cloud of points. *)
Definition forward_cloud (m : state_dict) (cloud : list (list F)) : list F * list F :=
  canonicalize (head m (max_pool (map (point_features m) cloud))).

(** The clouds of a tensor of shape (B, N, 3). *)
Definition clouds_of (B N : nat) (d : list F) : list (list (list F)) :=
  map (reshape (replicate N 3%nat)) (reshape (replicate B (N * 3)%nat) d).

(** [PointNetReg.forward]: the pair of tensors (v, c), each of shape (B, 3),
    as lists of rows. *)
Definition forward (m : state_dict) (x : ndarray F)
    : result (list (list F) * list (list F)) :=
  if negb (ndim x =? 3)%nat || negb (List.last (shape x) 0%nat =? 3)%nat
  then Err (InputShapeError (shape x))
  else
    let B := nth 0 (shape x) 0%nat in
    let N := nth 1 (shape x) 0%nat in
    if (N =? 0)%nat then Err EmptyReductionError
    else
      let out := map (forward_cloud m) (clouds_of B N (data x)) in
      Ok (map fst out, map snd out).

(** ** The result writer [write_results_text] *)

(** The dict [{id, c, v, t1, t2}] appended to [results]. *)
Record prediction : Type := mk_pred {
  pred_id : Z;
  pred_c : list F;
  pred_v : list F;
  pred_t1 : F;
  pred_t2 : F
}.

(** [a[i]] on a row. *)
Definition index {A} (a : list A) (i : nat) : result A :=
  match a !! i with
  | Some x => Ok x
  | None => Err IndexError
  end.

(** The five [f.write] calls for one result. *)
Definition result_block (r : prediction) : result (list string) :=
  let c := pred_c r in
  let v := pred_v r in
  let* c0 := index c 0 in let* c1 := index c 1 in let* c2 := index c 2 in
  let* v0 := index v 0 in let* v1 := index v 1 in let* v2 := index v 2 in
  Ok [ "result " ++ str_int (pred_id r) ++ newline;
       "c " ++ fmt6 c0 ++ " " ++ fmt6 c1 ++ " " ++ fmt6 c2 ++ newline;
       "v " ++ fmt6 v0 ++ " " ++ fmt6 v1 ++ " " ++ fmt6 v2 ++ newline;
       "t " ++ fmt6 (pred_t1 r) ++ " " ++ fmt6 (pred_t2 r) ++ newline;
       "endresult" ++ newline ].

(** The text written to the output file, in order, and whether the loop
    ran to its end. *)
Fixpoint write_results_text (results : list prediction) : list string * result unit :=
  match results with
  | [] => ([], Ok tt)
  | r :: rest =>
      match result_block r with
      | Err e => (["result " ++ str_int (pred_id r) ++ newline], Err e)
      | Ok blk =>
          let '(txt, st) := write_results_text rest in ((blk ++ txt)%list, st)
      end
  end.

(** ** The inference runner [main] *)

(** What a run does to the world outside, in order. *)
Inductive event : Type :=
| EvReadInput                         (* read_beams_text(args.input) *)
| EvLoadCheckpoint                    (* load_checkpoint(args.checkpoint, device) *)
| EvForward (shp : list nat)          (* model(x) *)
| EvWriteOutput (text : list string). (* the output file, opened for writing *)

(** [range(0, stop, step)] *)
Definition py_range0 (stop : nat) (step : Z) : result (list nat) :=
  if (step =? 0)%Z then Err RangeStepError
  else if (step <? 0)%Z then Ok []
  else
    let s := Z.to_nat step in
    Ok (map (fun k => (k * s)%nat) (seq 0 ((stop + s - 1) / s))).

(** [beams[start:start + batch_size]] for a positive [batch_size] *)
Definition batch_slice (bms : list Beam) (start : nat) (batch_size : Z) : list Beam :=
  take (Z.to_nat batch_size) (drop start bms).

(** The inner loop [for i, b in enumerate(batch)]. *)
Definition collect (batch : list Beam) (v c : list (list F)) : result (list prediction) :=
  rmap (fun ib : nat * Beam =>
          let* ci := index c (fst ib) in
          let* vi := index v (fst ib) in
          Ok (mk_pred (beam_id (snd ib)) ci vi f0 f0))
       (imap (fun i b => (i, b)) batch).

(** The loop over the mini-batches, threading [results] and the events. *)
Fixpoint infer_loop (model : state_dict) (bms : list Beam) (batch_size : Z)
    (starts : list nat) (results : list prediction) (tr : list event)
    : list event * result (list prediction) :=
  match starts with
  | [] => (tr, Ok results)
  | start :: rest =>
      let batch := batch_slice bms start batch_size in
      match pad_points batch None with
      | Err e => (tr, Err e)
      | Ok (x_np, _, _) =>
          let tr1 := (tr ++ [EvForward (shape x_np)])%list in
          match forward model x_np with
          | Err e => (tr1, Err e)
          | Ok (v, c) =>
              match collect batch v c with
              | Err e => (tr1, Err e)
              | Ok rs => infer_loop model bms batch_size rest (results ++ rs) tr1
              end
          end
      end
  end.

Definition main (input : list string) (ckpt : state_dict) (batch_size : Z)
    : list event * result unit :=
  let tr := [EvReadInput] in
  match read_beams_text input with
  | Err e => (tr, Err e)
  | Ok bms =>
      if (length bms =? 0)%nat then (tr, Err NoBeamsError)
      else
        let tr := (tr ++ [EvLoadCheckpoint])%list in
        match load_checkpoint ckpt with
        | Err e => (tr, Err e)
        | Ok model =>
            match py_range0 (length bms) batch_size with
            | Err e => (tr, Err e)
            | Ok starts =>
                match infer_loop model bms batch_size starts [] tr with
                | (tr, Err e) => (tr, Err e)
                | (tr, Ok results) =>
                    let '(txt, st) := write_results_text results in
                    ((tr ++ [EvWriteOutput txt])%list, st)
                end
            end
        end
  end.

(** The predictions of a run, without the events: lines 245-264. *)
Definition infer (model : state_dict) (bms : list Beam) (batch_size : Z)
    : result (list prediction) :=
  let* starts := py_range0 (length bms) batch_size in
  snd (infer_loop model bms batch_size starts [] []).

End Pipeline.

Arguments Beam F : clear implicits.
Arguments parser_state F : clear implicits.
Arguments bn_params F : clear implicits.
Arguments state_dict F : clear implicits.
Arguments prediction F : clear implicits.

(** ** Float literals *)

(** The value of a token that [float] accepts: a decimal number
    [mantissa * 10 ^ exp10] with its sign, an infinity or a NaN. *)
Inductive float_literal : Type :=
| LitFinite (neg : bool) (mantissa : Z) (exp10 : Z)
| LitInf (neg : bool)
| LitNan.

(** A digit part [digit (["_"] digit)*] at the head of [s], continuing
    the number [acc]: its value, how many digits it has and the rest of
    the string. *)
Fixpoint scan_digits (acc : Z) (cnt : nat) (prev : bool) (s : string)
    : option (Z * nat * string) :=
  match s with
  | EmptyString => if prev then Some (acc, cnt, EmptyString) else None
  | String c s' =>
      match digit_of c with
      | Some d => scan_digits (acc * 10 + d) (S cnt) true s'
      | None =>
          if Ascii.eqb c "_" then
            if prev then scan_digits acc cnt false s' else None
          else if prev then Some (acc, cnt, s) else None
      end
  end.

Definition starts_with_digit (s : string) : bool :=
  match s with
  | String c _ => match digit_of c with Some _ => true | None => false end
  | EmptyString => false
  end.

(** The optional exponent, which must end the token. *)
Definition parse_exponent (m e : Z) (s : string) : option (Z * Z) :=
  match s with
  | EmptyString => Some (m, e)
  | String c r =>
      if Ascii.eqb c "e" || Ascii.eqb c "E" then
        let '(sgn, r') :=
          match r with
          | String "+" r' => (1%Z, r')
          | String "-" r' => ((-1)%Z, r')
          | _ => (1%Z, r)
          end in
        match scan_digits 0 0 false r' with
        | Some (x, _, EmptyString) => Some (m, (e + sgn * x)%Z)
        | _ => None
        end
      else None
  end.

(** [digitpart ["." [digitpart]] [exponent]] or ["." digitpart [exponent]]. *)
Definition parse_decimal (s : string) : option (Z * Z) :=
  match s with
  | String "." r =>
      match scan_digits 0 0 false r with
      | Some (m, k, rest) => parse_exponent m (- Z.of_nat k) rest
      | None => None
      end
  | _ =>
      match scan_digits 0 0 false s with
      | Some (m, _, String "." r) =>
          if starts_with_digit r then
            match scan_digits m 0 false r with
            | Some (m', k, rest) => parse_exponent m' (- Z.of_nat k) rest
            | None => None
            end
          else parse_exponent m 0 r
      | Some (m, _, rest) => parse_exponent m 0 rest
      | None => None
      end
  end.

Definition lower (c : ascii) : ascii :=
  let n := nat_of_ascii c in
  if ((65 <=? n)%nat && (n <=? 90)%nat) then ascii_of_nat (n + 32) else c.

Fixpoint lowercase (s : string) : string :=
  match s with
  | EmptyString => EmptyString
  | String c s' => String (lower c) (lowercase s')
  end.

(** The literal that [float(tok)] reads from a token without whitespace. *)
Definition parse_float_literal (tok : string) : option float_literal :=
  let '(neg, body) :=
    match tok with
    | String "+" r => (false, r)
    | String "-" r => (true, r)
    | _ => (false, tok)
    end in
  let lb := lowercase body in
  if String.eqb lb "inf" || String.eqb lb "infinity" then Some (LitInf neg)
  else if String.eqb lb "nan" then Some LitNan
  else
    match parse_decimal body with
    | Some (m, e) => Some (LitFinite neg m e)
    | None => None
    end.

(** ** The instance over the real numbers

    Arithmetic without rounding, overflow or NaN: it agrees with the code
    only where every value is exact, as in the examples with small
    integers.  The reals have no infinity and no NaN, so the tokens [inf],
    [infinity] and [nan] have no value here, and a literal beyond the
    float range, such as [1e400], keeps its real value.  The instance
    [binary32] below has none of these limits. *)

Definition real_of_literal (l : float_literal) : option R :=
  match l with
  | LitFinite neg m e =>
      Some ((if neg then - IZR m else IZR m) * powerRZ 10 e)%R
  | _ => None
  end.

Definition py_float_R (tok : string) : option R :=
  match parse_float_literal tok with
  | Some l => real_of_literal l
  | None => None
  end.

(** [s.rjust(width, "0")] *)
Definition zero_pad (width : nat) (s : string) : string :=
  String.concat "" (replicate (width - String.length s) "0") ++ s.

(** Six decimals of a number of millionths. *)
Definition fmt6_millionths (n : Z) : string :=
  let a := Z.abs n in
  (if (n <? 0)%Z then "-" else "")
  ++ str_int (a / 1000000) ++ "."
  ++ zero_pad 6 (str_int (a mod 1000000)).

(** [format(x, ".6f")], rounding to the nearest millionth, a tie upwards;
    the reals have no negative zero, so no ["-0.000000"]. *)
Definition fmt6_R (x : R) : string :=
  fmt6_millionths (up (x * 1000000 + / 2) - 1).

#[global] Instance R_float : PyFloat R := {
  f0 := 0%R;
  fadd := Rplus;
  fsub := Rminus;
  fmul := Rmult;
  fdiv := Rdiv;
  fmax := Rmax;
  fsqrt := sqrt;
  eps_normalize := (/ 100000000)%R;
  eps_bn := (/ 100000)%R;
  py_float := py_float_R;
  fmt6 := fmt6_R
}.

(** The real number a decimal token denotes (0 for a token without value). *)
Definition real_literal (tok : string) : R :=
  match py_float_R tok with
  | Some x => x
  | None => 0%R
  end.

(** ** Whitespace in a line *)

(** Every character of [s] is whitespace. *)
Fixpoint all_space (s : string) : bool :=
  match s with
  | EmptyString => true
  | String c s' => is_space c && all_space s'
  end.

(** The last character of [s] is whitespace. *)
Fixpoint ends_space (s : string) : bool :=
  match s with
  | EmptyString => false
  | String c EmptyString => is_space c
  | String _ s' => ends_space s'
  end.

(** ** The input protocol, as the parser classifies its lines *)

Section Protocol.
Context {F : Type} `{PyFloat F}.

(** [raw] is a header line [beam <id>] carrying the integer [i]. *)
Definition is_header (raw : string) (i : Z) : Prop :=
  startswith (strip raw) "beam " = true
  /\ py_int (nth 1 (split (strip raw)) "") = Some i.

(** [raw] is the line [endbeam]. *)
Definition is_endbeam (raw : string) : Prop := strip raw = "endbeam".

(** [raw] falls through to the coordinate branch of the parser: it is not
    blank, not a header and not [endbeam]. *)
Definition is_point_line (raw : string) : Prop :=
  strip raw <> "" /\ startswith (strip raw) "beam " = false
  /\ strip raw <> "endbeam".

(** [raw] is a coordinate line of the protocol: exactly three tokens,
    each a float, giving the point [p]. *)
Definition is_coord (raw : string) (p : list F) : Prop :=
  is_point_line raw
  /\ exists a b c x y z,
       split (strip raw) = [a; b; c]
       /\ py_float a = Some x /\ py_float b = Some y /\ py_float c = Some z
       /\ p = [x; y; z].

(** A block [beam <id>], coordinate lines, [endbeam], with what it denotes. *)
Record block : Type := mk_block {
  blk_header : string;
  blk_id : Z;
  blk_coords : list (string * list F);
  blk_end : string
}.

Definition well_formed_block (b : block) : Prop :=
  is_header (blk_header b) (blk_id b)
  /\ Forall (fun lp => is_coord (fst lp) (snd lp)) (blk_coords b)
  /\ is_endbeam (blk_end b).

Definition block_lines (b : block) : list string :=
  blk_header b :: (map fst (blk_coords b) ++ [blk_end b])%list.

(** The Beam a block stands for: none when it has no coordinate line. *)
Definition block_beam (b : block) : option (Beam F) :=
  match blk_coords b with
  | [] => None
  | _ :: _ =>
      Some (mk_Beam (blk_id b)
              (mk_ndarray [length (blk_coords b); 3%nat]
                 (concat (map snd (blk_coords b)))))
  end.

(** The first of the tokens [a], [b], [c] that [float] rejects. *)
Definition first_non_float (a b c : string) : option string :=
  match py_float a, py_float b, py_float c with
  | None, _, _ => Some a
  | Some _, None, _ => Some b
  | Some _, Some _, None => Some c
  | Some _, Some _, Some _ => None
  end.

(** Reading [input] raises [e], and so does the run, which stops there:
    nothing is loaded, evaluated or written. *)
Definition aborts_with (input : list string) (e : error) : Prop :=
  read_beams_text input = Err e
  /\ forall ckpt batch_size, main input ckpt batch_size = ([EvReadInput], Err e).

End Protocol.

Arguments block F : clear implicits.

(** ** Rows of a batch *)

Section Batch.
Context {F : Type} `{PyFloat F}.

(** [a[i]], flattened. *)
Definition row {A} (a : ndarray A) (i : nat) : list A :=
  let w := prod_list (tail (shape a)) in
  take w (drop (i * w) (data a)).

(** The point count of a beam, [points.shape[0]]. *)
Definition beam_count (b : Beam F) : nat := hd 0%nat (shape (points b)).

(** The points of a beam are an array of shape (n, 3). *)
Definition well_shaped (b : Beam F) : Prop :=
  shape (points b) = [beam_count b; 3%nat]
  /\ length (data (points b)) = (beam_count b * 3)%nat.

(** The row of [x] for a beam: its first [target_n] points when it has
    that many, else all of them followed by zeros. *)
Definition padded_row (target_n : nat) (b : Beam F) : list F :=
  if (target_n <=? beam_count b)%nat then take (target_n * 3) (data (points b))
  else (data (points b) ++ replicate ((target_n - beam_count b) * 3) f0)%list.

(** The row of [mask] for a beam. *)
Definition mask_row (target_n : nat) (b : Beam F) : list bool :=
  if (target_n <=? beam_count b)%nat then replicate target_n true
  else (replicate (beam_count b) true
        ++ replicate (target_n - beam_count b) false)%list.

(** The prediction for a beam evaluated at padded length [target_n]. *)
Definition predict_at (m : state_dict F) (target_n : nat) (b : Beam F)
    : prediction F :=
  let vc := forward_cloud m (reshape (replicate target_n 3%nat) (padded_row target_n b)) in
  mk_pred (beam_id b) (snd vc) (fst vc) f0 f0.

(** What the parser guarantees of a beam: points of shape (n, 3), n >= 1. *)
Definition parsed_beam (b : Beam F) : Prop :=
  well_shaped b /\ (1 <= beam_count b)%nat.

(** The padded length of the mini-batch that starts at [start]. *)
Definition batch_target (bms : list (Beam F)) (batch_size : Z) (start : nat) : nat :=
  max_list (map beam_count (batch_slice bms start batch_size)).

(** The predictions of the mini-batch that starts at [start]. *)
Definition batch_predictions (m : state_dict F) (bms : list (Beam F))
    (batch_size : Z) (start : nat) : list (prediction F) :=
  map (predict_at m (batch_target bms batch_size start))
      (batch_slice bms start batch_size).

(** The prediction for a beam evaluated alone, without padding. *)
Definition own_prediction (m : state_dict F) (b : Beam F) : prediction F :=
  predict_at m (beam_count b) b.

(** The event of the forward pass on the mini-batch that starts at [start]. *)
Definition batch_event (bms : list (Beam F)) (batch_size : Z) (start : nat) : event :=
  EvForward [length (batch_slice bms start batch_size);
             batch_target bms batch_size start; 3%nat].

(** No mini-batch mixes beams of different point counts. *)
Definition uniform_batches (bms : list (Beam F)) (batch_size : Z) : Prop :=
  forall k b,
    b ∈ batch_slice bms (k * Z.to_nat batch_size) batch_size ->
    beam_count b = batch_target bms batch_size (k * Z.to_nat batch_size).

(** The five lines written for a prediction whose [c] and [v] have three
    entries. *)
Definition result_lines (r : prediction F) : list string :=
  [ "result " ++ str_int (pred_id r) ++ newline;
    "c " ++ fmt6 (nth 0 (pred_c r) f0) ++ " " ++ fmt6 (nth 1 (pred_c r) f0)
      ++ " " ++ fmt6 (nth 2 (pred_c r) f0) ++ newline;
    "v " ++ fmt6 (nth 0 (pred_v r) f0) ++ " " ++ fmt6 (nth 1 (pred_v r) f0)
      ++ " " ++ fmt6 (nth 2 (pred_v r) f0) ++ newline;
    "t " ++ fmt6 (pred_t1 r) ++ " " ++ fmt6 (pred_t2 r) ++ newline;
    "endresult" ++ newline ].

End Batch.

(** ** Example inputs *)

(** The coordinate line [text] with the point it denotes over the reals. *)
Definition coord_R (text a b c : string) : string * list R :=
  (text, [real_literal a; real_literal b; real_literal c]).

(** The two beams of the end-to-end example of the specification, with a
    block without points between them. *)
Definition example_blocks : list (block R) :=
  [ mk_block "beam 1" 1
      [coord_R "0 0 0" "0" "0" "0"; coord_R "1 0 0" "1" "0" "0";
       coord_R "0 1 0" "0" "1" "0"] "endbeam";
    mk_block "beam 5" 5 [] "endbeam";
    mk_block "beam 2" 2
      [coord_R "0 0 0" "0" "0" "0"; coord_R "0 0 1" "0" "0" "1"] "endbeam" ].

Definition example_beam1 : Beam R :=
  mk_Beam 1 (mk_ndarray [3; 3]%nat
    [real_literal "0"; real_literal "0"; real_literal "0";
     real_literal "1"; real_literal "0"; real_literal "0";
     real_literal "0"; real_literal "1"; real_literal "0"]).

Definition example_beam2 : Beam R :=
  mk_Beam 2 (mk_ndarray [2; 3]%nat
    [real_literal "0"; real_literal "0"; real_literal "0";
     real_literal "0"; real_literal "0"; real_literal "1"]).

(** ** Norms and dot products *)

Section Vectors.
Context {F : Type} `{PyFloat F}.

(** The Euclidean norm, as [F.normalize] computes it. *)
Definition vnorm (v : list F) : F := fsqrt (fsum (map (fun a => fmul a a) v)).

(** [(c * v).sum()] *)
Definition vdot (c v : list F) : F := fsum (zip_with fmul c v).

End Vectors.

(** ** A checkpoint that tells padding from points

    All the weights are 0 or 1 but one.  The first feature of a point
    (x, y, z) is relu(1 - x), so a padding point (0, 0, 0) has feature 1
    and the point (1, 0, 0) has feature 0; the head passes the pooled
    feature on to the second raw output, and the first raw output is the
    bias 1. *)

Definition zero_row (n : nat) : list R := replicate n 0%R.

Definition unit_row (n : nat) : list R := 1%R :: replicate (n - 1) 0%R.

(** The matrix that keeps the first entry and zeroes the others. *)
Definition pick_first (rows cols : nat) : list (list R) :=
  unit_row cols :: replicate (rows - 1) (zero_row cols).

(** A [BatchNorm1d] whose evaluation is the identity. *)
Definition bn_identity (n : nat) : bn_params R :=
  mk_bn (replicate n 1%R) (replicate n 0%R) (replicate n 0%R)
        (replicate n (1 - / 100000)%R).

Definition padding_sensitive_ckpt : state_dict R :=
  mk_state
    ([-1; 0; 0]%R :: replicate 63 (zero_row 3))
    (mk_bn (replicate 64 1%R) (1%R :: replicate 63 0%R) (replicate 64 0%R)
           (replicate 64 (1 - / 100000)%R))
    (pick_first 128 64) (bn_identity 128)
    (pick_first 256 128) (bn_identity 256)
    (pick_first 256 256) (bn_identity 256)
    (pick_first 128 256) (bn_identity 128)
    [zero_row 128; unit_row 128; zero_row 128; zero_row 128; zero_row 128;
     zero_row 128]
    [1; 0; 0; 0; 0; 0]%R.

(** A beam with the single point (1, 0, 0) and a beam with that point twice. *)
Definition short_beam : Beam R :=
  mk_Beam 1 (mk_ndarray [1; 3]%nat [1; 0; 0]%R).

Definition long_beam : Beam R :=
  mk_Beam 2 (mk_ndarray [2; 3]%nat [1; 0; 0; 1; 0; 0]%R).

(** Another beam of one point, (0, 1, 0). *)
Definition other_short_beam : Beam R :=
  mk_Beam 2 (mk_ndarray [1; 3]%nat [0; 1; 0]%R).

(** The second entry of the predicted direction. *)
Definition v_second (r : prediction R) : R := nth 1 (pred_v r) 0%R.

(** The checkpoint whose parameters are all zero. *)
Definition zero_ckpt : state_dict R :=
  let z n := mk_bn (zero_row n) (zero_row n) (zero_row n) (zero_row n) in
  mk_state
    (replicate 64 (zero_row 3)) (z 64%nat)
    (replicate 128 (zero_row 64)) (z 128%nat)
    (replicate 256 (zero_row 128)) (z 256%nat)
    (replicate 256 (zero_row 256)) (z 256%nat)
    (replicate 128 (zero_row 256)) (z 128%nat)
    (replicate 6 (zero_row 128)) (zero_row 6).

(** A checkpoint without any parameter: its shapes are not the model's. *)
Definition empty_ckpt : state_dict R :=
  let z := mk_bn [] [] [] [] in
  mk_state [] z [] z [] z [] z [] z [] [].

(** ** The instance over IEEE 754 binary32

    float32 as the code runs it: the operations of the Standard Library's
    [SpecFloat] at precision 24 and maximal exponent 128, rounding to the
    nearest float with ties to even, with signed zeros, infinities and
    NaN. *)

Definition prec32 : Z := 24.
Definition emax32 : Z := 128.
Definition prec64 : Z := 53.
Definition emax64 : Z := 1024.

Definition is_nan (x : spec_float) : bool :=
  match x with
  | S754_nan => true
  | _ => false
  end.

(** [torch.relu], [torch.max] and [clamp_min]: the larger operand, and a
    NaN when there is one. *)
Definition f32_max (a b : spec_float) : spec_float :=
  if is_nan a then a
  else if is_nan b then b
  else if SFltb a b then b else a.

(** The double nearest to [mantissa * 10 ^ exp10], as [float] reads a
    decimal token. *)
Definition f64_of_decimal (neg : bool) (m e : Z) : spec_float :=
  match m with
  | Zpos p =>
      if (0 <=? e)%Z then
        binary_round prec64 emax64 neg (p * Z.to_pos (10 ^ e)) 0
      else
        SFdiv prec64 emax64 (S754_finite neg p 0)
              (S754_finite false (Z.to_pos (10 ^ (- e))) 0)
  | _ => S754_zero neg
  end.

(** [np.asarray(..., dtype=np.float32)] on a double. *)
Definition f32_of_f64 (x : spec_float) : spec_float :=
  match x with
  | S754_finite s m e => binary_round prec32 emax32 s m e
  | _ => x
  end.

Definition f32_of_literal (l : float_literal) : spec_float :=
  match l with
  | LitFinite neg m e => f32_of_f64 (f64_of_decimal neg m e)
  | LitInf neg => S754_infinity neg
  | LitNan => S754_nan
  end.

Definition py_float_32 (tok : string) : option spec_float :=
  match parse_float_literal tok with
  | Some l => Some (f32_of_literal l)
  | None => None
  end.

(** The integer nearest to [n / d], ties to even, for [0 <= n] and [0 < d]. *)
Definition round_half_even (n d : Z) : Z :=
  let q := (n / d)%Z in
  match (2 * (n mod d) ?= d)%Z with
  | Lt => q
  | Gt => (q + 1)%Z
  | Eq => if Z.even q then q else (q + 1)%Z
  end.

(** [format(x, ".6f")] of a float32: the exact binary value rounded to six
    decimals; the sign is kept on zeros. *)
Definition fmt6_32 (x : spec_float) : string :=
  match x with
  | S754_nan => "nan"
  | S754_infinity s => if s then "-inf" else "inf"
  | S754_zero s => (if s then "-" else "") ++ "0.000000"
  | S754_finite s m e =>
      let q :=
        if (0 <=? e)%Z then (Zpos m * 2 ^ e * 1000000)%Z
        else round_half_even (Zpos m * 1000000) (2 ^ (- e)) in
      (if s then "-" else "")
      ++ str_int (q / 1000000) ++ "." ++ zero_pad 6 (str_int (q mod 1000000))
  end.

#[global] Instance binary32 : PyFloat spec_float | 100 := {
  f0 := S754_zero false;
  fadd := SFadd prec32 emax32;
  fsub := SFsub prec32 emax32;
  fmul := SFmul prec32 emax32;
  fdiv := SFdiv prec32 emax32;
  fmax := f32_max;
  fsqrt := SFsqrt prec32 emax32;
  eps_normalize := f32_of_literal (LitFinite false 1 (-8));
  eps_bn := f32_of_literal (LitFinite false 1 (-5));
  py_float := py_float_32;
  fmt6 := fmt6_32
}.

(** The float32 a decimal token denotes (NaN for a token without value). *)
Definition f32_literal (tok : string) : spec_float :=
  match py_float_32 tok with
  | Some x => x
  | None => S754_nan
  end.

Definition f32_finite (x : spec_float) : bool :=
  match x with
  | S754_zero _ | S754_finite _ _ _ => true
  | _ => false
  end.

(** The real number a finite float32 stands for (0 for the others). *)
Definition f32_val (x : spec_float) : R :=
  match x with
  | S754_finite s m e =>
      (IZR (cond_Zopp s (Zpos m)) * IZR (2 ^ Z.max e 0) / IZR (2 ^ Z.max (- e) 0))%R
  | _ => 0%R
  end.

(** The unit roundoff of binary32, 2^-24. *)
Definition u32 : R := (/ 16777216)%R.

(** ** Rounding errors of a run of the canonicalizer *)

(** The Euclidean norm and the dot product of real vectors. *)
Definition real_dot (x y : list R) : R :=
  fold_right Rplus 0%R (zip_with Rmult x y).

Definition real_norm (x : list R) : R := sqrt (real_dot x x).

Definition abs_sum (x : list R) : R := fold_right Rplus 0%R (map Rabs x).

(** [y] is [x] up to the relative error [u]. *)
Definition close (u x y : R) : Prop := (Rabs (y - x) <= u * Rabs x)%R.

Section Rounding.
Context {F : Type} `{PyFloat F}.

(** [val] reads a float as a real number, [fin] tells the finite floats
    from the infinities and NaN, [u] bounds the relative error of one
    operation. *)
Variable val : F -> R.
Variable fin : F -> bool.
Variable u : R.

(** The float [y] is finite and is the real number [x] up to the
    relative error [u]. *)
Definition rounds_to (x : R) (y : F) : Prop :=
  fin y = true /\ close u x (val y).

(** Every addition of [foldl fadd acc l] is rounded within [u]. *)
Fixpoint sum_rounds (acc : F) (l : list F) : Prop :=
  match l with
  | [] => True
  | x :: l' =>
      rounds_to (val acc + val x) (fadd acc x) /\ sum_rounds (fadd acc x) l'
  end.

(** Every operation that [canonicalize] performs on [raw] is rounded
    within [u], and none overflows or yields a NaN: the squares, their
    sum, the square root, the clamp, the three divisions, the products and
    the sum of the dot product, its three multiples and the three
    subtractions. *)
Definition canonicalize_rounds (raw : list F) : Prop :=
  let v_raw := take 3 raw in
  let c_raw := take 3 (drop 3 raw) in
  let squares := map (fun a => fmul a a) v_raw in
  let norm := fsqrt (fsum squares) in
  let den := fmax norm eps_normalize in
  let v := normalize v_raw in
  let prods := zip_with fmul c_raw v in
  let d := fsum prods in
  val f0 = 0%R
  /\ (0 < val eps_normalize)%R
  /\ Forall (fun a => rounds_to (val a * val a) (fmul a a)) v_raw
  /\ sum_rounds f0 squares
  /\ rounds_to (sqrt (val (fsum squares))) norm
  /\ val den = Rmax (val norm) (val eps_normalize)
  /\ Forall (fun a => rounds_to (val a / val den) (fdiv a den)) v_raw
  /\ Forall2 (fun ci vi => rounds_to (val ci * val vi) (fmul ci vi)) c_raw v
  /\ sum_rounds f0 prods
  /\ Forall (fun vi => rounds_to (val d * val vi) (fmul d vi)) v
  /\ Forall2 (fun ci vi => rounds_to (val ci - val (fmul d vi)) (fsub ci (fmul d vi)))
             c_raw v.

End Rounding.

(** float32 inputs of the canonicalizer: a direction of norm 5, a
    direction of norm below eps, the zero direction, a direction whose
    square overflows and a large offset along a diagonal direction. *)
Definition raw_345 : list spec_float :=
  map f32_literal ["3"; "4"; "0"; "1"; "2"; "3"].

Definition raw_clamped : list spec_float :=
  map f32_literal ["1e-9"; "0"; "0"; "1"; "2"; "3"].

Definition raw_zero_direction : list spec_float :=
  map f32_literal ["0"; "0"; "0"; "1"; "2"; "3"].

Definition raw_overflow : list spec_float :=
  map f32_literal ["3e38"; "3e38"; "3e38"; "1"; "2"; "3"].

Definition raw_large_offset : list spec_float :=
  map f32_literal ["1"; "1"; "0"; "1e6"; "0"; "0"].

(** * Properties *)

Close Scope string_scope.

(** ** The result monad *)

Lemma rbind_ok {A B} (r : result A) (k : A -> result B) (a : A) :
  r = Ok a -> rbind r k = k a.
Proof. intros ->. reflexivity. Qed.

Lemma rbind_err {A B} (r : result A) (k : A -> result B) (e : error) :
  r = Err e -> rbind r k = Err e.
Proof. intros ->. reflexivity. Qed.

Lemma rbind_inv {A B} (r : result A) (k : A -> result B) (b : B) :
  rbind r k = Ok b -> exists a, r = Ok a /\ k a = Ok b.
Proof. destruct r as [a|e]; simpl; [eauto | discriminate]. Qed.

(** ** The parser *)

Section ParserFacts.
Context {F : Type} `{PyFloat F}.
Implicit Types (st : parser_state F) (raw : string) (p : list F).

(** A header line opens a fresh accumulator, whatever was open before. *)
Lemma parse_line_header st raw i :
  is_header raw i ->
  parse_line st raw = Ok (mk_pstate (beams st) (Some i) []).
Proof.
  intros [Hpre Hint]. unfold parse_line.
  destruct (String.eqb_spec (strip raw) ""%string) as [He|_].
  { rewrite He in Hpre. discriminate. }
  rewrite Hpre.
  destruct (split (strip raw)) as [|t0 [|t1 ts]] eqn:Hsp; simpl in *;
    try discriminate.
  rewrite Hint. reflexivity.
Qed.

(** A line in the coordinate branch whose first three tokens are floats
    is appended, even when more tokens follow. *)
Lemma parse_line_point st raw a b c rest x y z :
  is_point_line raw ->
  split (strip raw) = a :: b :: c :: rest ->
  py_float a = Some x -> py_float b = Some y -> py_float c = Some z ->
  parse_line st raw
  = Ok (mk_pstate (beams st) (cur_id st) (cur_pts st ++ [[x; y; z]])).
Proof.
  intros (Hne & Hpre & Hend) Hsp Ha Hb Hc. unfold parse_line.
  destruct (String.eqb_spec (strip raw) ""%string) as [He|_]; [contradiction|].
  rewrite Hpre.
  destruct (String.eqb_spec (strip raw) "endbeam"%string) as [He|_]; [contradiction|].
  rewrite Hsp. simpl. unfold to_float. rewrite Ha, Hb, Hc. reflexivity.
Qed.

Lemma parse_line_coord st raw p :
  is_coord raw p ->
  parse_line st raw = Ok (mk_pstate (beams st) (cur_id st) (cur_pts st ++ [p])).
Proof.
  intros (Hpl & a & b & c & x & y & z & Hsp & Ha & Hb & Hc & ->).
  eapply parse_line_point; eauto.
Qed.

Lemma is_coord_length raw p : is_coord raw p -> length p = 3%nat.
Proof. intros (_ & a & b & c & x & y & z & _ & _ & _ & _ & ->). reflexivity. Qed.

(** [endbeam] with no beam open is ignored. *)
Lemma parse_line_endbeam_idle st raw :
  is_endbeam raw -> cur_id st = None -> parse_line st raw = Ok st.
Proof.
  unfold is_endbeam, parse_line. intros -> ->. reflexivity.
Qed.

(** [endbeam] on an open beam without points drops the beam. *)
Lemma parse_line_endbeam_empty st raw i :
  is_endbeam raw -> cur_id st = Some i -> cur_pts st = [] ->
  parse_line st raw = Ok (mk_pstate (beams st) None []).
Proof.
  unfold is_endbeam, parse_line. intros -> -> ->. reflexivity.
Qed.

(** [endbeam] on an open beam with points emits it. *)
Lemma parse_line_endbeam_emit st raw i p ps :
  is_endbeam raw -> cur_id st = Some i -> cur_pts st = p :: ps ->
  length p = 3%nat ->
  parse_line st raw
  = Ok (mk_pstate
          (beams st ++ [mk_Beam i (mk_ndarray [length (p :: ps); 3%nat]
                                     (concat (p :: ps)))])
          None []).
Proof.
  unfold is_endbeam, parse_line. intros -> -> -> Hp. simpl.
  rewrite Hp. reflexivity.
Qed.

Lemma parse_lines_app st l1 l2 :
  parse_lines st (l1 ++ l2)
  = let* st' := parse_lines st l1 in parse_lines st' l2.
Proof.
  revert st. induction l1 as [|raw l1 IH]; intros st; simpl; [reflexivity|].
  destruct (parse_line st raw) as [st'|e]; simpl; [apply IH | reflexivity].
Qed.

(** A run of coordinate lines only grows the accumulator. *)
Lemma parse_lines_coords st (cs : list (string * list F)) :
  Forall (fun lp => is_coord (fst lp) (snd lp)) cs ->
  parse_lines st (map fst cs)
  = Ok (mk_pstate (beams st) (cur_id st) (cur_pts st ++ map snd cs)).
Proof.
  intros Hcs. revert st. induction Hcs as [|[raw p] cs Hc _ IH]; intros st; simpl.
  - rewrite app_nil_r. destruct st; reflexivity.
  - rewrite (parse_line_coord st raw p Hc). simpl. rewrite IH. simpl.
    rewrite <- app_assoc. reflexivity.
Qed.

(** A whole block read from an arbitrary state. *)
Lemma parse_lines_block st (b : block F) :
  well_formed_block b ->
  parse_lines st (block_lines b)
  = Ok (mk_pstate (beams st ++ option_list (block_beam b)) None []).
Proof.
  intros (Hh & Hcs & He). unfold block_lines. cbn [parse_lines].
  rewrite (parse_line_header st _ _ Hh). cbn [rbind].
  rewrite parse_lines_app, (parse_lines_coords _ _ Hcs). simpl.
  unfold block_beam.
  destruct (blk_coords b) as [|[raw p] cs] eqn:Hb; simpl.
  - rewrite (parse_line_endbeam_empty _ _ (blk_id b)); auto.
    simpl. rewrite app_nil_r. reflexivity.
  - assert (Hp : length p = 3%nat).
    { inversion Hcs as [|? ? Hc _]; subst. eapply is_coord_length, Hc. }
    rewrite (parse_line_endbeam_emit _ _ (blk_id b) p (map snd cs)); auto.
    simpl. rewrite length_map. reflexivity.
Qed.

Lemma parse_lines_blocks st (bs : list (block F)) :
  Forall well_formed_block bs ->
  cur_id st = None -> cur_pts st = [] ->
  parse_lines st (concat (map block_lines bs))
  = Ok (mk_pstate (beams st ++ omap block_beam bs) None []).
Proof.
  intros Hbs. revert st. induction Hbs as [|b bs Hb _ IH]; intros st Hid Hpts.
  - simpl. rewrite app_nil_r. destruct st; simpl in *; congruence.
  - change (concat (map block_lines (b :: bs)))
      with (block_lines b ++ concat (map block_lines bs)).
    rewrite parse_lines_app, (parse_lines_block st b Hb).
    cbn [rbind]. rewrite IH by reflexivity. simpl.
    rewrite <- app_assoc. destruct (block_beam b); reflexivity.
Qed.

End ParserFacts.

Section ParserClaims.
Context {F : Type} `{PyFloat F}.

Lemma main_parse_error (input : list string) (e : error) :
  read_beams_text input = Err e -> aborts_with input e.
Proof.
  intros He. split; [exact He|]. intros ckpt bsz. unfold main.
  rewrite He. reflexivity.
Qed.

Lemma read_beams_text_state (input : list string) (st : parser_state F) :
  parse_lines parser_init input = Ok st -> read_beams_text input = Ok (beams st).
Proof. intros Hst. unfold read_beams_text. rewrite Hst. reflexivity. Qed.

Lemma read_beams_text_inv (input : list string) (bms : list (Beam F)) :
  read_beams_text input = Ok bms ->
  exists st, parse_lines parser_init input = Ok st /\ beams st = bms.
Proof.
  unfold read_beams_text. intros Hr.
  apply rbind_inv in Hr as (st & Hst & Hok). exists st. split; congruence.
Qed.

(** C3: a file made of well-formed blocks parses to one Beam per block
    that has at least one coordinate line, with the id of its header and
    its points in the order of the lines; a block without coordinate
    lines is left out and raises nothing; the Beams come in the order of
    the blocks. *)
Theorem read_beams_text_blocks (bs : list (block F)) :
  Forall well_formed_block bs ->
  read_beams_text (concat (map block_lines bs)) = Ok (omap block_beam bs).
Proof.
  intros Hbs. unfold read_beams_text.
  rewrite (parse_lines_blocks parser_init bs Hbs) by reflexivity.
  reflexivity.
Qed.

(** C9: when the file ends inside a block, after its header and any
    number of coordinate lines, the parser returns what it had emitted
    before that header: the open beam is dropped and nothing is raised. *)
Theorem read_beams_text_unterminated (pre : list string) (bms : list (Beam F))
    (h : string) (i : Z) (cs : list (string * list F)) :
  read_beams_text pre = Ok bms ->
  is_header h i ->
  Forall (fun lp => is_coord (fst lp) (snd lp)) cs ->
  read_beams_text (pre ++ h :: map fst cs) = Ok bms.
Proof.
  intros Hpre Hh Hcs.
  apply read_beams_text_inv in Hpre as (st & Hst & <-).
  unfold read_beams_text. rewrite parse_lines_app, Hst. cbn [rbind parse_lines].
  rewrite (parse_line_header st h i Hh). cbn [rbind].
  rewrite (parse_lines_coords _ cs Hcs). reflexivity.
Qed.

(** C10: a header met while a block is open does not fail; the points
    gathered for the open block are thrown away and a fresh accumulator is
    started for the new id, so the file parses as if the open block were
    not there. *)
Theorem header_discards_open_block (st : parser_state F) (pre rest : list string)
    (h1 h2 : string) (i1 i2 : Z) (cs : list (string * list F)) :
  is_header h1 i1 ->
  Forall (fun lp => is_coord (fst lp) (snd lp)) cs ->
  is_header h2 i2 ->
  parse_lines st (h1 :: map fst cs ++ [h2]) = Ok (mk_pstate (beams st) (Some i2) [])
  /\ read_beams_text (pre ++ h1 :: map fst cs ++ h2 :: rest)
     = read_beams_text (pre ++ h2 :: rest).
Proof.
  intros Hh1 Hcs Hh2.
  assert (Hopen : forall s, parse_lines s (h1 :: map fst cs ++ [h2])
                            = Ok (mk_pstate (beams s) (Some i2) [])).
  { intros s. cbn [parse_lines]. rewrite (parse_line_header s h1 i1 Hh1).
    cbn [rbind]. rewrite parse_lines_app, (parse_lines_coords _ cs Hcs).
    cbn [rbind parse_lines]. rewrite (parse_line_header _ h2 i2 Hh2).
    reflexivity. }
  split; [apply Hopen|].
  unfold read_beams_text. f_equal.
  rewrite !parse_lines_app.
  destruct (parse_lines parser_init pre) as [s|e]; [|reflexivity].
  cbn [rbind].
  change (h1 :: map fst cs ++ h2 :: rest)
    with ((h1 :: map fst cs) ++ h2 :: rest).
  replace ((h1 :: map fst cs) ++ h2 :: rest)
    with ((h1 :: map fst cs ++ [h2]) ++ rest)
    by (simpl; rewrite <- app_assoc; reflexivity).
  rewrite parse_lines_app, Hopen. cbn [rbind parse_lines].
  rewrite (parse_line_header s h2 i2 Hh2). reflexivity.
Qed.

(** C4 (amended): a line that is not blank, not a header and not
    [endbeam] is read as a coordinate line, in any parser state.  With
    fewer than three tokens the run aborts with the error that carries the
    stripped line; with three or more tokens of which one of the first
    three is not a float the run aborts with the conversion error of the
    first such token; otherwise the line is accepted and its first three
    tokens give the point, whatever follows them. *)
Theorem point_line_outcome (pre rest : list string) (st : parser_state F)
    (raw : string) :
  parse_lines parser_init pre = Ok st ->
  is_point_line raw ->
  match split (strip raw) with
  | a :: b :: c :: _ =>
      match first_non_float a b c with
      | Some tok => aborts_with (pre ++ raw :: rest) (FloatLiteralError tok)
      | None =>
          exists x y z,
            py_float a = Some x /\ py_float b = Some y /\ py_float c = Some z
            /\ parse_line st raw
               = Ok (mk_pstate (beams st) (cur_id st) (cur_pts st ++ [[x; y; z]]))
      end
  | _ => aborts_with (pre ++ raw :: rest) (BadPointLine (strip raw))
  end.
Proof.
  intros Hpre (Hne & Hb & He).
  assert (Hfail : forall e, parse_line st raw = Err e ->
                            aborts_with (pre ++ raw :: rest) e).
  { intros e Hl. apply main_parse_error. unfold read_beams_text.
    rewrite parse_lines_app, Hpre. cbn [rbind parse_lines]. rewrite Hl.
    reflexivity. }
  assert (Hline : parse_line st raw
                  = let parts := split (strip raw) in
                    if (length parts <? 3)%nat then Err (BadPointLine (strip raw))
                    else
                      let* x := to_float (nth 0 parts ""%string) in
                      let* y := to_float (nth 1 parts ""%string) in
                      let* z := to_float (nth 2 parts ""%string) in
                      Ok (mk_pstate (beams st) (cur_id st) (cur_pts st ++ [[x; y; z]]))).
  { unfold parse_line.
    destruct (String.eqb_spec (strip raw) ""%string) as [E|_]; [contradiction|].
    rewrite Hb.
    destruct (String.eqb_spec (strip raw) "endbeam"%string) as [E|_]; [contradiction|].
    reflexivity. }
  destruct (split (strip raw)) as [|a [|b [|c ts]]] eqn:Hsp;
    try (apply Hfail; rewrite Hline; reflexivity).
  unfold first_non_float. cbn in Hline. unfold to_float in Hline.
  destruct (py_float a) as [x|]; [|apply Hfail; rewrite Hline; reflexivity].
  destruct (py_float b) as [y|]; [|apply Hfail; rewrite Hline; reflexivity].
  destruct (py_float c) as [z|]; [|apply Hfail; rewrite Hline; reflexivity].
  exists x, y, z. repeat split. exact Hline.
Qed.

End ParserClaims.

(** ** The parser on concrete files *)

Ltac prove_header := split; reflexivity.

Ltac prove_point_line :=
  repeat split; solve [ vm_compute; discriminate | reflexivity ].

Ltac prove_coord :=
  split; [ prove_point_line | do 6 eexists; repeat split; reflexivity ].

Ltac prove_coords :=
  repeat (apply List.Forall_cons; [ prove_coord | ]); apply List.Forall_nil.

Ltac prove_block :=
  split; [ prove_header | split; [ prove_coords | reflexivity ] ].

Lemma example_blocks_well_formed : Forall well_formed_block example_blocks.
Proof.
  unfold example_blocks.
  repeat (apply List.Forall_cons; [ prove_block | ]). apply List.Forall_nil.
Qed.

Lemma read_beams_text_blocks_witness :
  read_beams_text (F := R)
    [ "beam 1"; "0 0 0"; "1 0 0"; "0 1 0"; "endbeam";
      "beam 5"; "endbeam";
      "beam 2"; "0 0 0"; "0 0 1"; "endbeam" ]%string
  = Ok [example_beam1; example_beam2].
Proof.
  exact (read_beams_text_blocks example_blocks example_blocks_well_formed).
Defined.

Lemma read_beams_text_unterminated_witness :
  read_beams_text (F := R)
    [ "beam 1"; "0 0 0"; "1 0 0"; "0 1 0"; "endbeam";
      "beam 2"; "0 0 0"; "0 0 1" ]%string
  = Ok [example_beam1].
Proof.
  apply (read_beams_text_unterminated
           [ "beam 1"; "0 0 0"; "1 0 0"; "0 1 0"; "endbeam" ]%string
           [example_beam1] "beam 2"%string 2
           [coord_R "0 0 0" "0" "0" "0"; coord_R "0 0 1" "0" "0" "1"]).
  - vm_compute. reflexivity.
  - prove_header.
  - prove_coords.
Defined.

Lemma header_discards_open_block_witness :
  parse_lines (F := R) parser_init
    [ "beam 1"; "0 0 0"; "1 0 0"; "beam 2" ]%string
  = Ok (mk_pstate [] (Some 2%Z) [])
  /\ read_beams_text (F := R)
       [ "beam 1"; "0 0 0"; "1 0 0"; "beam 2"; "0 0 0"; "0 0 1"; "endbeam" ]%string
     = read_beams_text (F := R) [ "beam 2"; "0 0 0"; "0 0 1"; "endbeam" ]%string.
Proof.
  apply (header_discards_open_block parser_init []
           [ "0 0 0"; "0 0 1"; "endbeam" ]%string
           "beam 1"%string "beam 2"%string 1 2
           [coord_R "0 0 0" "0" "0" "0"; coord_R "1 0 0" "1" "0" "0"]).
  - prove_header.
  - prove_coords.
  - prove_header.
Defined.

(** C4, as stated, fails: inside a block the line [1 2 3 4] has four
    tokens, not exactly three, and the parser accepts it, keeping the
    first three. *)
Lemma four_token_line_accepted :
  is_point_line "1 2 3 4"%string
  /\ length (split (strip "1 2 3 4"%string)) = 4%nat
  /\ read_beams_text (F := R) [ "beam 7"; "1 2 3 4"; "endbeam" ]%string
     = Ok [ mk_Beam 7 (mk_ndarray [1; 3]%nat
                         [real_literal "1"; real_literal "2"; real_literal "3"]) ].
Proof.
  split; [ prove_point_line | ]. split; vm_compute; reflexivity.
Qed.

Lemma point_line_outcome_witness :
  aborts_with (F := R) [ "beam 7"; "1.0 2.0"; "endbeam" ]%string
    (BadPointLine "1.0 2.0"%string).
Proof.
  assert (Hpre : parse_lines (F := R) parser_init [ "beam 7" ]%string
                 = Ok (mk_pstate [] (Some 7%Z) [])) by reflexivity.
  assert (Hpl : is_point_line "1.0 2.0"%string) by prove_point_line.
  exact (point_line_outcome [ "beam 7" ]%string [ "endbeam" ]%string
           (mk_pstate [] (Some 7%Z) []) "1.0 2.0"%string Hpre Hpl).
Defined.

(** A non-numeric coordinate aborts the run with the conversion error of
    the token. *)
Example non_numeric_token_aborts :
  aborts_with (F := R) [ "beam 7"; "1.0 abc 2.0"; "endbeam" ]%string
    (FloatLiteralError "abc"%string).
Proof. apply main_parse_error. reflexivity. Qed.

(** ** The batch padder *)

Section PadderFacts.
Context {F : Type} `{PyFloat F}.
Implicit Types (b : Beam F) (bs : list (Beam F)).

Lemma size0_well_shaped b : well_shaped b -> size0 b = Ok (beam_count b).
Proof.
  intros [Hs _]. unfold size0. rewrite Hs. reflexivity.
Qed.

Lemma rmap_size0 bs :
  Forall well_shaped bs -> rmap size0 bs = Ok (map beam_count bs).
Proof.
  induction 1 as [|b bs Hb _ IH]; simpl; [reflexivity|].
  rewrite (size0_well_shaped b Hb). simpl. rewrite IH. reflexivity.
Qed.

Lemma length_padded_row T b :
  well_shaped b -> length (padded_row T b) = (T * 3)%nat.
Proof.
  intros [_ Hd]. unfold padded_row.
  destruct (Nat.leb_spec T (beam_count b)).
  - rewrite length_take. lia.
  - rewrite length_app, length_replicate. lia.
Qed.

Lemma length_mask_row T b : length (mask_row T b) = T.
Proof.
  unfold mask_row. destruct (Nat.leb_spec T (beam_count b)).
  - apply length_replicate.
  - rewrite length_app, !length_replicate. lia.
Qed.

(** One slice assignment into a buffer whose next row is still blank. *)
Lemma inserts_blank_row {A} (z : A) (pre vals rest : list A) (w k : nat) :
  length vals <= w ->
  list_inserts (length pre) vals (pre ++ replicate w z ++ rest)
  = pre ++ vals ++ replicate (w - length vals) z ++ rest.
Proof.
  intros Hle.
  replace (length pre) with (length pre + 0)%nat by lia.
  rewrite list_inserts_app_r. f_equal.
  replace w with (length vals + (w - length vals))%nat at 1 by lia.
  rewrite replicate_add, <- app_assoc.
  rewrite list_inserts_0_r by (rewrite length_replicate; reflexivity).
  reflexivity.
Qed.

Lemma pad_row_blank T i b (shx shm : list nat) (prex restx : list F)
    (prem restm : list bool) :
  well_shaped b ->
  length prex = (i * (T * 3))%nat -> length prem = (i * T)%nat ->
  pad_row T i b
    (mk_ndarray shx (prex ++ replicate (T * 3) f0 ++ restx),
     mk_ndarray shm (prem ++ replicate T false ++ restm))
  = Ok (mk_ndarray shx (prex ++ padded_row T b ++ restx),
        mk_ndarray shm (prem ++ mask_row T b ++ restm)).
Proof.
  intros [Hs Hd] Hpx Hpm. unfold pad_row, padded_row, mask_row. rewrite Hs.
  cbn [fst snd shape data]. rewrite <- Hpx, <- Hpm.
  destruct (Nat.leb_spec T (beam_count b)) as [Hle|Hlt].
  - rewrite (inserts_blank_row f0 prex _ restx (T * 3) 0)
      by (rewrite length_take; lia).
    rewrite (inserts_blank_row false prem _ restm T 0)
      by (rewrite length_replicate; lia).
    rewrite length_take, length_replicate.
    replace (T * 3 - (T * 3) `min` length (data (points b)))%nat with 0%nat by lia.
    replace (T - T)%nat with 0%nat by lia. reflexivity.
  - rewrite (inserts_blank_row f0 prex _ restx (T * 3) 0) by lia.
    rewrite (inserts_blank_row false prem _ restm T 0)
      by (rewrite length_replicate; lia).
    rewrite length_replicate, Hd.
    replace (T * 3 - beam_count b * 3)%nat with ((T - beam_count b) * 3)%nat by lia.
    rewrite <- !app_assoc. reflexivity.
Qed.

(** The loop fills the blank rows one after the other. *)
Lemma pad_loop_blank T bs : forall i (shx shm : list nat) (prex : list F)
    (prem : list bool),
  Forall well_shaped bs ->
  length prex = (i * (T * 3))%nat -> length prem = (i * T)%nat ->
  pad_loop T i bs
    (mk_ndarray shx (prex ++ replicate (length bs * (T * 3)) f0),
     mk_ndarray shm (prem ++ replicate (length bs * T) false))
  = Ok (mk_ndarray shx (prex ++ concat (map (padded_row T) bs)),
        mk_ndarray shm (prem ++ concat (map (mask_row T) bs))).
Proof.
  induction bs as [|b bs IH]; intros i shx shm prex prem Hbs Hpx Hpm.
  - reflexivity.
  - inversion Hbs as [|? ? Hb Hbs']; subst.
    cbn [pad_loop length map concat].
    replace (S (length bs) * (T * 3))%nat
      with (T * 3 + length bs * (T * 3))%nat by lia.
    replace (S (length bs) * T)%nat with (T + length bs * T)%nat by lia.
    rewrite !replicate_add.
    rewrite (pad_row_blank T i b shx shm prex _ prem _ Hb Hpx Hpm).
    cbn [rbind].
    rewrite (app_assoc prex), (app_assoc prem).
    rewrite IH; auto.
    + rewrite <- !app_assoc. reflexivity.
    + rewrite length_app, (length_padded_row T b Hb). lia.
    + rewrite length_app, length_mask_row. lia.
Qed.

(** [pad_points] in closed form. *)
Lemma pad_points_closed bs :
  bs <> [] -> Forall well_shaped bs ->
  pad_points bs None
  = Ok (mk_ndarray [length bs; max_list (map beam_count bs); 3%nat]
          (concat (map (padded_row (max_list (map beam_count bs))) bs)),
        mk_ndarray [length bs; max_list (map beam_count bs)]
          (concat (map (mask_row (max_list (map beam_count bs))) bs)),
        map beam_count bs).
Proof.
  intros Hne Hbs. unfold pad_points. rewrite (rmap_size0 bs Hbs). cbn [rbind].
  destruct (map beam_count bs) as [|n ns] eqn:Hsz.
  { destruct bs; [contradiction | discriminate]. }
  cbn [rbind]. rewrite <- Hsz. set (T := max_list (map beam_count bs)).
  unfold np_zeros, prod_list. cbn [fold_right].
  replace (length bs * (T * (3 * 1)))%nat with (length bs * (T * 3))%nat by lia.
  replace (length bs * (T * 1))%nat with (length bs * T)%nat by lia.
  rewrite (pad_loop_blank T bs 0 _ _ [] [] Hbs) by reflexivity.
  reflexivity.
Qed.

(** Rows of a concatenation of rows of equal width. *)
Lemma row_of_concat {A} (w : nat) (rows : list (list A)) : forall i r,
  Forall (fun r => length r = w) rows ->
  rows !! i = Some r ->
  take w (drop (i * w) (concat rows)) = r.
Proof.
  induction rows as [|r0 rows IH]; intros i r Hall Hi; [discriminate|].
  apply Forall_cons in Hall as [Hr0 Hall'].
  destruct i as [|i].
  - injection Hi as ->. cbn [Nat.mul concat drop].
    apply take_app_length'. symmetry; exact Hr0.
  - cbn [lookup] in Hi. cbn [concat].
    replace (S i * w)%nat with (length r0 + i * w)%nat by (rewrite Hr0; lia).
    rewrite drop_app_add. apply IH; auto.
Qed.

Lemma reshape_concat {A} (w : nat) (rows : list (list A)) :
  Forall (fun r => length r = w) rows ->
  reshape (replicate (length rows) w) (concat rows) = rows.
Proof.
  induction 1 as [|r rows Hr _ IH]; [reflexivity|].
  cbn [length replicate reshape concat].
  rewrite (take_app_length' r _ w (eq_sym Hr)), (drop_app_length' r _ w (eq_sym Hr)), IH.
  reflexivity.
Qed.

End PadderFacts.

Section PadderClaims.
Context {F : Type} `{PyFloat F}.
Implicit Types (b : Beam F) (bs : list (Beam F)).

Lemma padded_rows_width T bs :
  Forall well_shaped bs ->
  Forall (fun r => length r = (T * 3)%nat) (map (padded_row T) bs).
Proof.
  intros Hbs. apply Forall_map. eapply Forall_impl; [exact Hbs|].
  intros b Hb. apply length_padded_row, Hb.
Qed.

Lemma mask_rows_width T bs :
  Forall (fun r => length r = T) (map (mask_row T) bs).
Proof.
  apply Forall_map. apply Forall_forall. intros b _. apply length_mask_row.
Qed.

(** C5: for a non-empty list of beams and no explicit [target_n], the
    padder takes the largest point count as [target_n] and returns [x] of
    shape (B, target_n, 3) and [mask] of shape (B, target_n); row [i] of
    [x] holds the first [target_n] points of beam [i] when it has that
    many, with a mask row that is all true, and else all its points
    followed by zeros, with exactly the first [count] mask entries true. *)
Theorem pad_points_spec bs :
  bs <> [] ->
  Forall well_shaped bs ->
  exists x mask,
    pad_points bs None = Ok (x, mask, map beam_count bs)
    /\ shape x = [length bs; max_list (map beam_count bs); 3%nat]
    /\ shape mask = [length bs; max_list (map beam_count bs)]
    /\ forall i b, bs !! i = Some b ->
         let T := max_list (map beam_count bs) in
         if (T <=? beam_count b)%nat then
           row x i = take (T * 3) (data (points b))
           /\ row mask i = replicate T true
         else
           row x i = data (points b) ++ replicate ((T - beam_count b) * 3) f0
           /\ row mask i = replicate (beam_count b) true
                           ++ replicate (T - beam_count b) false.
Proof.
  intros Hne Hbs. eexists _, _.
  split; [apply (pad_points_closed bs Hne Hbs)|].
  split; [reflexivity|]. split; [reflexivity|].
  intros i b Hi. cbv zeta. unfold row. cbn [shape data tail prod_list fold_right].
  set (T := max_list (map beam_count bs)).
  rewrite !Nat.mul_1_r.
  rewrite (row_of_concat (T * 3) _ i (padded_row T b));
    [ | apply padded_rows_width, Hbs | rewrite list_lookup_fmap, Hi; reflexivity ].
  rewrite (row_of_concat T _ i (mask_row T b));
    [ | apply mask_rows_width | rewrite list_lookup_fmap, Hi; reflexivity ].
  unfold padded_row, mask_row.
  destruct (T <=? beam_count b)%nat; split; reflexivity.
Qed.

End PadderClaims.

(** ** The shape contract of [forward] *)

Section ForwardShape.
Context {F : Type} `{PyFloat F}.
Implicit Types (m : state_dict F) (x : ndarray F) (bs : list (Beam F)).

Lemma forward_shape_error m x :
  (exists shp, forward m x = Err (InputShapeError shp))
  <-> (ndim x <> 3%nat \/ List.last (shape x) 0%nat <> 3%nat).
Proof.
  unfold forward.
  destruct (negb (ndim x =? 3)%nat || negb (List.last (shape x) 0%nat =? 3)%nat)
    eqn:Hb.
  - split; [intros _ | eauto].
    apply orb_true_iff in Hb. rewrite !negb_true_iff, !Nat.eqb_neq in Hb.
    exact Hb.
  - apply orb_false_iff in Hb as [H1 H2].
    rewrite negb_false_iff, Nat.eqb_eq in H1, H2.
    split.
    + intros [shp Hs]. destruct (nth 1 (shape x) 0%nat =? 0)%nat; discriminate.
    + intros [Hn|Hn]; contradiction.
Qed.

(** C8: [forward] raises its shape error exactly when the input is not of
    rank 3 or its last dimension is not 3; the array that the padder
    builds from a non-empty list of beams with points of shape (n, 3) has
    rank 3 and last dimension 3, so [forward] never raises it in the
    pipeline. *)
Theorem forward_shape_contract :
  (forall m x,
     (exists shp, forward m x = Err (InputShapeError shp))
     <-> (ndim x <> 3%nat \/ List.last (shape x) 0%nat <> 3%nat))
  /\ (forall bs, bs <> [] -> Forall well_shaped bs ->
        exists x mask sizes,
          pad_points bs None = Ok (x, mask, sizes)
          /\ ndim x = 3%nat /\ List.last (shape x) 0%nat = 3%nat
          /\ forall m shp, forward m x <> Err (InputShapeError shp)).
Proof.
  split; [apply forward_shape_error|].
  intros bs Hne Hbs. eexists _, _, _.
  split; [apply (pad_points_closed bs Hne Hbs)|].
  split; [reflexivity|]. split; [reflexivity|].
  intros m shp Hs.
  assert (Hex : exists s, forward m
     (mk_ndarray [length bs; max_list (map beam_count bs); 3%nat]
        (concat (map (padded_row (max_list (map beam_count bs))) bs)))
     = Err (InputShapeError s)) by eauto.
  apply forward_shape_error in Hex. cbn in Hex. destruct Hex; congruence.
Qed.

End ForwardShape.

(** ** One mini-batch *)

Section BatchFacts.
Context {F : Type} `{PyFloat F}.
Implicit Types (m : state_dict F) (b : Beam F) (bs : list (Beam F)).

Lemma max_list_ge_1 bs :
  bs <> [] -> Forall parsed_beam bs -> (1 <= max_list (map beam_count bs))%nat.
Proof.
  intros Hne Hbs. destruct bs as [|b bs]; [contradiction|].
  apply Forall_cons in Hbs as [[_ Hb] _]. simpl. lia.
Qed.

Lemma parsed_well_shaped bs : Forall parsed_beam bs -> Forall well_shaped bs.
Proof.
  intros Hbs. eapply Forall_impl; [exact Hbs|]. intros b [Hb _]. exact Hb.
Qed.

(** The clouds that [forward] sees in the padded array are the padded rows. *)
Lemma clouds_of_padded T bs :
  Forall well_shaped bs ->
  clouds_of (length bs) T (concat (map (padded_row T) bs))
  = map (fun b => reshape (replicate T 3%nat) (padded_row T b)) bs.
Proof.
  intros Hbs. unfold clouds_of.
  rewrite <- (length_map (padded_row T) bs).
  rewrite (reshape_concat (T * 3)) by (apply padded_rows_width, Hbs).
  rewrite map_map. reflexivity.
Qed.

(** Row [length pre + i] of the outputs is read for the beam at position [i]. *)
Lemma collect_from {A} (g : A -> list F * list F) (ids : A -> Z) (l : list A) :
  forall (pre : list A),
  rmap (fun ib : nat * A =>
          let* ci := index (map snd (map g (pre ++ l))) (fst ib) in
          let* vi := index (map fst (map g (pre ++ l))) (fst ib) in
          Ok (mk_pred (ids (snd ib)) ci vi f0 f0))
       (imap (fun i a => ((length pre + i)%nat, a)) l)
  = Ok (map (fun a => mk_pred (ids a) (snd (g a)) (fst (g a)) f0 f0) l).
Proof.
  induction l as [|a l IH]; intros pre; [reflexivity|].
  cbn [imap rmap fst snd]. unfold index at 1 2.
  rewrite !list_lookup_fmap, Nat.add_0_r, list_lookup_middle by reflexivity.
  cbn [fmap option_fmap option_map rbind].
  specialize (IH (pre ++ [a])). rewrite <- app_assoc in IH. cbn [app] in IH.
  erewrite imap_ext; [rewrite IH; reflexivity|].
  intros i x _. cbn. rewrite length_app. cbn. f_equal. lia.
Qed.

Lemma collect_spec m T bs :
  collect bs
    (map fst (map (forward_cloud m)
       (map (fun b => reshape (replicate T 3%nat) (padded_row T b)) bs)))
    (map snd (map (forward_cloud m)
       (map (fun b => reshape (replicate T 3%nat) (padded_row T b)) bs)))
  = Ok (map (predict_at m T) bs).
Proof.
  unfold collect. rewrite !map_map.
  pose proof (collect_from
    (fun b => forward_cloud m (reshape (replicate T 3%nat) (padded_row T b)))
    beam_id bs []) as Hc.
  cbn [app length Nat.add] in Hc. rewrite !map_map in Hc.
  exact Hc.
Qed.

(** The forward pass on the padded array of a mini-batch of parsed beams. *)
Lemma forward_padded m bs :
  bs <> [] -> Forall parsed_beam bs ->
  forward m
    (mk_ndarray [length bs; max_list (map beam_count bs); 3%nat]
       (concat (map (padded_row (max_list (map beam_count bs))) bs)))
  = Ok (map fst (map (forward_cloud m)
          (map (fun b => reshape (replicate (max_list (map beam_count bs)) 3%nat)
                           (padded_row (max_list (map beam_count bs)) b)) bs)),
        map snd (map (forward_cloud m)
          (map (fun b => reshape (replicate (max_list (map beam_count bs)) 3%nat)
                           (padded_row (max_list (map beam_count bs)) b)) bs))).
Proof.
  intros Hne Hbs. pose proof (max_list_ge_1 bs Hne Hbs) as HT.
  unfold forward. cbn [ndim shape data length List.last nth negb orb Nat.eqb].
  destruct (Nat.eqb_spec (max_list (map beam_count bs)) 0) as [E|_]; [lia|].
  rewrite clouds_of_padded by (apply parsed_well_shaped, Hbs).
  reflexivity.
Qed.

End BatchFacts.

(** ** The loop over the mini-batches *)

Section LoopFacts.
Context {F : Type} `{PyFloat F}.
Implicit Types (m : state_dict F) (b : Beam F) (bms : list (Beam F)).

Lemma ceil_div_bounds (len s : nat) :
  (0 < s)%nat ->
  (len <= (len + s - 1) / s * s)%nat
  /\ (forall k, k < (len + s - 1) / s -> k * s < len)%nat.
Proof.
  intros Hs.
  pose proof (Nat.div_mod_eq (len + s - 1) s) as Hdm.
  pose proof (Nat.mod_upper_bound (len + s - 1) s ltac:(lia)) as Hr.
  split; [nia|]. intros k Hk. nia.
Qed.

Lemma py_range0_pos (len : nat) (step : Z) :
  (0 < step)%Z ->
  py_range0 len step
  = Ok (map (fun k => (k * Z.to_nat step)%nat)
          (seq 0 ((len + Z.to_nat step - 1) / Z.to_nat step))).
Proof.
  intros Hs. unfold py_range0.
  destruct (Z.eqb_spec step 0); [lia|].
  destruct (Z.ltb_spec step 0); [lia|]. reflexivity.
Qed.

Lemma py_range0_bound (len : nat) (step : Z) (starts : list nat) :
  (0 < step)%Z -> py_range0 len step = Ok starts ->
  Forall (fun st => (st < len)%nat) starts.
Proof.
  intros Hs Hr. rewrite (py_range0_pos len step Hs) in Hr. injection Hr as <-.
  apply Forall_forall. intros st Hin. apply list_elem_of_fmap in Hin as (k & -> & Hk).
  apply elem_of_seq in Hk.
  apply (ceil_div_bounds len (Z.to_nat step)); lia.
Qed.

(** The slices at the multiples of [s] cut the list into consecutive pieces. *)
Lemma slices_concat {A} (s : nat) : forall (n : nat) (l : list A),
  (0 < s)%nat -> (length l <= n * s)%nat ->
  concat (map (fun k => take s (drop (k * s) l)) (seq 0 n)) = l.
Proof.
  induction n as [|n IH]; intros l Hs Hl.
  - destruct l; [reflexivity | simpl in Hl; lia].
  - cbn [seq map concat]. rewrite <- fmap_S_seq, <- list_fmap_compose.
    cbn [Nat.mul drop].
    erewrite (list_fmap_ext _ (fun k => take s (drop (k * s) (drop s l)))).
    + rewrite IH; [apply take_drop | exact Hs |].
      rewrite length_drop. lia.
    + intros i k _. cbn. rewrite drop_drop. repeat f_equal; lia.
Qed.

Lemma batch_slice_parsed bms (bsz : Z) (st : nat) :
  Forall parsed_beam bms -> Forall parsed_beam (batch_slice bms st bsz).
Proof. intros Hb. unfold batch_slice. apply Forall_take, Forall_drop, Hb. Qed.

Lemma batch_slice_nonempty bms (bsz : Z) (st : nat) :
  (0 < bsz)%Z -> (st < length bms)%nat -> batch_slice bms st bsz <> [].
Proof.
  intros Hs Hst Hnil. apply (f_equal length) in Hnil.
  unfold batch_slice in Hnil. rewrite length_take, length_drop in Hnil.
  simpl in Hnil. lia.
Qed.

(** One turn of the loop on a mini-batch of parsed beams. *)
Lemma infer_loop_step m bms (bsz : Z) (st : nat) (rest : list nat)
    (results : list (prediction F)) (tr : list event) :
  Forall parsed_beam bms -> (0 < bsz)%Z -> (st < length bms)%nat ->
  infer_loop m bms bsz (st :: rest) results tr
  = infer_loop m bms bsz rest
      (results ++ batch_predictions m bms bsz st)
      (tr ++ [EvForward [length (batch_slice bms st bsz);
                         batch_target bms bsz st; 3%nat]]).
Proof.
  intros Hb Hs Hst. cbn [infer_loop].
  pose proof (batch_slice_nonempty bms bsz st Hs Hst) as Hne.
  pose proof (batch_slice_parsed bms bsz st Hb) as Hp.
  rewrite (pad_points_closed _ Hne (parsed_well_shaped _ Hp)).
  cbn [shape]. rewrite (forward_padded m _ Hne Hp), collect_spec.
  reflexivity.
Qed.

Lemma infer_loop_closed m bms (bsz : Z) (starts : list nat) :
  Forall parsed_beam bms -> (0 < bsz)%Z ->
  Forall (fun st => (st < length bms)%nat) starts ->
  forall results tr,
  infer_loop m bms bsz starts results tr
  = (tr ++ map (fun st => EvForward [length (batch_slice bms st bsz);
                                     batch_target bms bsz st; 3%nat]) starts,
     Ok (results ++ concat (map (batch_predictions m bms bsz) starts))).
Proof.
  intros Hb Hs Hst. induction Hst as [|st rest Hlt _ IH]; intros results tr.
  - cbn. rewrite !app_nil_r. reflexivity.
  - rewrite (infer_loop_step m bms bsz st rest results tr Hb Hs Hlt), IH.
    cbn [map concat]. rewrite <- !app_assoc. reflexivity.
Qed.

(** The predictions of a run, mini-batch by mini-batch. *)
Lemma infer_closed m bms (bsz : Z) :
  Forall parsed_beam bms -> (0 < bsz)%Z ->
  infer m bms bsz
  = Ok (concat (map (batch_predictions m bms bsz)
          (map (fun k => (k * Z.to_nat bsz)%nat)
             (seq 0 ((length bms + Z.to_nat bsz - 1) / Z.to_nat bsz))))).
Proof.
  intros Hb Hs. unfold infer.
  pose proof (py_range0_bound (length bms) bsz _ Hs (py_range0_pos _ _ Hs)) as Hst.
  rewrite (py_range0_pos _ _ Hs). cbn [rbind].
  rewrite (infer_loop_closed m bms bsz _ Hb Hs Hst). reflexivity.
Qed.

(** The slices of a run, put end to end, are the list of beams. *)
Lemma batch_slices_concat bms (bsz : Z) :
  (0 < bsz)%Z ->
  concat (map (fun st => batch_slice bms st bsz)
            (map (fun k => (k * Z.to_nat bsz)%nat)
               (seq 0 ((length bms + Z.to_nat bsz - 1) / Z.to_nat bsz))))
  = bms.
Proof.
  intros Hs. rewrite map_map. unfold batch_slice.
  apply slices_concat; [lia|].
  apply (ceil_div_bounds (length bms) (Z.to_nat bsz)). lia.
Qed.

End LoopFacts.

(** ** What the parser hands to the runner *)

Section MainFacts.
Context {F : Type} `{PyFloat F}.
Implicit Types (m : state_dict F) (b : Beam F) (bms : list (Beam F))
  (st : parser_state F).

Lemma length_concat_rows {A} (w : nat) (rows : list (list A)) :
  Forall (fun r => length r = w) rows ->
  length (concat rows) = (length rows * w)%nat.
Proof.
  induction 1 as [|r rows Hr _ IH]; [reflexivity|].
  cbn [concat length]. rewrite length_app, IH, Hr. lia.
Qed.

(** The beams emitted so far have points of shape (n, 3) with n >= 1, and
    the accumulator holds rows of three coordinates. *)
Lemma parse_line_invariant st raw st' :
  parse_line st raw = Ok st' ->
  Forall parsed_beam (beams st) /\ Forall (fun p => length p = 3%nat) (cur_pts st) ->
  Forall parsed_beam (beams st') /\ Forall (fun p => length p = 3%nat) (cur_pts st').
Proof.
  intros Hl [Hb Hp]. unfold parse_line in Hl.
  destruct (String.eqb (strip raw) ""); [injection Hl as <-; auto|].
  destruct (startswith (strip raw) "beam ").
  { destruct (length (split (strip raw)) <? 2)%nat; [discriminate|].
    destruct (py_int _); [|discriminate]. injection Hl as <-. cbn. auto. }
  destruct (String.eqb (strip raw) "endbeam").
  { destruct (cur_id st) as [i|]; [|injection Hl as <-; auto].
    destruct (cur_pts st) as [|p ps] eqn:Hpts; cbn in Hl.
    - injection Hl as <-. cbn. auto.
    - destruct (Nat.eqb_spec (length p) 3) as [E|E]; cbn in Hl; [|discriminate].
      injection Hl as <-. cbn [beams cur_pts]. split; [|constructor].
      apply Forall_app. split; [exact Hb|]. constructor; [|constructor].
      split; [|cbn; lia]. split; [cbn; rewrite E; reflexivity|].
      cbn [points data beam_count shape hd np_asarray].
      apply (length_concat_rows 3 (p :: ps) Hp). }
  destruct (length (split (strip raw)) <? 3)%nat; [discriminate|].
  unfold to_float in Hl.
  destruct (py_float _) as [x|]; [|discriminate].
  destruct (py_float _) as [y|]; [|discriminate].
  destruct (py_float _) as [z|]; [|discriminate].
  injection Hl as <-. cbn [beams cur_pts]. split; [exact Hb|].
  apply Forall_app. split; [exact Hp|]. constructor; [reflexivity|constructor].
Qed.

Lemma parse_lines_invariant (lines : list string) : forall st st',
  parse_lines st lines = Ok st' ->
  Forall parsed_beam (beams st) /\ Forall (fun p => length p = 3%nat) (cur_pts st) ->
  Forall parsed_beam (beams st') /\ Forall (fun p => length p = 3%nat) (cur_pts st').
Proof.
  induction lines as [|raw lines IH]; intros st st' Hl Hinv.
  - injection Hl as <-. exact Hinv.
  - cbn [parse_lines] in Hl. apply rbind_inv in Hl as (st1 & H1 & H2).
    eapply IH; [exact H2|]. eapply parse_line_invariant; eauto.
Qed.

Lemma read_beams_text_parsed (input : list string) bms :
  read_beams_text input = Ok bms -> Forall parsed_beam bms.
Proof.
  intros Hr. apply read_beams_text_inv in Hr as (st & Hst & <-).
  eapply (parse_lines_invariant input parser_init st Hst). split; constructor.
Qed.

(** ** The outputs have three entries *)

Lemma shapes_match_fc_out m :
  shapes_match m = true ->
  length (fc_out_weight m) = 6%nat /\ length (fc_out_bias m) = 6%nat.
Proof.
  unfold shapes_match. intros Hs.
  repeat (apply andb_prop in Hs as [Hs ?]).
  match goal with
  | Hw : matrix_has_shape 6 128 _ = true |- _ =>
      unfold matrix_has_shape in Hw; apply andb_prop in Hw as [Hw _];
      apply Nat.eqb_eq in Hw
  end.
  match goal with
  | Hb : (length (fc_out_bias m) =? 6)%nat = true |- _ => apply Nat.eqb_eq in Hb
  end.
  auto.
Qed.

Lemma length_head m (g : list F) :
  shapes_match m = true -> length (head m g) = 6%nat.
Proof.
  intros Hs. destruct (shapes_match_fc_out m Hs) as [Hw Hb].
  unfold head, linear. rewrite length_zip_with, length_map. lia.
Qed.

Lemma length_canonicalize (raw : list F) :
  length raw = 6%nat ->
  length (fst (canonicalize raw)) = 3%nat /\ length (snd (canonicalize raw)) = 3%nat.
Proof.
  intros Hr. unfold canonicalize, normalize. cbn [fst snd].
  rewrite length_zip_with, !length_map, !length_take, length_drop. lia.
Qed.

Lemma length_predict_at m T b :
  shapes_match m = true ->
  length (pred_c (predict_at m T b)) = 3%nat
  /\ length (pred_v (predict_at m T b)) = 3%nat.
Proof.
  intros Hs. unfold predict_at, forward_cloud. cbn [pred_c pred_v].
  destruct (length_canonicalize
              (head m (max_pool (map (point_features m)
                 (reshape (replicate T 3%nat) (padded_row T b))))))
    as [Hv Hc]; [apply length_head, Hs|]. auto.
Qed.

(** ** The writer *)

Lemma result_block_ok (r : prediction F) :
  length (pred_c r) = 3%nat -> length (pred_v r) = 3%nat ->
  result_block r = Ok (result_lines r).
Proof.
  destruct r as [i c v t1 t2]. cbn [pred_c pred_v]. intros Hc Hv.
  destruct c as [|c0 [|c1 [|c2 [|]]]]; try discriminate.
  destruct v as [|v0 [|v1 [|v2 [|]]]]; try discriminate.
  reflexivity.
Qed.

Lemma write_results_text_ok (results : list (prediction F)) :
  Forall (fun r => length (pred_c r) = 3%nat /\ length (pred_v r) = 3%nat) results ->
  write_results_text results = (concat (map result_lines results), Ok tt).
Proof.
  induction 1 as [|r results [Hc Hv] _ IH]; [reflexivity|].
  cbn [write_results_text map concat].
  rewrite (result_block_ok r Hc Hv), IH. reflexivity.
Qed.

End MainFacts.

(** ** The whole run *)

Section RunClaims.
Context {F : Type} `{PyFloat F}.
Implicit Types (m : state_dict F) (b : Beam F) (bms : list (Beam F)).

Lemma predictions_have_three m bms (bsz : Z) (starts : list nat) :
  shapes_match m = true ->
  Forall (fun r => length (pred_c r) = 3%nat /\ length (pred_v r) = 3%nat)
    (concat (map (batch_predictions m bms bsz) starts)).
Proof.
  intros Hs. apply Forall_concat, Forall_map, Forall_forall. intros st _.
  unfold batch_predictions. apply Forall_map, Forall_forall. intros b _.
  apply length_predict_at, Hs.
Qed.

Lemma batch_predictions_ids m bms (bsz : Z) (st : nat) :
  map pred_id (batch_predictions m bms bsz st)
  = map beam_id (batch_slice bms st bsz).
Proof. unfold batch_predictions. rewrite map_map. reflexivity. Qed.

Lemma concat_map_map {A B C} (f : B -> C) (g : A -> list B) (l : list A) :
  map f (concat (map g l)) = concat (map (fun a => map f (g a)) l).
Proof.
  induction l as [|a l IH]; [reflexivity|].
  cbn [map concat]. rewrite map_app, IH. reflexivity.
Qed.

(** A successful run, event by event. *)
Lemma main_closed (input : list string) (ckpt : state_dict F) (bsz : Z) bms :
  read_beams_text input = Ok bms ->
  bms <> [] ->
  shapes_match ckpt = true ->
  (0 < bsz)%Z ->
  exists results fwd,
    infer ckpt bms bsz = Ok results
    /\ main input ckpt bsz
       = ([EvReadInput; EvLoadCheckpoint] ++ fwd
          ++ [EvWriteOutput (concat (map result_lines results))], Ok tt).
Proof.
  intros Hr Hne Hs Hb.
  pose proof (read_beams_text_parsed input bms Hr) as Hp.
  pose proof (py_range0_bound (length bms) bsz _ Hb (py_range0_pos _ _ Hb)) as Hst.
  eexists _, _. split; [apply (infer_closed ckpt bms bsz Hp Hb)|].
  unfold main. rewrite Hr.
  destruct (Nat.eqb_spec (length bms) 0) as [E|_].
  { destruct bms; [contradiction | discriminate]. }
  unfold load_checkpoint. rewrite Hs, (py_range0_pos _ _ Hb).
  rewrite (infer_loop_closed ckpt bms bsz _ Hp Hb Hst).
  rewrite write_results_text_ok by (apply predictions_have_three, Hs).
  cbn [app]. reflexivity.
Qed.

(** C6 (amended): a run on a file with at least one surviving beam, a checkpoint of
    the model's shapes and a positive batch size writes one result block
    per beam, each with the id of its beam, in the order of the beams in
    the input whatever the batch size, and with [t1] and [t2] zero. *)
Theorem main_one_result_per_beam (input : list string) (ckpt : state_dict F)
    (bsz : Z) bms :
  read_beams_text input = Ok bms ->
  bms <> [] ->
  shapes_match ckpt = true ->
  (0 < bsz)%Z ->
  exists results fwd,
    main input ckpt bsz
    = ([EvReadInput; EvLoadCheckpoint] ++ fwd
       ++ [EvWriteOutput (concat (map result_lines results))], Ok tt)
    /\ map pred_id results = map beam_id bms
    /\ Forall (fun r => pred_t1 r = f0 /\ pred_t2 r = f0) results.
Proof.
  intros Hr Hne Hs Hb.
  pose proof (read_beams_text_parsed input bms Hr) as Hp.
  destruct (main_closed input ckpt bsz bms Hr Hne Hs Hb)
    as (results & fwd & Hinf & Hmain).
  exists results, fwd. split; [exact Hmain|].
  rewrite (infer_closed ckpt bms bsz Hp Hb) in Hinf. injection Hinf as <-.
  split.
  - rewrite concat_map_map.
    erewrite map_ext; [|intros st; apply batch_predictions_ids].
    rewrite <- (concat_map_map beam_id (fun st => batch_slice bms st bsz)).
    rewrite (batch_slices_concat bms bsz Hb). reflexivity.
  - apply Forall_concat, Forall_map, Forall_forall. intros st _.
    unfold batch_predictions. apply Forall_map, Forall_forall. intros b _.
    split; reflexivity.
Qed.

(** C7: when the input parses to no beam at all the run fails with the
    empty-input error right after reading: no checkpoint is loaded, no
    forward pass is run and no output file is written. *)
Theorem main_no_beams (input : list string) (ckpt : state_dict F) (bsz : Z) :
  read_beams_text input = Ok [] ->
  main input ckpt bsz = ([EvReadInput], Err NoBeamsError).
Proof. intros Hr. unfold main. rewrite Hr. reflexivity. Qed.

End RunClaims.

(** ** Batch size and padding *)

Section BatchSize.
Context {F : Type} `{PyFloat F}.
Implicit Types (m : state_dict F) (b : Beam F) (bms : list (Beam F)).

(** When no mini-batch mixes point counts, nothing is padded and every
    beam gets the prediction it gets alone. *)
Lemma infer_uniform m bms (bsz : Z) :
  Forall parsed_beam bms -> (0 < bsz)%Z -> uniform_batches bms bsz ->
  infer m bms bsz = Ok (map (own_prediction m) bms).
Proof.
  intros Hp Hb Hu. rewrite (infer_closed m bms bsz Hp Hb). f_equal.
  transitivity
    (map (own_prediction m)
       (concat (map (fun st => batch_slice bms st bsz)
          (map (fun k => (k * Z.to_nat bsz)%nat)
             (seq 0 ((length bms + Z.to_nat bsz - 1) / Z.to_nat bsz))))));
    [|rewrite (batch_slices_concat bms bsz Hb); reflexivity].
  rewrite concat_map_map, !map_map. f_equal.
  apply map_ext. intros k. unfold batch_predictions.
  apply Forall_fmap_ext, Forall_forall. intros b Hin.
  unfold own_prediction. rewrite (Hu k b Hin). reflexivity.
Qed.

(** With batch size 1 every mini-batch is a single beam. *)
Lemma uniform_batches_1 bms : uniform_batches bms 1.
Proof.
  intros k b Hin. unfold batch_target. revert Hin. unfold batch_slice.
  change (Z.to_nat 1) with 1%nat.
  destruct (drop (k * 1) bms) as [|b0 rest]; cbn [take].
  - intros Hin. apply elem_of_nil in Hin. contradiction.
  - rewrite take_0. intros Hin. apply list_elem_of_singleton in Hin as ->.
    cbn. lia.
Qed.

(** C2 (amended): a run with any positive batch size whose mini-batches
    do not mix beams of different point counts, in particular a run on
    beams that all have the same number of points, gives every beam the
    prediction of the run with batch size 1 and writes the same output
    file. *)
Theorem batch_size_invariance (input : list string) (ckpt : state_dict F)
    (bsz : Z) bms :
  read_beams_text input = Ok bms ->
  bms <> [] ->
  shapes_match ckpt = true ->
  (0 < bsz)%Z ->
  uniform_batches bms bsz ->
  infer ckpt bms bsz = infer ckpt bms 1
  /\ infer ckpt bms bsz = Ok (map (own_prediction ckpt) bms)
  /\ exists text fwd fwd1,
       main input ckpt bsz
       = ([EvReadInput; EvLoadCheckpoint] ++ fwd ++ [EvWriteOutput text], Ok tt)
       /\ main input ckpt 1
          = ([EvReadInput; EvLoadCheckpoint] ++ fwd1 ++ [EvWriteOutput text], Ok tt).
Proof.
  intros Hr Hne Hs Hb Hu.
  pose proof (read_beams_text_parsed input bms Hr) as Hp.
  pose proof (infer_uniform ckpt bms bsz Hp Hb Hu) as Hi.
  pose proof (infer_uniform ckpt bms 1 Hp ltac:(lia) (uniform_batches_1 bms)) as H1.
  split; [congruence|]. split; [exact Hi|].
  destruct (main_closed input ckpt bsz bms Hr Hne Hs Hb) as (r & fwd & Hri & Hm).
  destruct (main_closed input ckpt 1 bms Hr Hne Hs ltac:(lia)) as (r1 & fwd1 & Hr1 & Hm1).
  assert (r = r1) by congruence. subst r1.
  eauto.
Qed.

End BatchSize.

Section UniformCounts.
Context {F : Type} `{PyFloat F}.
Implicit Types (b : Beam F) (bms : list (Beam F)).

Lemma max_list_const (n : nat) (l : list nat) :
  l <> [] -> Forall (fun x => x = n) l -> max_list l = n.
Proof.
  intros Hne Hall. induction Hall as [|x l -> _ IH]; [contradiction|].
  change (max_list (n :: l)) with (n `max` max_list l).
  destruct l as [|y l]; [cbn; lia|]. rewrite IH by discriminate. lia.
Qed.

(** Beams that all have the same point count never mix counts in a
    mini-batch. *)
Lemma uniform_of_equal_counts bms (bsz : Z) (n : nat) :
  Forall (fun b => beam_count b = n) bms -> uniform_batches bms bsz.
Proof.
  intros Hall k b Hin. unfold batch_target.
  assert (Hs : Forall (fun b => beam_count b = n)
                 (batch_slice bms (k * Z.to_nat bsz) bsz)).
  { unfold batch_slice. apply Forall_take, Forall_drop, Hall. }
  rewrite (max_list_const n).
  - rewrite Forall_forall in Hs. apply Hs, Hin.
  - intros Hnil. apply fmap_nil_inv in Hnil. rewrite Hnil in Hin.
    apply elem_of_nil in Hin. contradiction.
  - apply Forall_map. exact Hs.
Qed.

End UniformCounts.

(** ** The output canonicalizer over the reals *)

Section CanonicalizeReal.
Open Scope R_scope.

Lemma eps_normalize_pos : 0 < eps_normalize (F := R).
Proof. cbn. apply Rinv_0_lt_compat. lra. Qed.

(** What [canonicalize] returns on six raw outputs. *)
Lemma canonicalize6 (a b c d e f : R) :
  canonicalize [a; b; c; d; e; f]
  = (let n := Rmax (vnorm [a; b; c]) eps_normalize in
     let v := [a / n; b / n; c / n] in
     let k := vdot [d; e; f] v in
     (v, [d - k * (a / n); e - k * (b / n); f - k * (c / n)])).
Proof. reflexivity. Qed.

End CanonicalizeReal.

(** ** Rounding errors

    Bounds on real numbers each of which is another up to the relative
    error [u]: the error analysis of the canonicalizer, whatever the float
    format. *)

Section RoundingBounds.
Open Scope R_scope.
Variable u : R.
Hypothesis Hu : 0 <= u <= / 100.

Lemma Rabs_le_both a b : Rabs a <= b -> - b <= a <= b.
Proof.
  intros Hab. pose proof (Rle_abs a). pose proof (Rle_abs (- a)) as Hn.
  rewrite Rabs_Ropp in Hn. lra.
Qed.

Lemma sqr_abs x : x * x = Rabs x * Rabs x.
Proof. unfold Rabs. destruct (Rcase_abs x); ring. Qed.

Lemma close_nonneg x y : 0 <= x -> close u x y -> x * (1 - u) <= y <= x * (1 + u).
Proof.
  unfold close. intros Hx Hc. rewrite (Rabs_right x) in Hc by lra.
  apply Rabs_le_both in Hc. lra.
Qed.

Lemma close_abs x y : close u x y -> Rabs x * (1 - u) <= Rabs y <= Rabs x * (1 + u).
Proof.
  unfold close. intros Hc.
  pose proof (Rabs_triang (y - x) x) as H1.
  pose proof (Rabs_triang (x - y) y) as H2.
  replace (y - x + x) with y in H1 by ring.
  replace (x - y + y) with x in H2 by ring.
  rewrite (Rabs_minus_sym x y) in H2. lra.
Qed.

Lemma close_sq x y : close u x y ->
  x * x * ((1 - u) * (1 - u)) <= y * y <= x * x * ((1 + u) * (1 + u)).
Proof.
  intros Hc. apply close_abs in Hc.
  pose proof (Rabs_pos x) as Hx. pose proof (Rabs_pos y) as Hy.
  rewrite (sqr_abs x), (sqr_abs y).
  set (A := Rabs x) in *. set (B := Rabs y) in *.
  assert (0 <= A * (1 - u)) by (apply Rmult_le_pos; lra).
  split.
  - replace (A * A * ((1 - u) * (1 - u))) with ((A * (1 - u)) * (A * (1 - u))) by ring.
    apply Rmult_le_compat; lra.
  - replace (A * A * ((1 + u) * (1 + u))) with ((A * (1 + u)) * (A * (1 + u))) by ring.
    apply Rmult_le_compat; lra.
Qed.

Lemma sum_bounds a1 a2 a3 p1 p2 p3 s0 s1 s2 :
  close u (a1 * a1) p1 -> close u (a2 * a2) p2 -> close u (a3 * a3) p3 ->
  close u (0 + p1) s0 -> close u (s0 + p2) s1 -> close u (s1 + p3) s2 ->
  let S := a1 * a1 + a2 * a2 + a3 * a3 in
  let L := 1 - u in let U := 1 + u in
  S * (L * L * L * L) <= s2 <= S * (U * U * U * U).
Proof.
  intros H1 H2 H3 H4 H5 H6 S L U.
  assert (HL : 0 <= L <= 1) by (unfold L; lra).
  assert (HU : 1 <= U) by (unfold U; lra).
  pose proof (Rle_0_sqr a1) as P1. pose proof (Rle_0_sqr a2) as P2.
  pose proof (Rle_0_sqr a3) as P3. unfold Rsqr in *.
  apply close_nonneg in H1; [|lra]. apply close_nonneg in H2; [|lra].
  apply close_nonneg in H3; [|lra]. fold L U in H1, H2, H3.
  assert (0 <= p1) by nra. assert (0 <= p2) by nra. assert (0 <= p3) by nra.
  apply close_nonneg in H4; [|lra]. fold L U in H4.
  assert (0 <= s0) by nra.
  apply close_nonneg in H5; [|lra]. fold L U in H5.
  assert (0 <= s1) by nra.
  apply close_nonneg in H6; [|lra]. fold L U in H6.
  set (A1 := a1 * a1) in *. set (A2 := a2 * a2) in *. set (A3 := a3 * a3) in *.
  assert (B0 : A1 * (L * L) <= s0 <= A1 * (U * U)) by (split; nra).
  assert (B1 : (A1 + A2) * (L * L * L) <= s1 <= (A1 + A2) * (U * U * U)).
  { assert (A2 * (L * L) <= A2 * L) by (apply Rmult_le_compat_l; nra).
    assert (A2 * U <= A2 * (U * U)) by (apply Rmult_le_compat_l; nra).
    split.
    - apply Rle_trans with ((s0 + p2) * L); [|lra].
      replace ((A1 + A2) * (L * L * L)) with ((A1 * (L * L) + A2 * (L * L)) * L) by ring.
      apply Rmult_le_compat_r; lra.
    - apply Rle_trans with ((s0 + p2) * U); [lra|].
      replace ((A1 + A2) * (U * U * U)) with ((A1 * (U * U) + A2 * (U * U)) * U) by ring.
      apply Rmult_le_compat_r; lra. }
  assert (0 <= L * L <= 1) by nra.
  assert (1 <= U * U) by nra.
  assert (A3 * (L * L * L) <= A3 * L).
  { apply Rmult_le_compat_l; [lra|]. nra. }
  assert (A3 * U <= A3 * (U * U * U)).
  { apply Rmult_le_compat_l; [lra|]. nra. }
  unfold S. fold A1 A2 A3. split.
  - apply Rle_trans with ((s1 + p3) * L); [|lra].
    replace ((A1 + A2 + A3) * (L * L * L * L))
      with (((A1 + A2) * (L * L * L) + A3 * (L * L * L)) * L) by ring.
    apply Rmult_le_compat_r; lra.
  - apply Rle_trans with ((s1 + p3) * U); [lra|].
    replace ((A1 + A2 + A3) * (U * U * U * U))
      with (((A1 + A2) * (U * U * U) + A3 * (U * U * U)) * U) by ring.
    apply Rmult_le_compat_r; lra.
Qed.

Lemma usq : 0 <= u * u <= u * / 100.
Proof.
  destruct Hu as [H1 H2].
  split; [apply Rmult_le_pos; lra | apply Rmult_le_compat_l; lra].
Qed.

Lemma poly_upper :
  (1 + u) * (1 + u)
  <= (1 + 9 * u) * ((1 - u) * (1 - u) * (1 - u) * (1 - u) * (1 - u) * (1 - u)).
Proof.
  pose proof usq as Hw. set (w := u * u) in *.
  assert (Hq : (1 - u) * (1 - u) = 1 - 2 * u + w) by (unfold w; ring).
  assert (H4 : 1 - 4 * u <= (1 - u) * (1 - u) * ((1 - u) * (1 - u))).
  { apply Rle_trans with ((1 - 2 * u) * (1 - 2 * u)).
    - replace ((1 - 2 * u) * (1 - 2 * u)) with (1 - 4 * u + 4 * w) by (unfold w; ring). lra.
    - rewrite Hq. apply Rmult_le_compat; lra. }
  assert (H6 : 1 - 6 * u
               <= (1 - u) * (1 - u) * (1 - u) * (1 - u) * (1 - u) * (1 - u)).
  { replace ((1 - u) * (1 - u) * (1 - u) * (1 - u) * (1 - u) * (1 - u))
      with ((1 - u) * (1 - u) * ((1 - u) * (1 - u)) * ((1 - u) * (1 - u))) by ring.
    apply Rle_trans with ((1 - 4 * u) * (1 - 2 * u)).
    - replace ((1 - 4 * u) * (1 - 2 * u)) with (1 - 6 * u + 8 * w) by (unfold w; ring). lra.
    - apply Rmult_le_compat; [lra | lra | exact H4 | rewrite Hq; lra]. }
  apply Rle_trans with ((1 + 9 * u) * (1 - 6 * u)).
  - replace ((1 + u) * (1 + u)) with (1 + 2 * u + w) by (unfold w; ring).
    replace ((1 + 9 * u) * (1 - 6 * u)) with (1 + 3 * u - 54 * w) by (unfold w; ring). lra.
  - apply Rmult_le_compat_l; lra.
Qed.

Lemma poly_lower :
  (1 - 8 * u) * ((1 + u) * (1 + u) * (1 + u) * (1 + u) * (1 + u) * (1 + u))
  <= (1 - u) * (1 - u).
Proof.
  pose proof usq as Hw. set (w := u * u) in *.
  assert (Huw : 0 <= u * w <= w * / 100).
  { split; [apply Rmult_le_pos; lra|]. rewrite (Rmult_comm u w).
    apply Rmult_le_compat_l; lra. }
  assert (Hww : 0 <= w * w <= w * / 10000).
  { split; [apply Rmult_le_pos; lra|]. apply Rmult_le_compat_l; lra. }
  assert (Hq2 : (1 + u) * (1 + u) * ((1 + u) * (1 + u)) <= 1 + 4 * u + 7 * w).
  { replace ((1 + u) * (1 + u) * ((1 + u) * (1 + u)))
      with (1 + 4 * u + 6 * w + 4 * (u * w) + w * w) by (unfold w; ring). lra. }
  assert (Hq : (1 + u) * (1 + u) = 1 + 2 * u + w) by (unfold w; ring).
  assert (Hq3 : (1 + u) * (1 + u) * (1 + u) * (1 + u) * (1 + u) * (1 + u)
                <= 1 + 6 * u + 17 * w).
  { replace ((1 + u) * (1 + u) * (1 + u) * (1 + u) * (1 + u) * (1 + u))
      with ((1 + u) * (1 + u) * ((1 + u) * (1 + u)) * ((1 + u) * (1 + u))) by ring.
    apply Rle_trans with ((1 + 4 * u + 7 * w) * ((1 + u) * (1 + u))).
    - apply Rmult_le_compat_r; [rewrite Hq; lra | exact Hq2].
    - rewrite Hq.
      replace ((1 + 4 * u + 7 * w) * (1 + 2 * u + w))
        with (1 + 6 * u + 16 * w + 18 * (u * w) + 7 * (w * w)) by (unfold w; ring).
      lra. }
  apply Rle_trans with ((1 - 8 * u) * (1 + 6 * u + 17 * w)).
  - apply Rmult_le_compat_l; lra.
  - replace ((1 - 8 * u) * (1 + 6 * u + 17 * w))
      with (1 - 2 * u - 31 * w - 136 * (u * w)) by (unfold w; ring).
    replace ((1 - u) * (1 - u)) with (1 - 2 * u + w) by (unfold w; ring). lra.
Qed.

Lemma direction_bounds a1 a2 a3 p1 p2 p3 s0 s1 s2 n v1 v2 v3 :
  close u (a1 * a1) p1 -> close u (a2 * a2) p2 -> close u (a3 * a3) p3 ->
  close u (0 + p1) s0 -> close u (s0 + p2) s1 -> close u (s1 + p3) s2 ->
  close u (sqrt s2) n -> 0 < n ->
  close u (a1 / n) v1 -> close u (a2 / n) v2 -> close u (a3 / n) v3 ->
  1 - 8 * u <= v1 * v1 + v2 * v2 + v3 * v3 <= 1 + 9 * u.
Proof.
  intros H1 H2 H3 H4 H5 H6 Hn Hpos Hv1 Hv2 Hv3.
  pose proof (sum_bounds _ _ _ _ _ _ _ _ _ H1 H2 H3 H4 H5 H6) as HS. cbv zeta in HS.
  set (S := a1 * a1 + a2 * a2 + a3 * a3) in *.
  set (L := 1 - u) in *. set (U := 1 + u) in *.
  assert (HL : 0 < L <= 1) by (unfold L; lra).
  assert (HU : 1 <= U) by (unfold U; lra).
  assert (HS0 : 0 <= S) by (unfold S; nra).
  assert (HL4 : 0 <= L * L * L * L) by nra.
  assert (Hs2 : 0 <= s2) by nra.
  apply close_sq in Hn. rewrite sqrt_sqrt in Hn by exact Hs2.
  fold L U in Hn.
  set (N2 := n * n) in *.
  assert (HN2 : 0 < N2) by (unfold N2; nra).
  assert (HL2 : 0 <= L * L) by nra.
  assert (HU2 : 0 <= U * U) by nra.
  assert (HNl : S * (L * L * L * L * L * L) <= N2).
  { apply Rle_trans with (s2 * (L * L)); [|lra].
    replace (S * (L * L * L * L * L * L)) with (S * (L * L * L * L) * (L * L)) by ring.
    apply Rmult_le_compat_r; lra. }
  assert (HNu : N2 <= S * (U * U * U * U * U * U)).
  { apply Rle_trans with (s2 * (U * U)); [lra|].
    replace (S * (U * U * U * U * U * U)) with (S * (U * U * U * U) * (U * U)) by ring.
    apply Rmult_le_compat_r; lra. }
  assert (Hsq : forall a v, close u (a / n) v ->
            a * a * (L * L) <= v * v * N2 <= a * a * (U * U)).
  { intros a v Hc. apply close_sq in Hc. fold L U in Hc.
    assert (Ha : a / n * (a / n) * N2 = a * a) by (unfold N2; field; lra).
    destruct Hc as [Hc1 Hc2]. split.
    - apply (Rmult_le_compat_r N2) in Hc1; [|lra].
      replace (a / n * (a / n) * (L * L) * N2) with (a / n * (a / n) * N2 * (L * L)) in Hc1 by ring.
      rewrite Ha in Hc1. exact Hc1.
    - apply (Rmult_le_compat_r N2) in Hc2; [|lra].
      replace (a / n * (a / n) * (U * U) * N2) with (a / n * (a / n) * N2 * (U * U)) in Hc2 by ring.
      rewrite Ha in Hc2. exact Hc2. }
  apply Hsq in Hv1, Hv2, Hv3.
  set (V2 := v1 * v1 + v2 * v2 + v3 * v3).
  assert (HV0 : 0 <= V2) by (unfold V2; nra).
  assert (HVN : S * (L * L) <= V2 * N2 <= S * (U * U)) by (unfold V2, S; lra).
  assert (HSpos : 0 < S).
  { destruct HS0 as [HS0|HS0]; [exact HS0|]. rewrite <- HS0 in HNu. lra. }
  pose proof poly_upper as PU. pose proof poly_lower as PL. fold L U in PU, PL.
  set (L6 := L * L * L * L * L * L) in *. set (U6 := U * U * U * U * U * U) in *.
  assert (HL6 : 0 < L6).
  { unfold L6. repeat apply Rmult_lt_0_compat; lra. }
  assert (HU6 : 0 < U6).
  { unfold U6. repeat apply Rmult_lt_0_compat; lra. }
  split.
  - (* V2 * U6 >= L^2 >= (1 - 8u) U6 *)
    apply (Rmult_le_reg_r U6); [exact HU6|].
    apply Rle_trans with (L * L); [exact PL|].
    apply (Rmult_le_reg_l S); [exact HSpos|].
    apply Rle_trans with (V2 * N2); [lra|].
    replace (S * (V2 * U6)) with (V2 * (S * U6)) by ring.
    apply Rmult_le_compat_l; lra.
  - apply (Rmult_le_reg_r L6); [exact HL6|].
    apply Rle_trans with (U * U); [|exact PU].
    apply (Rmult_le_reg_l S); [exact HSpos|].
    apply Rle_trans with (V2 * N2); [|lra].
    replace (S * (V2 * L6)) with (V2 * (S * L6)) by ring.
    apply Rmult_le_compat_l; lra.
Qed.

Lemma sqrt_near_one x : 1 - 8 * u <= x <= 1 + 9 * u -> Rabs (sqrt x - 1) <= 5 * u.
Proof.
  intros Hx. assert (H0 : 0 <= x) by lra.
  pose proof (sqrt_pos x) as Hs. pose proof (sqrt_sqrt x H0) as Hss.
  set (w := sqrt x) in *.
  apply Rabs_le. split.
  - destruct (Rle_lt_dec (1 - 5 * u) w) as [Hw|Hw]; [lra|]. exfalso.
    assert (w * w < (1 - 5 * u) * (1 - 5 * u)).
    { apply Rle_lt_trans with (w * (1 - 5 * u)).
      - apply Rmult_le_compat_l; lra.
      - apply Rmult_lt_compat_r; lra. }
    nra.
  - destruct (Rle_lt_dec w (1 + 5 * u)) as [Hw|Hw]; [lra|]. exfalso.
    assert ((1 + 5 * u) * (1 + 5 * u) < w * w).
    { apply Rlt_le_trans with (w * (1 + 5 * u)).
      - apply Rmult_lt_compat_r; lra.
      - apply Rmult_le_compat_l; lra. }
    nra.
Qed.

Lemma close_num x y : close u x y -> Rabs y <= 101 / 100 * Rabs x.
Proof.
  intros Hc. apply close_abs in Hc. pose proof (Rabs_pos x).
  assert (Rabs x * u <= Rabs x * / 100) by (apply Rmult_le_compat_l; lra). lra.
Qed.

Lemma close_err x y b : close u x y -> Rabs x <= b -> Rabs (y - x) <= u * b.
Proof.
  unfold close. intros Hc Hb. apply Rle_trans with (u * Rabs x); [exact Hc|].
  apply Rmult_le_compat_l; lra.
Qed.

Lemma abs_le_of_sq v V : v * v <= V -> V <= 1 + 9 * u -> Rabs v <= 21 / 20.
Proof.
  intros Hv HV. rewrite sqr_abs in Hv. pose proof (Rabs_pos v).
  destruct (Rle_lt_dec (Rabs v) (21 / 20)) as [Hle|Hlt]; [exact Hle|]. exfalso.
  assert (21 / 20 * (21 / 20) < Rabs v * Rabs v).
  { apply Rmult_le_0_lt_compat; lra. }
  lra.
Qed.

Lemma offset_residual C1 C2 C3 v1 v2 v3 q1 q2 q3 k0 k1 k r1 r2 r3 c1 c2 c3 :
  v1 * v1 + v2 * v2 + v3 * v3 <= 1 + 9 * u ->
  close u (C1 * v1) q1 -> close u (C2 * v2) q2 -> close u (C3 * v3) q3 ->
  close u (0 + q1) k0 -> close u (k0 + q2) k1 -> close u (k1 + q3) k ->
  close u (k * v1) r1 -> close u (k * v2) r2 -> close u (k * v3) r3 ->
  close u (C1 - r1) c1 -> close u (C2 - r2) c2 -> close u (C3 - r3) c3 ->
  Rabs (c1 * v1 + c2 * v2 + c3 * v3
        - (C1 * v1 + C2 * v2 + C3 * v3) * (1 - (v1 * v1 + v2 * v2 + v3 * v3)))
  <= 9 * u * (Rabs C1 + Rabs C2 + Rabs C3).
Proof.
  intros HV Hq1 Hq2 Hq3 Hk0 Hk1 Hk Hr1 Hr2 Hr3 Hc1 Hc2 Hc3.
  destruct Hu as [Hu0 Hu1].
  pose proof (Rle_0_sqr v1) as S1. pose proof (Rle_0_sqr v2) as S2.
  pose proof (Rle_0_sqr v3) as S3. unfold Rsqr in S1, S2, S3.
  assert (Ha1 : Rabs v1 <= 21 / 20) by (eapply abs_le_of_sq; [|exact HV]; lra).
  assert (Ha2 : Rabs v2 <= 21 / 20) by (eapply abs_le_of_sq; [|exact HV]; lra).
  assert (Ha3 : Rabs v3 <= 21 / 20) by (eapply abs_le_of_sq; [|exact HV]; lra).
  set (V2 := v1 * v1 + v2 * v2 + v3 * v3) in *.
  (* the sizes of the exact products *)
  pose proof (Rabs_pos C1) as PA1. pose proof (Rabs_pos C2) as PA2.
  pose proof (Rabs_pos C3) as PA3.
  pose proof (Rabs_pos v1) as Pa1. pose proof (Rabs_pos v2) as Pa2.
  pose proof (Rabs_pos v3) as Pa3.
  assert (HT1 : Rabs (C1 * v1) <= 21 / 20 * Rabs C1).
  { rewrite Rabs_mult, Rmult_comm. apply Rmult_le_compat_r; lra. }
  assert (HT2 : Rabs (C2 * v2) <= 21 / 20 * Rabs C2).
  { rewrite Rabs_mult, Rmult_comm. apply Rmult_le_compat_r; lra. }
  assert (HT3 : Rabs (C3 * v3) <= 21 / 20 * Rabs C3).
  { rewrite Rabs_mult, Rmult_comm. apply Rmult_le_compat_r; lra. }
  pose proof (Rabs_pos (C1 * v1)) as PT1. pose proof (Rabs_pos (C2 * v2)) as PT2.
  pose proof (Rabs_pos (C3 * v3)) as PT3.
  set (T1 := Rabs (C1 * v1)) in *. set (T2 := Rabs (C2 * v2)) in *.
  set (T3 := Rabs (C3 * v3)) in *.
  set (T := T1 + T2 + T3).
  (* the sizes of the computed dot product and of its partial sums *)
  rewrite Rplus_0_l in Hk0.
  pose proof (close_num _ _ Hq1) as Q1. pose proof (close_num _ _ Hq2) as Q2.
  pose proof (close_num _ _ Hq3) as Q3. fold T1 in Q1. fold T2 in Q2. fold T3 in Q3.
  pose proof (close_num _ _ Hk0) as K0.
  pose proof (close_num _ _ Hk1) as K1. pose proof (close_num _ _ Hk) as K.
  pose proof (Rabs_triang k0 q2) as B1. pose proof (Rabs_triang k1 q3) as B2.
  assert (HK : Rabs k <= 107 / 100 * T) by (unfold T; lra).
  (* the errors of the dot product *)
  assert (E1 : Rabs (q1 - C1 * v1) <= u * T1) by exact Hq1.
  assert (E2 : Rabs (q2 - C2 * v2) <= u * T2) by exact Hq2.
  assert (E3 : Rabs (q3 - C3 * v3) <= u * T3) by exact Hq3.
  assert (E4 : Rabs (k0 - q1) <= u * (101 / 100 * T1)).
  { apply close_err; [exact Hk0 | lra]. }
  assert (E5 : Rabs (k1 - (k0 + q2)) <= u * (103 / 100 * T1 + 101 / 100 * T2)).
  { apply close_err; [exact Hk1 | lra]. }
  assert (E6 : Rabs (k - (k1 + q3))
               <= u * (105 / 100 * T1 + 103 / 100 * T2 + 101 / 100 * T3)).
  { apply close_err; [exact Hk | lra]. }
  set (D := C1 * v1 + C2 * v2 + C3 * v3).
  assert (HD : Rabs D <= T).
  { unfold D, T, T1, T2, T3.
    eapply Rle_trans; [apply Rabs_triang|].
    apply Rplus_le_compat_r. apply Rabs_triang. }
  assert (HuT : 0 <= u * T1 /\ 0 <= u * T2 /\ 0 <= u * T3).
  { repeat split; apply Rmult_le_pos; lra. }
  assert (HDk : Rabs (D - k) <= 41 / 10 * (u * T)).
  { apply Rabs_le_both in E1, E2, E3, E4, E5, E6.
    unfold D, T. apply Rabs_le. split; lra. }
  (* the three parts of the residual *)
  assert (HV0 : 0 <= V2 <= 109 / 100) by (split; [unfold V2; lra | lra]).
  assert (G2 : Rabs ((D - k) * V2) <= 109 / 100 * (41 / 10 * (u * T))).
  { rewrite Rabs_mult, (Rabs_pos_eq V2) by lra.
    rewrite (Rmult_comm (109 / 100)).
    apply Rmult_le_compat; try apply Rabs_pos; lra. }
  assert (HkV : u * Rabs k * V2 <= 117 / 100 * (u * T)).
  { replace (117 / 100 * (u * T)) with (u * (117 / 100 * T)) by ring.
    rewrite Rmult_assoc. apply Rmult_le_compat_l; [lra|].
    apply Rle_trans with (107 / 100 * T * (109 / 100)); [|unfold T; lra].
    apply Rmult_le_compat; try apply Rabs_pos; lra. }
  assert (R3 : forall r v, close u (k * v) r ->
            Rabs ((r - k * v) * v) <= u * Rabs k * (v * v)).
  { intros r v Hr. unfold close in Hr. rewrite Rabs_mult in Hr.
    rewrite Rabs_mult, (sqr_abs v).
    apply Rle_trans with (u * (Rabs k * Rabs v) * Rabs v); [|right; ring].
    apply Rmult_le_compat_r; [apply Rabs_pos | exact Hr]. }
  assert (R4 : forall C r c v, close u (k * v) r -> close u (C - r) c ->
            Rabs ((c - (C - r)) * v)
            <= u * Rabs (C * v) + 101 / 100 * (u * Rabs k * (v * v))).
  { intros C r c v Hr Hc. pose proof (close_num _ _ Hr) as Hr'.
    rewrite Rabs_mult in Hr'.
    assert (Hb : Rabs (C - r) <= Rabs C + 101 / 100 * (Rabs k * Rabs v)).
    { unfold Rminus. eapply Rle_trans; [apply Rabs_triang|].
      rewrite Rabs_Ropp. lra. }
    pose proof (close_err _ _ _ Hc Hb) as He.
    rewrite !Rabs_mult, (sqr_abs v).
    apply Rle_trans
      with (u * (Rabs C + 101 / 100 * (Rabs k * Rabs v)) * Rabs v); [|right; ring].
    apply Rmult_le_compat_r; [apply Rabs_pos | exact He]. }
  pose proof (R3 _ _ Hr1) as X1. pose proof (R3 _ _ Hr2) as X2.
  pose proof (R3 _ _ Hr3) as X3.
  pose proof (R4 _ _ _ _ Hr1 Hc1) as Y1. pose proof (R4 _ _ _ _ Hr2 Hc2) as Y2.
  pose proof (R4 _ _ _ _ Hr3 Hc3) as Y3.
  fold T1 in Y1. fold T2 in Y2. fold T3 in Y3.
  assert (HkVs : u * Rabs k * (v1 * v1) + u * Rabs k * (v2 * v2)
                 + u * Rabs k * (v3 * v3) = u * Rabs k * V2) by (unfold V2; ring).
  assert (HTM : u * T <= 21 / 20 * (u * (Rabs C1 + Rabs C2 + Rabs C3))).
  { replace (21 / 20 * (u * (Rabs C1 + Rabs C2 + Rabs C3)))
      with (u * (21 / 20 * Rabs C1 + 21 / 20 * Rabs C2 + 21 / 20 * Rabs C3)) by ring.
    apply Rmult_le_compat_l; [lra | unfold T; lra]. }
  replace (c1 * v1 + c2 * v2 + c3 * v3 - D * (1 - V2))
    with ((D - k) * V2
          - ((r1 - k * v1) * v1 + (r2 - k * v2) * v2 + (r3 - k * v3) * v3)
          + ((c1 - (C1 - r1)) * v1 + (c2 - (C2 - r2)) * v2 + (c3 - (C3 - r3)) * v3))
    by (unfold D, V2; ring).
  set (g2 := (D - k) * V2) in *.
  set (x1 := (r1 - k * v1) * v1) in *. set (x2 := (r2 - k * v2) * v2) in *.
  set (x3 := (r3 - k * v3) * v3) in *.
  set (y1 := (c1 - (C1 - r1)) * v1) in *. set (y2 := (c2 - (C2 - r2)) * v2) in *.
  set (y3 := (c3 - (C3 - r3)) * v3) in *.
  set (kv1 := u * Rabs k * (v1 * v1)) in *. set (kv2 := u * Rabs k * (v2 * v2)) in *.
  set (kv3 := u * Rabs k * (v3 * v3)) in *. set (kV := u * Rabs k * V2) in *.
  set (uT := u * T) in *. set (uM := u * (Rabs C1 + Rabs C2 + Rabs C3)) in *.
  assert (HuTs : u * T1 + u * T2 + u * T3 = uT) by (unfold uT, T; ring).
  apply Rabs_le_both in G2, X1, X2, X3, Y1, Y2, Y3.
  replace (9 * u * (Rabs C1 + Rabs C2 + Rabs C3)) with (9 * uM) by (unfold uM; ring).
  clearbody g2 x1 x2 x3 y1 y2 y3 kv1 kv2 kv3 kV uT uM.
  apply Rabs_le. split; lra.
Qed.

Lemma offset_bound C1 C2 C3 v1 v2 v3 q1 q2 q3 k0 k1 k r1 r2 r3 c1 c2 c3 :
  1 - 8 * u <= v1 * v1 + v2 * v2 + v3 * v3 <= 1 + 9 * u ->
  close u (C1 * v1) q1 -> close u (C2 * v2) q2 -> close u (C3 * v3) q3 ->
  close u (0 + q1) k0 -> close u (k0 + q2) k1 -> close u (k1 + q3) k ->
  close u (k * v1) r1 -> close u (k * v2) r2 -> close u (k * v3) r3 ->
  close u (C1 - r1) c1 -> close u (C2 - r2) c2 -> close u (C3 - r3) c3 ->
  Rabs (c1 * v1 + c2 * v2 + c3 * v3) <= 20 * u * (Rabs C1 + Rabs C2 + Rabs C3).
Proof.
  intros HV Hq1 Hq2 Hq3 Hk0 Hk1 Hk Hr1 Hr2 Hr3 Hc1 Hc2 Hc3.
  pose proof (offset_residual _ _ _ _ _ _ _ _ _ _ _ _ _ _ _ _ _ _ (proj2 HV)
                Hq1 Hq2 Hq3 Hk0 Hk1 Hk Hr1 Hr2 Hr3 Hc1 Hc2 Hc3) as Hres.
  destruct Hu as [Hu0 Hu1].
  pose proof (Rle_0_sqr v1) as S1. pose proof (Rle_0_sqr v2) as S2.
  pose proof (Rle_0_sqr v3) as S3. unfold Rsqr in S1, S2, S3.
  assert (Ha1 : Rabs v1 <= 21 / 20) by (eapply abs_le_of_sq; [|exact (proj2 HV)]; lra).
  assert (Ha2 : Rabs v2 <= 21 / 20) by (eapply abs_le_of_sq; [|exact (proj2 HV)]; lra).
  assert (Ha3 : Rabs v3 <= 21 / 20) by (eapply abs_le_of_sq; [|exact (proj2 HV)]; lra).
  set (V2 := v1 * v1 + v2 * v2 + v3 * v3) in *.
  set (D := C1 * v1 + C2 * v2 + C3 * v3) in *.
  set (M := Rabs C1 + Rabs C2 + Rabs C3).
  pose proof (Rabs_pos C1) as PA1. pose proof (Rabs_pos C2) as PA2.
  pose proof (Rabs_pos C3) as PA3.
  assert (HD : Rabs D <= 21 / 20 * M).
  { unfold D, M.
    eapply Rle_trans; [apply Rabs_triang|].
    eapply Rle_trans; [apply Rplus_le_compat_r, Rabs_triang|].
    rewrite !Rabs_mult.
    assert (Rabs C1 * Rabs v1 <= Rabs C1 * (21 / 20)) by (apply Rmult_le_compat_l; lra).
    assert (Rabs C2 * Rabs v2 <= Rabs C2 * (21 / 20)) by (apply Rmult_le_compat_l; lra).
    assert (Rabs C3 * Rabs v3 <= Rabs C3 * (21 / 20)) by (apply Rmult_le_compat_l; lra).
    lra. }
  assert (G1 : Rabs (D * (1 - V2)) <= 189 / 20 * (u * M)).
  { rewrite Rabs_mult.
    assert (Rabs (1 - V2) <= 9 * u) by (apply Rabs_le; lra).
    apply Rle_trans with (21 / 20 * M * (9 * u)); [|lra].
    apply Rmult_le_compat; try apply Rabs_pos; lra. }
  replace (20 * u * M) with (20 * (u * M)) by ring.
  replace (9 * u * (Rabs C1 + Rabs C2 + Rabs C3)) with (9 * (u * M)) in Hres
    by (unfold M; ring).
  assert (0 <= u * M) by (apply Rmult_le_pos; unfold M; lra).
  apply Rabs_le_both in G1, Hres.
  set (g1 := D * (1 - V2)) in *. set (uM := u * M) in *.
  set (cv := c1 * v1 + c2 * v2 + c3 * v3) in *.
  clearbody g1 uM cv.
  apply Rabs_le. split; lra.
Qed.

(** The upper bound on the norm of the direction does not need the
    divisor to be the computed norm: any divisor above it will do. *)
Lemma direction_upper a1 a2 a3 p1 p2 p3 s0 s1 s2 n den v1 v2 v3 :
  close u (a1 * a1) p1 -> close u (a2 * a2) p2 -> close u (a3 * a3) p3 ->
  close u (0 + p1) s0 -> close u (s0 + p2) s1 -> close u (s1 + p3) s2 ->
  close u (sqrt s2) n -> 0 < den -> n <= den ->
  close u (a1 / den) v1 -> close u (a2 / den) v2 -> close u (a3 / den) v3 ->
  v1 * v1 + v2 * v2 + v3 * v3 <= 1 + 9 * u.
Proof.
  intros H1 H2 H3 H4 H5 H6 Hn Hpos Hle Hv1 Hv2 Hv3.
  pose proof (sum_bounds _ _ _ _ _ _ _ _ _ H1 H2 H3 H4 H5 H6) as HS. cbv zeta in HS.
  set (S := a1 * a1 + a2 * a2 + a3 * a3) in *.
  set (L := 1 - u) in *. set (U := 1 + u) in *.
  assert (HL : 0 < L <= 1) by (unfold L; lra).
  assert (HU : 1 <= U) by (unfold U; lra).
  assert (HS0 : 0 <= S) by (unfold S; nra).
  assert (HL4 : 0 <= L * L * L * L) by nra.
  assert (Hs2 : 0 <= s2) by nra.
  pose proof (close_nonneg _ _ (sqrt_pos s2) Hn) as Hn0. fold L U in Hn0.
  assert (Hn1 : 0 <= n).
  { apply Rle_trans with (sqrt s2 * L); [|lra].
    apply Rmult_le_pos; [apply sqrt_pos | lra]. }
  apply close_sq in Hn. rewrite sqrt_sqrt in Hn by exact Hs2.
  fold L U in Hn.
  assert (HL2 : 0 <= L * L) by nra.
  assert (HNl : S * (L * L * L * L * L * L) <= n * n).
  { apply Rle_trans with (s2 * (L * L)); [|lra].
    replace (S * (L * L * L * L * L * L)) with (S * (L * L * L * L) * (L * L)) by ring.
    apply Rmult_le_compat_r; lra. }
  set (N2 := den * den).
  assert (HN2 : 0 < N2) by (unfold N2; nra).
  assert (HnN : n * n <= N2) by (unfold N2; apply Rmult_le_compat; lra).
  assert (Hsq : forall a v, close u (a / den) v -> v * v * N2 <= a * a * (U * U)).
  { intros a v Hc. apply close_sq in Hc. fold L U in Hc.
    assert (Ha : a / den * (a / den) * N2 = a * a) by (unfold N2; field; lra).
    destruct Hc as [_ Hc2].
    apply (Rmult_le_compat_r N2) in Hc2; [|lra].
    replace (a / den * (a / den) * (U * U) * N2)
      with (a / den * (a / den) * N2 * (U * U)) in Hc2 by ring.
    rewrite Ha in Hc2. exact Hc2. }
  apply Hsq in Hv1, Hv2, Hv3.
  set (V2 := v1 * v1 + v2 * v2 + v3 * v3).
  assert (HV0 : 0 <= V2) by (unfold V2; nra).
  assert (HVN : V2 * N2 <= S * (U * U)) by (unfold V2, S; lra).
  destruct HS0 as [HSpos|HSz].
  - pose proof poly_upper as PU. fold L U in PU.
    set (L6 := L * L * L * L * L * L) in *.
    assert (HL6 : 0 < L6).
    { unfold L6. repeat apply Rmult_lt_0_compat; lra. }
    apply (Rmult_le_reg_r L6); [exact HL6|].
    apply Rle_trans with (U * U); [|exact PU].
    apply (Rmult_le_reg_l S); [exact HSpos|].
    apply Rle_trans with (V2 * N2); [|lra].
    replace (S * (V2 * L6)) with (V2 * (S * L6)) by ring.
    apply Rmult_le_compat_l; lra.
  - rewrite <- HSz in HVN. rewrite Rmult_0_l in HVN.
    assert (V2 <= 0).
    { apply (Rmult_le_reg_r N2); [exact HN2|]. lra. }
    destruct Hu. lra.
Qed.

Lemma sqrt_below_one x : 0 <= x <= 1 + 9 * u -> sqrt x <= 1 + 5 * u.
Proof.
  intros Hx. pose proof (sqrt_pos x) as Hs.
  pose proof (sqrt_sqrt x (proj1 Hx)) as Hss.
  set (w := sqrt x) in *. destruct Hu as [Hu0 Hu1].
  destruct (Rle_lt_dec w (1 + 5 * u)) as [Hw|Hw]; [exact Hw|]. exfalso.
  assert ((1 + 5 * u) * (1 + 5 * u) < w * w).
  { apply Rlt_le_trans with (w * (1 + 5 * u)).
    - apply Rmult_lt_compat_r; lra.
    - apply Rmult_le_compat_l; lra. }
  nra.
Qed.

(** A float is close to a square root as soon as it lies between bounds
    whose squares enclose the radicand. *)
Lemma close_sqrt x n lo hi :
  0 <= lo -> lo * lo <= x -> 0 <= hi -> x <= hi * hi ->
  n <= (1 + u) * lo -> (1 - u) * hi <= n ->
  close u (sqrt x) n.
Proof.
  intros Hlo Hlx Hhi Hxh Hn1 Hn2. destruct Hu as [Hu0 Hu1].
  assert (Hx : 0 <= x) by nra.
  pose proof (sqrt_pos x) as Hs. pose proof (sqrt_sqrt x Hx) as Hss.
  set (w := sqrt x) in *.
  assert (Hlw : lo <= w).
  { destruct (Rle_lt_dec lo w) as [Hle|Hlt]; [exact Hle|]. exfalso.
    assert (w * w < lo * lo).
    { apply Rle_lt_trans with (w * lo).
      - apply Rmult_le_compat_l; lra.
      - apply Rmult_lt_compat_r; lra. }
    lra. }
  assert (Hwh : w <= hi).
  { destruct (Rle_lt_dec w hi) as [Hle|Hlt]; [exact Hle|]. exfalso.
    assert (hi * hi < w * w).
    { apply Rle_lt_trans with (hi * w).
      - apply Rmult_le_compat_l; lra.
      - apply Rmult_lt_compat_r; lra. }
    lra. }
  assert ((1 + u) * lo <= (1 + u) * w) by (apply Rmult_le_compat_l; lra).
  assert ((1 - u) * w <= (1 - u) * hi) by (apply Rmult_le_compat_l; lra).
  unfold close. rewrite (Rabs_pos_eq w) by exact Hs.
  apply Rabs_le. split; lra.
Qed.

End RoundingBounds.

(** ** The output canonicalizer in floating point *)

(** The rounding hypotheses of a run on six raw outputs, one by one. *)
Ltac rounds_inv Hr :=
  unfold canonicalize_rounds, normalize, fsum in Hr;
  cbn [take drop map zip_with foldl sum_rounds] in Hr;
  destruct Hr as (Hf0 & Heps & Hsq & Hsum & Hsqrt & Hmax & Hdiv & Hprod
                  & Hdsum & Hmul & Hsub);
  apply Forall_cons in Hsq as [[_ Hs1] Hsq];
  apply Forall_cons in Hsq as [[_ Hs2] Hsq];
  apply Forall_cons in Hsq as [[_ Hs3] _];
  destruct Hsum as ([_ Ha0] & [_ Ha1] & [_ Ha2] & _);
  destruct Hsqrt as [_ Hsqrt];
  apply Forall_cons in Hdiv as [[_ Hd1] Hdiv];
  apply Forall_cons in Hdiv as [[_ Hd2] Hdiv];
  apply Forall_cons in Hdiv as [[_ Hd3] _];
  apply Forall2_cons in Hprod as [[_ Hp1] Hprod];
  apply Forall2_cons in Hprod as [[_ Hp2] Hprod];
  apply Forall2_cons in Hprod as [[_ Hp3] _];
  destruct Hdsum as ([_ Hk0] & [_ Hk1] & [_ Hk2] & _);
  apply Forall_cons in Hmul as [[_ Hm1] Hmul];
  apply Forall_cons in Hmul as [[_ Hm2] Hmul];
  apply Forall_cons in Hmul as [[_ Hm3] _];
  apply Forall2_cons in Hsub as [[_ Hb1] Hsub];
  apply Forall2_cons in Hsub as [[_ Hb2] Hsub];
  apply Forall2_cons in Hsub as [[_ Hb3] _];
  rewrite Hf0 in Ha0, Hk0.

Section CanonicalizeClaims.
Context {F : Type} `{PyFloat F}.
Variable val : F -> R.
Variable fin : F -> bool.
Variable u : R.
Open Scope R_scope.

Lemma real_norm3 (x y z : R) :
  real_norm [x; y; z] = sqrt (x * x + y * y + z * z).
Proof. unfold real_norm, real_dot. cbn. f_equal. ring. Qed.

Lemma real_dot3 (a b c x y z : R) :
  real_dot [a; b; c] [x; y; z] = a * x + b * y + c * z.
Proof. unfold real_dot. cbn. ring. Qed.

(** C1 (amended): on six raw outputs the canonicalizer computes, in
    floats, v = v_raw / max(|v_raw|, eps) and c = c_raw - (c_raw . v) v.
    When the clamp is active (the maximum is eps) the direction is
    v_raw / eps, entry by entry.  When the computed norm is at least eps
    and every operation of the run is finite and rounded with relative
    error at most u <= 1/100, the outputs, read as real numbers, satisfy
    | |v| - 1 | <= 5 u and |c . v| <= 20 u (|c_raw,1| + |c_raw,2| + |c_raw,3|):
    the orthogonality holds up to a tolerance that grows with the size
    of c_raw. *)
Theorem canonicalize_unit_orthogonal (a b c d e f : F) :
  let raw := [a; b; c; d; e; f] in
  let norm := vnorm [a; b; c] in
  let den := fmax norm eps_normalize in
  let v := fst (canonicalize raw) in
  let cc := snd (canonicalize raw) in
  let k := vdot [d; e; f] v in
  v = [fdiv a den; fdiv b den; fdiv c den]
  /\ cc = [fsub d (fmul k (fdiv a den)); fsub e (fmul k (fdiv b den));
           fsub f (fmul k (fdiv c den))]
  /\ (den = eps_normalize ->
      v = [fdiv a eps_normalize; fdiv b eps_normalize; fdiv c eps_normalize])
  /\ (0 <= u <= / 100 -> canonicalize_rounds val fin u raw ->
      val eps_normalize <= val norm ->
      Rabs (real_norm (map val v) - 1) <= 5 * u
      /\ Rabs (real_dot (map val cc) (map val v))
         <= 20 * u * abs_sum (map val [d; e; f])).
Proof.
  intros raw norm den v cc k.
  split; [reflexivity|]. split; [reflexivity|]. split.
  - intros Hden. change v with [fdiv a den; fdiv b den; fdiv c den].
    rewrite Hden. reflexivity.
  - intros Hu Hr Hge.
    unfold raw in Hr. rounds_inv Hr.
    change (val eps_normalize
            <= val (fsqrt (fadd (fadd (fadd f0 (fmul a a)) (fmul b b)) (fmul c c))))
      in Hge.
    rewrite Rmax_left in Hmax by exact Hge.
    rewrite Hmax in Hd1, Hd2, Hd3.
    pose proof (direction_bounds u Hu _ _ _ _ _ _ _ _ _ _ _ _ _
                  Hs1 Hs2 Hs3 Ha0 Ha1 Ha2 Hsqrt ltac:(lra) Hd1 Hd2 Hd3) as HV.
    split.
    + change v with [fdiv a den; fdiv b den; fdiv c den]. cbn [map].
      rewrite real_norm3. apply (sqrt_near_one u Hu). exact HV.
    + change v with [fdiv a den; fdiv b den; fdiv c den].
      change cc with [fsub d (fmul k (fdiv a den)); fsub e (fmul k (fdiv b den));
                      fsub f (fmul k (fdiv c den))].
      cbn [map]. rewrite real_dot3. unfold abs_sum. cbn [map fold_right].
      replace (Rabs (val d) + (Rabs (val e) + (Rabs (val f) + 0)))
        with (Rabs (val d) + Rabs (val e) + Rabs (val f)) by ring.
      exact (offset_bound u Hu _ _ _ _ _ _ _ _ _ _ _ _ _ _ _ _ _ _
               HV Hp1 Hp2 Hp3 Hk0 Hk1 Hk2 Hm1 Hm2 Hm3 Hb1 Hb2 Hb3).
Qed.

End CanonicalizeClaims.

(** *** binary32 *)

(** Evaluate the floats under [f32_val], then the powers of two. *)
Ltac f32_eval :=
  repeat match goal with
  | |- context [f32_val ?t] =>
      lazymatch t with
      | S754_finite _ _ _ => fail
      | S754_zero _ => fail
      | S754_infinity _ => fail
      | S754_nan => fail
      | _ => let t' := eval vm_compute in t in change (f32_val t) with (f32_val t')
      end
  end;
  cbn [f32_val];
  repeat match goal with
  | |- context [IZR ?z] =>
      lazymatch z with
      | Zpos _ => fail
      | Z0 => fail
      | Zneg _ => fail
      | _ => let z' := eval vm_compute in z in change (IZR z) with (IZR z')
      end
  end.

Ltac abs_num := unfold Rabs; repeat destruct Rcase_abs; lra.

Ltac f32_close := unfold close, u32; f32_eval; abs_num.

Section CanonicalizeBinary32.
Open Scope R_scope.

Lemma u32_range : 0 <= u32 <= / 100.
Proof. unfold u32. lra. Qed.

(** On the raw outputs (3, 4, 0, 1, 2, 3) every operation of the
    canonicalizer is within 2^-24 of the exact one: 3/5 and 4/5 are
    rounded, and so are the dot product and two of the subtractions. *)
Lemma raw_345_rounds : canonicalize_rounds f32_val f32_finite u32 raw_345.
Proof.
  unfold canonicalize_rounds, normalize, fsum, raw_345.
  cbn [take drop map zip_with foldl sum_rounds].
  split; [reflexivity|].
  split; [f32_eval; lra|].
  split; [repeat constructor; f32_close|].
  split; [repeat split; f32_close|].
  split.
  { split; [vm_compute; reflexivity|]. unfold close, u32. f32_eval.
    match goal with
    | |- context [sqrt ?x] =>
        replace (sqrt x) with 5 by (symmetry; apply sqrt_lem_1; lra)
    end.
    abs_num. }
  split.
  { f32_eval. rewrite Rmax_left by lra. lra. }
  split; [repeat constructor; f32_close|].
  split; [repeat constructor; f32_close|].
  split; [repeat split; f32_close|].
  split; [repeat constructor; f32_close|].
  repeat constructor; f32_close.
Qed.

Lemma raw_345_norm :
  f32_val eps_normalize
  <= f32_val (vnorm [f32_literal "3"; f32_literal "4"; f32_literal "0"]).
Proof. f32_eval. lra. Qed.

Lemma canonicalize_unit_orthogonal_witness :
  eps_normalize = f32_literal "1e-8"
  /\ map fmt6 (fst (canonicalize raw_345)) = ["0.600000"; "0.800000"; "0.000000"]%string
  /\ map fmt6 (snd (canonicalize raw_345)) = ["-0.320000"; "0.240000"; "3.000000"]%string
  /\ Rabs (real_norm (map f32_val (fst (canonicalize raw_345))) - 1) <= 5 * u32
  /\ Rabs (real_dot (map f32_val (snd (canonicalize raw_345)))
                    (map f32_val (fst (canonicalize raw_345))))
     <= 20 * u32 * abs_sum (map f32_val [f32_literal "1"; f32_literal "2";
                                         f32_literal "3"]).
Proof.
  split; [vm_compute; reflexivity|].
  split; [vm_compute; reflexivity|].
  split; [vm_compute; reflexivity|].
  exact (proj2 (proj2 (proj2
           (canonicalize_unit_orthogonal f32_val f32_finite u32
              (f32_literal "3") (f32_literal "4") (f32_literal "0")
              (f32_literal "1") (f32_literal "2") (f32_literal "3"))))
           u32_range raw_345_rounds raw_345_norm).
Defined.

(** C1, as stated, fails in three ways.  For the raw direction
    (0, 0, 0), of norm below eps, the direction returned is (0, 0, 0): its
    norm is 0, not 1.  For the raw direction (3e38, 3e38, 3e38) the
    squares overflow, the norm is infinite and the direction returned is
    again (0, 0, 0).  For the raw outputs (1, 1, 0, 1e6, 0, 0) the
    direction is normalised, but c . v is about 0.044, above the
    tolerance 1e-4. *)
Lemma canonicalize_not_unit_orthogonal :
  (vnorm (take 3 raw_zero_direction) = S754_zero false
   /\ fst (canonicalize raw_zero_direction)
      = [S754_zero false; S754_zero false; S754_zero false]
   /\ ~ Rabs (real_norm (map f32_val (fst (canonicalize raw_zero_direction))) - 1)
        < / 10000)
  /\ (vnorm (take 3 raw_overflow) = S754_infinity false
      /\ fst (canonicalize raw_overflow)
         = [S754_zero false; S754_zero false; S754_zero false]
      /\ ~ Rabs (real_norm (map f32_val (fst (canonicalize raw_overflow))) - 1)
           < / 10000)
  /\ (map fmt6 (fst (canonicalize raw_large_offset))
      = ["0.707107"; "0.707107"; "0.000000"]%string
      /\ map fmt6 (snd (canonicalize raw_large_offset))
         = ["500000.031250"; "-499999.968750"; "0.000000"]%string
      /\ ~ Rabs (real_dot (map f32_val (snd (canonicalize raw_large_offset)))
                          (map f32_val (fst (canonicalize raw_large_offset))))
           < / 10000).
Proof.
  assert (H0 : ~ Rabs (real_norm [0; 0; 0] - 1) < / 10000).
  { rewrite real_norm3. replace (0 * 0 + 0 * 0 + 0 * 0) with 0 by ring.
    rewrite sqrt_0. abs_num. }
  split; [|split].
  - split; [vm_compute; reflexivity|]. split; [vm_compute; reflexivity|].
    replace (fst (canonicalize raw_zero_direction))
      with [S754_zero false; S754_zero false; S754_zero false]
      by (vm_compute; reflexivity).
    exact H0.
  - split; [vm_compute; reflexivity|]. split; [vm_compute; reflexivity|].
    replace (fst (canonicalize raw_overflow))
      with [S754_zero false; S754_zero false; S754_zero false]
      by (vm_compute; reflexivity).
    exact H0.
  - split; [vm_compute; reflexivity|]. split; [vm_compute; reflexivity|].
    replace (canonicalize raw_large_offset)
      with ([S754_finite false 11863283 (-24); S754_finite false 11863283 (-24);
             S754_zero false],
            [S754_finite false 16000001 (-5); S754_finite true 15999999 (-5);
             S754_zero false])
      by (vm_compute; reflexivity).
    cbn [fst snd map]. rewrite real_dot3. f32_eval. abs_num.
Qed.

End CanonicalizeBinary32.

(** ** The padding-sensitive checkpoint, layer by layer *)

Section PaddingCheckpoint.
Open Scope R_scope.

Ltac rmax := unfold Rmax; repeat (destruct (Rle_dec _ _)); lra.

Lemma foldl_zero_row (n : nat) : forall (x : list R) (acc : R),
  foldl Rplus acc (zip_with Rmult (replicate n 0) x) = acc.
Proof.
  induction n as [|n IH]; intros x acc; [reflexivity|].
  destruct x as [|x0 x]; [reflexivity|]. cbn. rewrite IH. ring.
Qed.

Lemma dot_zero_row (n : nat) (x : list R) : dot (zero_row n) x = 0.
Proof. unfold dot, fsum, zero_row. apply foldl_zero_row. Qed.

Lemma dot_unit_row (n : nat) (t : R) (xs : list R) : dot (unit_row n) (t :: xs) = t.
Proof.
  unfold dot, fsum, unit_row. cbn. rewrite foldl_zero_row. ring.
Qed.

Lemma linear_zero_rows (k n : nat) (x : list R) :
  linear (replicate k (zero_row n)) x = replicate k 0.
Proof.
  unfold linear. induction k as [|k IH]; [reflexivity|].
  cbn [replicate map]. rewrite dot_zero_row, IH. reflexivity.
Qed.

Lemma linear_pick_first (r c : nat) (t : R) (xs : list R) :
  linear (pick_first r c) (t :: xs) = t :: replicate (r - 1) 0.
Proof.
  unfold pick_first. change (linear (?w :: ?W) ?x) with (dot w x :: linear W x).
  rewrite dot_unit_row, linear_zero_rows. reflexivity.
Qed.

Lemma bn_unit_variance : sqrt (1 - / 100000 + eps_bn) = 1.
Proof.
  replace (1 - / 100000 + eps_bn) with 1 by (cbn; lra). apply sqrt_1.
Qed.

(** A normalization with mean 0, variance 1 - eps, weight 1 and bias 0
    changes nothing. *)
Lemma bn_channels_identity (x : list R) : forall n : nat,
  (length x <= n)%nat ->
  bn_channels x (replicate n 0) (replicate n (1 - / 100000)) (replicate n 1)
    (replicate n 0) = x.
Proof.
  induction x as [|x0 x IH]; intros n Hn; [destruct n; reflexivity|].
  destruct n as [|n]; [simpl in Hn; lia|].
  cbn [replicate bn_channels]. rewrite IH by (simpl in Hn; lia).
  f_equal. cbn [fadd fmul fdiv fsub fsqrt R_float].
  rewrite bn_unit_variance. field.
Qed.

Lemma batchnorm_identity (n : nat) (x : list R) :
  (length x <= n)%nat -> batchnorm (bn_identity n) x = x.
Proof. intros Hn. unfold batchnorm, bn_identity. cbn. apply bn_channels_identity, Hn. Qed.

Lemma relu_zeros (k : nat) : relu (replicate k 0) = replicate k 0.
Proof.
  unfold relu. induction k as [|k IH]; [reflexivity|].
  cbn [replicate map]. rewrite IH. f_equal. cbn. rmax.
Qed.

Lemma relu_first (t : R) (k : nat) :
  0 <= t -> relu (t :: replicate k 0) = t :: replicate k 0.
Proof.
  intros Ht. change (relu (t :: replicate k 0)) with (fmax t f0 :: relu (replicate k 0)).
  rewrite relu_zeros. f_equal. cbn. rmax.
Qed.

(** A stage that keeps a non-negative first channel and nothing else. *)
Lemma stage_pick_first (r c : nat) (t : R) (xs : list R) :
  (1 <= r)%nat -> 0 <= t ->
  relu (batchnorm (bn_identity r) (linear (pick_first r c) (t :: xs)))
  = t :: replicate (r - 1) 0.
Proof.
  intros Hr Ht. rewrite linear_pick_first.
  rewrite batchnorm_identity by (cbn; rewrite length_replicate; lia).
  apply relu_first, Ht.
Qed.

(** The features of a point: relu(1 - x) in the first channel. *)
Lemma point_features_padding_ckpt (x y z : R) :
  point_features padding_sensitive_ckpt [x; y; z]
  = Rmax (1 - x) 0 :: replicate 255 0.
Proof.
  unfold point_features.
  assert (H1 : relu (batchnorm (bn1 padding_sensitive_ckpt)
                 (linear (conv1_weight padding_sensitive_ckpt) [x; y; z]))
               = Rmax (1 - x) 0 :: replicate 63 0).
  { cbn [padding_sensitive_ckpt conv1_weight bn1].
    change (linear (?w :: ?W) ?p) with (dot w p :: linear W p).
    rewrite linear_zero_rows.
    unfold batchnorm. cbn [running_mean running_var bn_weight bn_bias].
    change (replicate 64 ?a) with (a :: replicate 63 a).
    cbn [bn_channels]. rewrite bn_channels_identity
      by (rewrite length_replicate; lia).
    change (relu (?a :: ?l)) with (fmax a f0 :: relu l).
    rewrite relu_zeros. f_equal.
    cbn [fadd fmul fdiv fsub fsqrt fmax f0 R_float].
    rewrite bn_unit_variance. f_equal. unfold dot, fsum. cbn. field. }
  rewrite H1.
  assert (Hp : 0 <= Rmax (1 - x) 0) by apply Rmax_r.
  cbn [padding_sensitive_ckpt conv2_weight bn2 conv3_weight bn3].
  rewrite (stage_pick_first 128 64) by (lia || exact Hp).
  apply (stage_pick_first 256 128); [lia | exact Hp].
Qed.

(** The head sends a pooled feature t to the raw outputs (1, t, 0, 0, 0, 0). *)
Lemma head_padding_ckpt (t : R) (xs : list R) :
  0 <= t ->
  head padding_sensitive_ckpt (t :: xs) = [1; t; 0; 0; 0; 0].
Proof.
  intros Ht. unfold head.
  cbn [padding_sensitive_ckpt fc1_weight bn4 fc2_weight bn5 fc_out_weight fc_out_bias].
  rewrite (stage_pick_first 256 256) by (lia || exact Ht).
  rewrite (stage_pick_first 128 256) by (lia || exact Ht).
  unfold linear. cbn [map].
  rewrite !dot_zero_row, dot_unit_row. cbn. repeat f_equal; ring.
Qed.

Lemma zip_with_Rmax_zeros (k : nat) :
  zip_with Rmax (replicate k 0) (replicate k 0) = replicate k 0.
Proof.
  induction k as [|k IH]; [reflexivity|].
  cbn [replicate zip_with]. rewrite IH. f_equal. rmax.
Qed.

(** The second entry of the direction for raw outputs (1, t, 0, 0, 0, 0). *)
Lemma v_second_of_raw (t : R) :
  nth 1 (fst (canonicalize [1; t; 0; 0; 0; 0])) 0
  = t / Rmax (vnorm [1; t; 0]) eps_normalize.
Proof. rewrite canonicalize6. reflexivity. Qed.

(** Alone, the short beam is seen as its one point. *)
Lemma short_beam_alone :
  v_second (predict_at padding_sensitive_ckpt 1 short_beam) = 0.
Proof.
  unfold v_second, predict_at, forward_cloud. cbn [pred_v].
  change (reshape (replicate 1 3%nat) (padded_row 1 short_beam)) with [[1; 0; 0]].
  cbn [map max_pool foldl]. rewrite point_features_padding_ckpt.
  replace (Rmax (1 - 1) 0) with 0 by rmax.
  rewrite head_padding_ckpt by lra.
  rewrite v_second_of_raw. unfold Rdiv. ring.
Qed.

(** Padded to two points, the short beam is seen with a point (0, 0, 0). *)
Lemma short_beam_padded :
  v_second (predict_at padding_sensitive_ckpt 2 short_beam)
  = 1 / Rmax (vnorm [1; 1; 0]) eps_normalize.
Proof.
  unfold v_second, predict_at, forward_cloud. cbn [pred_v].
  change (reshape (replicate 2 3%nat) (padded_row 2 short_beam))
    with [[1; 0; 0]; [0; 0; 0]].
  cbn [map max_pool foldl]. rewrite !point_features_padding_ckpt.
  replace (Rmax (1 - 1) 0) with 0 by rmax.
  replace (Rmax (1 - 0) 0) with 1 by rmax.
  cbn [zip_with]. change (@fmax R R_float) with Rmax.
  rewrite zip_with_Rmax_zeros.
  replace (Rmax 0 1) with 1 by rmax.
  rewrite head_padding_ckpt by lra.
  apply v_second_of_raw.
Qed.

Lemma short_beam_padded_nonzero :
  v_second (predict_at padding_sensitive_ckpt 2 short_beam) <> 0.
Proof.
  rewrite short_beam_padded.
  assert (Hn : 0 < Rmax (vnorm [1; 1; 0]) eps_normalize).
  { eapply Rlt_le_trans; [apply eps_normalize_pos | apply Rmax_r]. }
  intros Hz. apply (Rmult_eq_compat_r (Rmax (vnorm [1; 1; 0]) eps_normalize)) in Hz.
  unfold Rdiv in Hz. rewrite Rmult_assoc, Rinv_l in Hz by lra. lra.
Qed.

End PaddingCheckpoint.

(** ** Batch size 1 against batch size 32 *)

Section BatchCounterexample.
Open Scope R_scope.

Lemma short_long_parsed : Forall parsed_beam [short_beam; long_beam].
Proof.
  repeat constructor; cbn; lia.
Qed.

Lemma padding_ckpt_shapes : shapes_match padding_sensitive_ckpt = true.
Proof. vm_compute. reflexivity. Qed.

(** The file with the short and the long beam. *)
Lemma short_long_input :
  read_beams_text (F := R)
    [ "beam 1"; "1 0 0"; "endbeam"; "beam 2"; "1 0 0"; "1 0 0"; "endbeam" ]%string
  = Ok [short_beam; long_beam].
Proof.
  vm_compute. repeat f_equal; ring.
Qed.

Lemma infer_short_long_1 :
  infer padding_sensitive_ckpt [short_beam; long_beam] 1
  = Ok [predict_at padding_sensitive_ckpt 1 short_beam;
        predict_at padding_sensitive_ckpt 2 long_beam].
Proof.
  rewrite (infer_closed _ _ 1 short_long_parsed) by lia. reflexivity.
Qed.

Lemma infer_short_long_32 :
  infer padding_sensitive_ckpt [short_beam; long_beam] 32
  = Ok [predict_at padding_sensitive_ckpt 2 short_beam;
        predict_at padding_sensitive_ckpt 2 long_beam].
Proof.
  rewrite (infer_closed _ _ 32 short_long_parsed) by lia. reflexivity.
Qed.

(** C2, as stated, fails: on a file with a beam of one point followed by
    a beam of two points, and a checkpoint of the model's shapes, the run
    with batch size 1 evaluates the first beam on its point alone and the
    run with batch size 32 evaluates it padded with a point (0, 0, 0); the
    second entry of its direction is 0 in the first run and not 0 in the
    second. *)
Lemma batch_size_changes_prediction :
  shapes_match padding_sensitive_ckpt = true
  /\ read_beams_text (F := R)
       [ "beam 1"; "1 0 0"; "endbeam"; "beam 2"; "1 0 0"; "1 0 0"; "endbeam" ]%string
     = Ok [short_beam; long_beam]
  /\ exists r1 r1' r32 r32',
       infer padding_sensitive_ckpt [short_beam; long_beam] 1 = Ok [r1; r1']
       /\ infer padding_sensitive_ckpt [short_beam; long_beam] 32 = Ok [r32; r32']
       /\ pred_id r1 = 1%Z /\ pred_id r32 = 1%Z
       /\ v_second r1 = 0
       /\ v_second r32 <> 0.
Proof.
  split; [apply padding_ckpt_shapes|]. split; [apply short_long_input|].
  eexists _, _, _, _.
  split; [apply infer_short_long_1|]. split; [apply infer_short_long_32|].
  split; [reflexivity|]. split; [reflexivity|].
  split; [apply short_beam_alone | apply short_beam_padded_nonzero].
Qed.

End BatchCounterexample.

(** ** The padder and the runner on concrete inputs *)

Section Witnesses.
Open Scope R_scope.

Lemma short_long_well_shaped : Forall well_shaped [short_beam; long_beam].
Proof. repeat constructor. Qed.

Lemma pad_points_spec_witness :
  exists x mask,
    pad_points [short_beam; long_beam] None = Ok (x, mask, [1; 2]%nat)
    /\ shape x = [2; 2; 3]%nat /\ shape mask = [2; 2]%nat
    /\ row x 0 = [1; 0; 0; 0; 0; 0] /\ row mask 0 = [true; false]
    /\ row x 1 = [1; 0; 0; 1; 0; 0] /\ row mask 1 = [true; true].
Proof.
  destruct (pad_points_spec [short_beam; long_beam] ltac:(discriminate)
              short_long_well_shaped) as (x & mask & Hp & Hx & Hm & Hrows).
  exists x, mask.
  destruct (Hrows 0%nat short_beam eq_refl) as [Hx0 Hm0].
  destruct (Hrows 1%nat long_beam eq_refl) as [Hx1 Hm1].
  repeat split; assumption.
Defined.

Lemma forward_shape_contract_witness :
  exists x mask sizes,
    pad_points [short_beam; long_beam] None = Ok (x, mask, sizes)
    /\ ndim x = 3%nat /\ List.last (shape x) 0%nat = 3%nat
    /\ forall m shp, forward m x <> Err (InputShapeError shp).
Proof.
  exact (proj2 forward_shape_contract [short_beam; long_beam]
           ltac:(discriminate) short_long_well_shaped).
Defined.

Lemma main_no_beams_witness :
  main (F := R) [ "beam 3"; "endbeam"; ""; "endbeam" ]%string zero_ckpt 32
  = ([EvReadInput], Err NoBeamsError).
Proof.
  apply (main_no_beams [ "beam 3"; "endbeam"; ""; "endbeam" ]%string zero_ckpt 32).
  reflexivity.
Defined.

Lemma main_one_result_per_beam_witness :
  exists results fwd,
    main [ "beam 1"; "1 0 0"; "endbeam"; "beam 2"; "1 0 0"; "1 0 0"; "endbeam" ]%string
      padding_sensitive_ckpt 32
    = ([EvReadInput; EvLoadCheckpoint] ++ fwd
       ++ [EvWriteOutput (concat (map result_lines results))], Ok tt)
    /\ map pred_id results = [1; 2]%Z
    /\ Forall (fun r => pred_t1 r = 0 /\ pred_t2 r = 0) results.
Proof.
  exact (main_one_result_per_beam _ padding_sensitive_ckpt 32
           [short_beam; long_beam] short_long_input ltac:(discriminate)
           padding_ckpt_shapes ltac:(lia)).
Defined.

(** C6, as stated, fails for a negative batch size: the file below parses
    to two beams, but with batch size -1 the loop over the mini-batches
    does not run; the run succeeds, no forward pass is made, and the
    output file is written empty, without a Prediction for either beam. *)
Lemma negative_batch_size_no_prediction :
  read_beams_text (F := R)
    [ "beam 1"; "1 0 0"; "endbeam"; "beam 2"; "1 0 0"; "1 0 0"; "endbeam" ]%string
  = Ok [short_beam; long_beam]
  /\ infer padding_sensitive_ckpt [short_beam; long_beam] (-1) = Ok []
  /\ main [ "beam 1"; "1 0 0"; "endbeam"; "beam 2"; "1 0 0"; "1 0 0"; "endbeam" ]%string
        padding_sensitive_ckpt (-1)
     = ([EvReadInput; EvLoadCheckpoint; EvWriteOutput []], Ok tt).
Proof.
  split; [exact short_long_input|]. split; [reflexivity|].
  unfold main. rewrite short_long_input. cbn [length Nat.eqb app].
  unfold load_checkpoint. rewrite padding_ckpt_shapes. reflexivity.
Qed.

Lemma two_short_input :
  read_beams_text (F := R)
    [ "beam 1"; "1 0 0"; "endbeam"; "beam 2"; "0 1 0"; "endbeam" ]%string
  = Ok [short_beam; other_short_beam].
Proof. vm_compute. repeat f_equal; ring. Qed.

Lemma two_short_uniform : uniform_batches [short_beam; other_short_beam] 32.
Proof.
  apply (uniform_of_equal_counts _ 32 1). repeat constructor.
Qed.

Lemma batch_size_invariance_witness :
  infer padding_sensitive_ckpt [short_beam; other_short_beam] 32
  = infer padding_sensitive_ckpt [short_beam; other_short_beam] 1.
Proof.
  exact (proj1 (batch_size_invariance _ padding_sensitive_ckpt 32
                  [short_beam; other_short_beam] two_short_input
                  ltac:(discriminate) padding_ckpt_shapes ltac:(lia)
                  two_short_uniform)).
Defined.

End Witnesses.

(** * Further properties of the parser *)

Section StringFacts.

Lemma split_nil_iff (s : string) : split s = [] <-> all_space s = true.
Proof.
  induction s as [|c s IH]; [split; reflexivity|].
  cbn [split all_space]. destruct (is_space c); cbn [andb]; [exact IH|].
  split; [|discriminate].
  destruct s as [|c' s']; [discriminate|].
  destruct (is_space c'); [discriminate|].
  destruct (split (String c' s')); discriminate.
Qed.

Lemma ends_space_rstrip (s : string) : ends_space (rstrip s) = false.
Proof.
  induction s as [|c s IH]; [reflexivity|].
  cbn [rstrip]. destruct (rstrip s) as [|c' r] eqn:Hr.
  - destruct (is_space c) eqn:Hc; [reflexivity | cbn; exact Hc].
  - exact IH.
Qed.

Lemma ends_space_all_space (c : ascii) (t : string) :
  is_space c = true -> all_space t = true -> ends_space (String c t) = true.
Proof.
  revert c. induction t as [|c' t IH]; intros c Hc Ht; [exact Hc|].
  cbn [all_space] in Ht. apply andb_prop in Ht as [Hc' Ht].
  change (ends_space (String c (String c' t))) with (ends_space (String c' t)).
  apply IH; assumption.
Qed.

Lemma startswith_beam (s : string) :
  startswith s "beam " = true -> exists t, s = ("beam " ++ t)%string.
Proof.
  unfold startswith. intros Hp.
  do 5 (destruct s as [|? s]; [discriminate|];
        cbn [String.prefix] in Hp;
        match type of Hp with
        | (if ?d then _ else _) = true => destruct d as [<-|]; [|discriminate]
        end).
  exists s. reflexivity.
Qed.

(** A stripped line that starts with [beam ] has a second token. *)
Lemma header_has_two_tokens (raw : string) :
  startswith (strip raw) "beam " = true ->
  (2 <= length (split (strip raw)))%nat.
Proof.
  intros Hp. destruct (startswith_beam _ Hp) as [t Ht].
  pose proof (ends_space_rstrip (lstrip raw)) as He.
  fold (strip raw) in He. rewrite Ht in He |- *.
  change (ends_space (String " " t) = false) in He.
  assert (Hs : split t <> []).
  { intros Hnil. apply split_nil_iff in Hnil.
    rewrite (ends_space_all_space " " t eq_refl Hnil) in He. discriminate. }
  change (split ("beam " ++ t)) with ("beam"%string :: split t).
  destruct (split t); [contradiction|cbn; lia].
Qed.

End StringFacts.

Section ParserExtras.
Context {F : Type} `{PyFloat F}.
Implicit Types (st : parser_state F) (raw : string).

Lemma parse_line_blank st raw : strip raw = ""%string -> parse_line st raw = Ok st.
Proof. intros Hb. unfold parse_line. rewrite Hb. reflexivity. Qed.

(** X1: a blank line, anywhere in the file, changes nothing. *)
Theorem blank_line_ignored (pre rest : list string) (raw : string) :
  strip raw = ""%string ->
  read_beams_text (pre ++ raw :: rest) = read_beams_text (pre ++ rest).
Proof.
  intros Hb. unfold read_beams_text. f_equal. rewrite !parse_lines_app.
  destruct (parse_lines parser_init pre) as [st|e]; [|reflexivity].
  cbn [rbind parse_lines]. rewrite (parse_line_blank st raw Hb). reflexivity.
Qed.

Lemma parse_line_endbeam_idle_after st raw st' :
  is_endbeam raw -> parse_line st raw = Ok st' -> cur_id st' = None.
Proof.
  unfold is_endbeam, parse_line. intros ->. cbn.
  destruct (cur_id st) as [i|] eqn:Hid; [|intros [= <-]; exact Hid].
  destruct (length (cur_pts st) =? 0)%nat; [intros [= <-]; reflexivity|].
  destruct (_ || _); [discriminate | intros [= <-]; reflexivity].
Qed.

(** X2: [endbeam] outside a block is a no-op: at the start of the file,
    and right after another [endbeam]. *)
Theorem stray_endbeam_ignored (pre rest : list string) (e1 e2 : string) :
  is_endbeam e1 -> is_endbeam e2 ->
  read_beams_text (e1 :: rest) = read_beams_text rest
  /\ read_beams_text (pre ++ e1 :: e2 :: rest) = read_beams_text (pre ++ e1 :: rest).
Proof.
  intros H1 H2. split.
  - unfold read_beams_text. cbn [parse_lines].
    rewrite (parse_line_endbeam_idle parser_init e1 H1 eq_refl). reflexivity.
  - unfold read_beams_text. f_equal. rewrite !parse_lines_app.
    destruct (parse_lines parser_init pre) as [st|e]; [|reflexivity].
    cbn [rbind parse_lines].
    destruct (parse_line st e1) as [st1|e] eqn:Hl; [|reflexivity].
    cbn [rbind].
    rewrite (parse_line_endbeam_idle st1 e2 H2
               (parse_line_endbeam_idle_after st e1 st1 H1 Hl)).
    reflexivity.
Qed.

(** X3: coordinate lines met before a header, in any state, are checked
    but add no point to any beam. *)
Theorem stray_coordinates_dropped (pre rest : list string) (h : string) (i : Z)
    (cs : list (string * list F)) :
  Forall (fun lp => is_coord (fst lp) (snd lp)) cs ->
  is_header h i ->
  read_beams_text (pre ++ map fst cs ++ h :: rest) = read_beams_text (pre ++ h :: rest).
Proof.
  intros Hcs Hh. unfold read_beams_text. f_equal. rewrite !parse_lines_app.
  destruct (parse_lines parser_init pre) as [st|e]; [|reflexivity].
  cbn [rbind]. rewrite parse_lines_app, (parse_lines_coords st cs Hcs).
  cbn [rbind parse_lines].
  rewrite !(parse_line_header _ h i Hh). reflexivity.
Qed.

(** The errors one line can raise in a state the parser can be in. *)
Lemma parse_line_error_kinds st raw (e : error) :
  parse_line st raw = Err e ->
  Forall (fun p => length p = 3%nat) (cur_pts st) ->
  (exists l, e = BadPointLine l) \/ (exists t, e = IntLiteralError t)
  \/ (exists t, e = FloatLiteralError t).
Proof.
  intros Hl Hp. unfold parse_line in Hl.
  destruct (String.eqb (strip raw) ""); [discriminate|].
  destruct (startswith (strip raw) "beam ") eqn:Hb.
  { pose proof (header_has_two_tokens raw Hb) as H2.
    destruct (Nat.ltb_spec (length (split (strip raw))) 2); [lia|].
    destruct (py_int _); [discriminate|]. injection Hl as <-. eauto. }
  destruct (String.eqb (strip raw) "endbeam").
  { destruct (cur_id st); [|discriminate].
    destruct (cur_pts st) as [|p ps]; [discriminate|].
    apply Forall_cons in Hp as [Hp3 _]. cbn in Hl. rewrite Hp3 in Hl.
    discriminate. }
  destruct (length (split (strip raw)) <? 3)%nat; [injection Hl as <-; eauto|].
  unfold to_float in Hl.
  destruct (py_float _); [|injection Hl as <-; eauto].
  destruct (py_float _); [|injection Hl as <-; eauto].
  destruct (py_float _); [discriminate|injection Hl as <-; eauto].
Qed.

(** X4: the parser can only fail on a coordinate line with fewer than
    three tokens or on a token that is not a number; its two other guards,
    the header without id and the beam that is not of shape (N, 3), never
    fire. *)
Theorem read_beams_text_error_kinds (input : list string) (e : error) :
  read_beams_text input = Err e ->
  (exists l, e = BadPointLine l) \/ (exists t, e = IntLiteralError t)
  \/ (exists t, e = FloatLiteralError t).
Proof.
  unfold read_beams_text.
  assert (Hgen : forall lines st,
            Forall parsed_beam (beams st)
            /\ Forall (fun p => length p = 3%nat) (cur_pts st) ->
            parse_lines st lines = Err e ->
            (exists l, e = BadPointLine l) \/ (exists t, e = IntLiteralError t)
            \/ (exists t, e = FloatLiteralError t)).
  { induction lines as [|raw lines IH]; intros st Hinv Hl; [discriminate|].
    cbn [parse_lines] in Hl.
    destruct (parse_line st raw) as [st1|e1] eqn:H1; cbn [rbind] in Hl.
    - apply (IH st1); [|exact Hl]. eapply parse_line_invariant; eauto.
    - injection Hl as <-. eapply parse_line_error_kinds; [exact H1|apply Hinv]. }
  intros Hr. destruct (parse_lines parser_init input) as [st|e1] eqn:Hp;
    [discriminate|]. injection Hr as <-.
  apply (Hgen input parser_init); [split; constructor | exact Hp].
Qed.

(** X5: every beam the parser returns has at least one point, points of
    shape (N, 3) and 3 N coordinates. *)
Theorem read_beams_text_beams_shape (input : list string) (bms : list (Beam F)) :
  read_beams_text input = Ok bms ->
  Forall (fun b => exists n, (1 <= n)%nat
                             /\ shape (points b) = [n; 3%nat]
                             /\ length (data (points b)) = (n * 3)%nat) bms.
Proof.
  intros Hr. eapply Forall_impl; [apply (read_beams_text_parsed input bms Hr)|].
  intros b [[Hs Hd] Hn]. exists (beam_count b). auto.
Qed.

(** X6: a header whose second token is an integer opens a fresh
    accumulator for that id, whatever follows the id on the line; a header
    whose second token is not an integer aborts the run with the
    conversion error of that token. *)
Theorem header_outcome (pre rest : list string) st raw :
  parse_lines parser_init pre = Ok st ->
  startswith (strip raw) "beam " = true ->
  match py_int (nth 1 (split (strip raw)) ""%string) with
  | Some i => parse_line st raw = Ok (mk_pstate (beams st) (Some i) [])
  | None =>
      aborts_with (pre ++ raw :: rest)
        (IntLiteralError (nth 1 (split (strip raw)) ""%string))
  end.
Proof.
  intros Hpre Hb.
  destruct (py_int (nth 1 (split (strip raw)) ""%string)) as [i|] eqn:Hi.
  - apply parse_line_header. split; assumption.
  - apply main_parse_error. unfold read_beams_text.
    rewrite parse_lines_app, Hpre. cbn [rbind parse_lines].
    unfold parse_line.
    destruct (String.eqb_spec (strip raw) ""%string) as [E|_].
    { rewrite E in Hb. discriminate. }
    rewrite Hb. pose proof (header_has_two_tokens raw Hb) as H2.
    destruct (Nat.ltb_spec (length (split (strip raw))) 2); [lia|].
    rewrite Hi. reflexivity.
Qed.

End ParserExtras.

(** * Further properties of the padder and the runner *)

Section PadderExtras.
Context {F : Type} `{PyFloat F}.
Implicit Types (m : state_dict F) (b : Beam F) (bs bms : list (Beam F)).

Lemma pad_points_closed_target bs (T : nat) :
  Forall well_shaped bs ->
  pad_points bs (Some T)
  = Ok (mk_ndarray [length bs; T; 3%nat] (concat (map (padded_row T) bs)),
        mk_ndarray [length bs; T] (concat (map (mask_row T) bs)),
        map beam_count bs).
Proof.
  intros Hbs. unfold pad_points. rewrite (rmap_size0 bs Hbs). cbn [rbind].
  unfold np_zeros, prod_list. cbn [fold_right rbind].
  replace (length bs * (T * (3 * 1)))%nat with (length bs * (T * 3))%nat by lia.
  replace (length bs * (T * 1))%nat with (length bs * T)%nat by lia.
  pose proof (pad_loop_blank T bs 0 [length bs; T; 3%nat] [length bs; T] [] []
                Hbs eq_refl eq_refl) as Hl.
  cbn [app] in Hl. rewrite Hl. reflexivity.
Qed.

Lemma padded_row_unified T b :
  well_shaped b ->
  padded_row T b
  = take (T * 3) (data (points b)) ++ replicate ((T - beam_count b) * 3) f0.
Proof.
  intros [_ Hd]. unfold padded_row. destruct (Nat.leb_spec T (beam_count b)).
  - replace (T - beam_count b)%nat with 0%nat by lia. cbn. rewrite app_nil_r.
    reflexivity.
  - rewrite take_ge by lia. reflexivity.
Qed.

Lemma mask_row_unified T b :
  mask_row T b
  = replicate (T `min` beam_count b) true ++ replicate (T - beam_count b) false.
Proof.
  unfold mask_row. destruct (Nat.leb_spec T (beam_count b)).
  - replace (T - beam_count b)%nat with 0%nat by lia.
    replace (T `min` beam_count b)%nat with T by lia. cbn. rewrite app_nil_r.
    reflexivity.
  - replace (T `min` beam_count b)%nat with (beam_count b) by lia. reflexivity.
Qed.

(** X7: with an explicit [target_n] the padder truncates: row [i] of [x]
    holds the first [target_n] points of beam [i], zero-filled up to
    [target_n] when the beam is shorter, and row [i] of the mask has
    min(target_n, count) true entries followed by false ones; the list
    of beams may be empty. *)
Theorem pad_points_explicit_target bs (T : nat) :
  Forall well_shaped bs ->
  exists x mask,
    pad_points bs (Some T) = Ok (x, mask, map beam_count bs)
    /\ shape x = [length bs; T; 3%nat] /\ shape mask = [length bs; T]
    /\ length (data x) = (length bs * T * 3)%nat
    /\ length (data mask) = (length bs * T)%nat
    /\ forall i b, bs !! i = Some b ->
         row x i = take (T * 3) (data (points b))
                   ++ replicate ((T - beam_count b) * 3) f0
         /\ row mask i = replicate (T `min` beam_count b) true
                         ++ replicate (T - beam_count b) false.
Proof.
  intros Hbs. eexists _, _.
  split; [apply (pad_points_closed_target bs T Hbs)|].
  split; [reflexivity|]. split; [reflexivity|]. cbn [data].
  split; [|split].
  - rewrite (length_concat_rows (T * 3)) by (apply padded_rows_width, Hbs).
    rewrite length_map. lia.
  - rewrite (length_concat_rows T) by apply mask_rows_width.
    rewrite length_map. reflexivity.
  - intros i b Hi. unfold row. cbn [shape data tail prod_list fold_right].
    rewrite !Nat.mul_1_r.
    rewrite (row_of_concat (T * 3) _ i (padded_row T b));
      [ | apply padded_rows_width, Hbs | rewrite list_lookup_fmap, Hi; reflexivity ].
    rewrite (row_of_concat T _ i (mask_row T b));
      [ | apply mask_rows_width | rewrite list_lookup_fmap, Hi; reflexivity ].
    split; [apply padded_row_unified | apply mask_row_unified].
    rewrite Forall_forall in Hbs. apply Hbs. eapply list_elem_of_lookup_2, Hi.
Qed.

(** X8: for a positive batch size the mini-batches are consecutive
    slices that cover the beams exactly once, each with at least one and
    at most [batch_size] beams. *)
Theorem mini_batches_partition bms (bsz : Z) :
  (0 < bsz)%Z ->
  exists starts,
    py_range0 (length bms) bsz = Ok starts
    /\ concat (map (fun st => batch_slice bms st bsz) starts) = bms
    /\ Forall (fun st => (1 <= length (batch_slice bms st bsz) <= Z.to_nat bsz)%nat)
         starts.
Proof.
  intros Hb. eexists. split; [apply (py_range0_pos _ _ Hb)|].
  split; [apply (batch_slices_concat bms bsz Hb)|].
  pose proof (py_range0_bound (length bms) bsz _ Hb (py_range0_pos _ _ Hb)) as Hst.
  eapply Forall_impl; [exact Hst|]. intros st Hlt. cbn beta in Hlt |- *.
  unfold batch_slice. rewrite length_take, length_drop. lia.
Qed.

(** X9: for any model, a run over parsed beams with a positive batch size
    never fails; the prediction of a beam is the forward pass on its
    points zero-padded to the longest beam of its own mini-batch, and
    there is one prediction per beam. *)
Theorem infer_by_mini_batches m bms (bsz : Z) :
  Forall parsed_beam bms -> (0 < bsz)%Z ->
  exists starts results,
    py_range0 (length bms) bsz = Ok starts
    /\ infer m bms bsz = Ok results
    /\ results = concat (map (fun st =>
                   map (predict_at m (max_list (map beam_count (batch_slice bms st bsz))))
                       (batch_slice bms st bsz)) starts)
    /\ length results = length bms.
Proof.
  intros Hp Hb. eexists _, _. split; [apply (py_range0_pos _ _ Hb)|].
  split; [apply (infer_closed m bms bsz Hp Hb)|]. split; [reflexivity|].
  rewrite <- (length_map pred_id), concat_map_map.
  erewrite map_ext; [|intros st; apply batch_predictions_ids].
  rewrite <- (concat_map_map beam_id (fun st => batch_slice bms st bsz)).
  rewrite (batch_slices_concat bms bsz Hb). apply length_map.
Qed.

(** X10: a batch size of 0 makes the run fail after the checkpoint is
    loaded, before any forward pass and any write; a negative batch size
    makes the loop run zero times, so the run succeeds and writes an empty
    output file although beams were parsed. *)
Theorem main_non_positive_batch_size (input : list string) (ckpt : state_dict F)
    (bsz : Z) bms :
  read_beams_text input = Ok bms -> bms <> [] -> shapes_match ckpt = true ->
  (bsz <= 0)%Z ->
  main input ckpt bsz
  = if (bsz =? 0)%Z then ([EvReadInput; EvLoadCheckpoint], Err RangeStepError)
    else ([EvReadInput; EvLoadCheckpoint; EvWriteOutput []], Ok tt).
Proof.
  intros Hr Hne Hs Hb. unfold main. rewrite Hr.
  destruct (Nat.eqb_spec (length bms) 0) as [E|_].
  { destruct bms; [contradiction | discriminate]. }
  unfold load_checkpoint, py_range0. rewrite Hs.
  destruct (Z.eqb_spec bsz 0); [reflexivity|].
  destruct (Z.ltb_spec bsz 0); [reflexivity | lia].
Qed.

(** X11: a checkpoint whose shapes are not those of the model makes the
    run fail at loading, before any forward pass and any write; and an
    input that does not parse makes it fail before the checkpoint is
    loaded at all. *)
Theorem main_fails_before_inference (input : list string) (ckpt : state_dict F)
    (bsz : Z) :
  (forall bms, read_beams_text input = Ok bms -> bms <> [] ->
               shapes_match ckpt = false ->
               main input ckpt bsz
               = ([EvReadInput; EvLoadCheckpoint], Err CheckpointMismatch))
  /\ (forall e, read_beams_text input = Err e ->
                main input ckpt bsz = ([EvReadInput], Err e)).
Proof.
  split.
  - intros bms Hr Hne Hs. unfold main. rewrite Hr.
    destruct (Nat.eqb_spec (length bms) 0) as [E|_].
    { destruct bms; [contradiction | discriminate]. }
    unfold load_checkpoint. rewrite Hs. reflexivity.
  - intros e Hr. unfold main. rewrite Hr. reflexivity.
Qed.

End PadderExtras.

(** * Further properties of the model *)

Section PointOrder.
Context {F : Type} `{PyFloat F}.
Hypothesis fmax_comm : forall a b : F, fmax a b = fmax b a.
Hypothesis fmax_assoc : forall a b c : F, fmax a (fmax b c) = fmax (fmax a b) c.

Lemma zip_fmax_comm (x y : list F) : zip_with fmax x y = zip_with fmax y x.
Proof.
  revert y. induction x as [|a x IH]; intros [|b y]; try reflexivity.
  cbn [zip_with]. rewrite IH, fmax_comm. reflexivity.
Qed.

Lemma zip_fmax_assoc (x y z : list F) :
  zip_with fmax x (zip_with fmax y z) = zip_with fmax (zip_with fmax x y) z.
Proof.
  revert y z. induction x as [|a x IH]; intros [|b y] [|c z]; try reflexivity.
  cbn [zip_with]. rewrite IH, fmax_assoc. reflexivity.
Qed.

Lemma foldl_zip_fmax_out (x a : list F) (l : list (list F)) :
  foldl (zip_with fmax) (zip_with fmax x a) l
  = zip_with fmax x (foldl (zip_with fmax) a l).
Proof.
  revert a. induction l as [|b l IH]; intros a; [reflexivity|].
  cbn [foldl]. rewrite <- zip_fmax_assoc. apply IH.
Qed.

Lemma max_pool_cons (x : list F) (l : list (list F)) :
  l <> [] -> max_pool (x :: l) = zip_with fmax x (max_pool l).
Proof.
  destruct l as [|a l]; [contradiction|]. intros _.
  cbn [max_pool foldl]. apply foldl_zip_fmax_out.
Qed.

(** The channel-wise maximum does not depend on the order of the points. *)
Lemma max_pool_permutation (l l' : list (list F)) :
  Permutation l l' -> max_pool l = max_pool l'.
Proof.
  induction 1 as [|x l l' Hp IH|x y l|l l' l'' _ IH1 _ IH2].
  - reflexivity.
  - destruct l as [|a l].
    + apply Permutation_nil in Hp. subst l'. reflexivity.
    + assert (l' <> []) by (intros ->; apply Permutation_sym, Permutation_nil in Hp;
                            discriminate).
      rewrite (max_pool_cons x (a :: l)) by discriminate.
      rewrite (max_pool_cons x l') by assumption. rewrite IH. reflexivity.
  - destruct l as [|a l].
    + cbn. apply zip_fmax_comm.
    + rewrite (max_pool_cons y (x :: a :: l)), (max_pool_cons x (a :: l)),
        (max_pool_cons x (y :: a :: l)), (max_pool_cons y (a :: l)) by discriminate.
      rewrite !zip_fmax_assoc, (zip_fmax_comm y x). reflexivity.
  - congruence.
Qed.

(** X12: the forward pass on a cloud does not depend on the order of its
    points, as soon as the maximum of two floats is commutative and
    associative. *)
Theorem forward_cloud_permutation (m : state_dict F) (cloud cloud' : list (list F)) :
  Permutation cloud cloud' -> forward_cloud m cloud = forward_cloud m cloud'.
Proof.
  intros Hp. unfold forward_cloud.
  rewrite (max_pool_permutation _ (map (point_features m) cloud')); [reflexivity|].
  apply Permutation_map, Hp.
Qed.

End PointOrder.

Section ModelExtras.
Context {F : Type} `{PyFloat F}.

(** X14: on an input of shape (B, N, 3) with N >= 1, a model of the
    default shapes returns [v] and [c] with B rows of three entries. *)
Theorem forward_output_shape (m : state_dict F) (x : ndarray F) (B N : nat) :
  shapes_match m = true ->
  shape x = [B; N; 3%nat] -> (1 <= N)%nat ->
  exists v c,
    forward m x = Ok (v, c)
    /\ length v = B /\ length c = B
    /\ Forall (fun r => length r = 3%nat) v
    /\ Forall (fun r => length r = 3%nat) c.
Proof.
  intros Hs Hx HN. unfold forward, ndim. rewrite Hx.
  cbn [length List.last nth Nat.eqb negb orb].
  destruct (Nat.eqb_spec N 0) as [E|_]; [lia|].
  eexists _, _. split; [reflexivity|].
  unfold clouds_of. rewrite !length_map, length_reshape, length_replicate.
  split; [reflexivity|]. split; [reflexivity|].
  split; apply Forall_map, Forall_map, Forall_forall; intros cloud _;
    unfold forward_cloud;
    apply (length_canonicalize (head m _) (length_head m _ Hs)).
Qed.

(** The five [f.write] calls succeed as soon as [c] and [v] have three
    entries; further entries are not read. *)
Lemma result_block_lines (r : prediction F) :
  (3 <= length (pred_c r))%nat -> (3 <= length (pred_v r))%nat ->
  result_block r = Ok (result_lines r).
Proof.
  destruct r as [i c v t1 t2]. cbn [pred_c pred_v]. intros Hc Hv.
  destruct c as [|c0 [|c1 [|c2 c]]]; cbn [length] in Hc; try lia.
  destruct v as [|v0 [|v1 [|v2 v]]]; cbn [length] in Hv; try lia.
  reflexivity.
Qed.

(** X15: predictions whose [c] and [v] have at least three entries are
    written without error, and the text written is, for each prediction in
    the order given, exactly five chunks: [result <id>], [c] with the first
    three entries of [c] in six decimals, [v] likewise, [t] with [t1] and
    [t2], and [endresult], each ended by a newline. *)
Theorem write_results_text_blocks (results : list (prediction F)) :
  Forall (fun r => (3 <= length (pred_c r))%nat /\ (3 <= length (pred_v r))%nat)
         results ->
  write_results_text results
  = (concat (map (fun r =>
       [ "result " ++ str_int (pred_id r) ++ newline;
         "c " ++ fmt6 (nth 0 (pred_c r) f0) ++ " " ++ fmt6 (nth 1 (pred_c r) f0)
           ++ " " ++ fmt6 (nth 2 (pred_c r) f0) ++ newline;
         "v " ++ fmt6 (nth 0 (pred_v r) f0) ++ " " ++ fmt6 (nth 1 (pred_v r) f0)
           ++ " " ++ fmt6 (nth 2 (pred_v r) f0) ++ newline;
         "t " ++ fmt6 (pred_t1 r) ++ " " ++ fmt6 (pred_t2 r) ++ newline;
         "endresult" ++ newline ]%string) results),
     Ok tt).
Proof.
  induction 1 as [|r results [Hc Hv] _ IH]; [reflexivity|].
  cbn [write_results_text map concat].
  rewrite (result_block_lines r Hc Hv), IH. reflexivity.
Qed.

End ModelExtras.


Section CanonicalizeExtras.
Context {F : Type} `{PyFloat F}.
Variable val : F -> R.
Variable fin : F -> bool.
Variable u : R.
Open Scope R_scope.

(** X13: whatever the raw direction, clamped or not, if every operation
    of the run is finite and rounded with relative error at most
    u <= 1/100, the direction returned has norm at most 1 + 5 u, and
    c . v is (c_raw . v) (1 - |v|^2) up to 9 u (|c_raw,1| + |c_raw,2| +
    |c_raw,3|): the clamp can only shorten the direction, and what it
    takes from the norm is what remains of c along v. *)
Theorem canonicalize_norm_bound (a b c d e f : F) :
  0 <= u <= / 100 -> canonicalize_rounds val fin u [a; b; c; d; e; f] ->
  let v := map val (fst (canonicalize [a; b; c; d; e; f])) in
  let cc := map val (snd (canonicalize [a; b; c; d; e; f])) in
  let c_raw := map val [d; e; f] in
  real_norm v <= 1 + 5 * u
  /\ Rabs (real_dot cc v - real_dot c_raw v * (1 - real_dot v v))
     <= 9 * u * abs_sum c_raw.
Proof.
  intros Hu Hr. rounds_inv Hr.
  set (den := fmax (fsqrt (fadd (fadd (fadd f0 (fmul a a)) (fmul b b)) (fmul c c)))
                   eps_normalize) in *.
  assert (Hden : 0 < val den).
  { rewrite Hmax. eapply Rlt_le_trans; [exact Heps | apply Rmax_r]. }
  assert (Hle : val (fsqrt (fadd (fadd (fadd f0 (fmul a a)) (fmul b b)) (fmul c c)))
                <= val den).
  { rewrite Hmax. apply Rmax_l. }
  pose proof (direction_upper u Hu _ _ _ _ _ _ _ _ _ _ _ _ _ _
                Hs1 Hs2 Hs3 Ha0 Ha1 Ha2 Hsqrt Hden Hle Hd1 Hd2 Hd3) as HV.
  change (fst (canonicalize [a; b; c; d; e; f]))
    with [fdiv a den; fdiv b den; fdiv c den].
  set (k := vdot [d; e; f] [fdiv a den; fdiv b den; fdiv c den]).
  change (snd (canonicalize [a; b; c; d; e; f]))
    with [fsub d (fmul k (fdiv a den)); fsub e (fmul k (fdiv b den));
          fsub f (fmul k (fdiv c den))].
  cbn [map]. cbv zeta. split.
  - rewrite real_norm3. apply (sqrt_below_one u Hu). split; [|exact HV].
    pose proof (Rle_0_sqr (val (fdiv a den))).
    pose proof (Rle_0_sqr (val (fdiv b den))).
    pose proof (Rle_0_sqr (val (fdiv c den))). unfold Rsqr in *. lra.
  - rewrite !real_dot3. unfold abs_sum. cbn [map fold_right].
    replace (Rabs (val d) + (Rabs (val e) + (Rabs (val f) + 0)))
      with (Rabs (val d) + Rabs (val e) + Rabs (val f)) by ring.
    exact (offset_residual u Hu _ _ _ _ _ _ _ _ _ _ _ _ _ _ _ _ _ _
             HV Hp1 Hp2 Hp3 Hk0 Hk1 Hk2 Hm1 Hm2 Hm3 Hb1 Hb2 Hb3).
Qed.

End CanonicalizeExtras.

Section EventExtras.
Context {F : Type} `{PyFloat F}.

(** X16: a successful run reads the input, loads the checkpoint, runs one
    forward pass per mini-batch on an array of shape (B_k, T_k, 3), where
    B_k is the size of the mini-batch and T_k the point count of its
    longest beam, and only then opens the output file, once. *)
Theorem main_events (input : list string) (ckpt : state_dict F) (bsz : Z)
    (bms : list (Beam F)) :
  read_beams_text input = Ok bms ->
  bms <> [] ->
  shapes_match ckpt = true ->
  (0 < bsz)%Z ->
  exists starts results,
    py_range0 (length bms) bsz = Ok starts
    /\ infer ckpt bms bsz = Ok results
    /\ main input ckpt bsz
       = ([EvReadInput; EvLoadCheckpoint] ++ map (batch_event bms bsz) starts
          ++ [EvWriteOutput (concat (map result_lines results))], Ok tt).
Proof.
  intros Hr Hne Hs Hb.
  pose proof (read_beams_text_parsed input bms Hr) as Hp.
  pose proof (py_range0_bound (length bms) bsz _ Hb (py_range0_pos _ _ Hb)) as Hst.
  eexists _, _. split; [apply (py_range0_pos _ _ Hb)|].
  split; [apply (infer_closed ckpt bms bsz Hp Hb)|].
  unfold main. rewrite Hr.
  destruct (Nat.eqb_spec (length bms) 0) as [E|_].
  { destruct bms; [contradiction | discriminate]. }
  unfold load_checkpoint. rewrite Hs, (py_range0_pos _ _ Hb).
  rewrite (infer_loop_closed ckpt bms bsz _ Hp Hb Hst).
  rewrite write_results_text_ok by (apply predictions_have_three, Hs).
  reflexivity.
Qed.

End EventExtras.

(** ** The further properties on concrete inputs *)

Section ExtraWitnesses.
Open Scope R_scope.

Lemma blank_line_ignored_witness :
  read_beams_text (F := R) [ "beam 1"; "   "; "1 0 0"; "endbeam" ]%string
  = read_beams_text (F := R) [ "beam 1"; "1 0 0"; "endbeam" ]%string.
Proof.
  exact (blank_line_ignored [ "beam 1" ]%string [ "1 0 0"; "endbeam" ]%string
           "   "%string eq_refl).
Defined.

Lemma stray_endbeam_ignored_witness :
  read_beams_text (F := R) [ "endbeam"; "beam 1"; "1 0 0"; "endbeam" ]%string
  = read_beams_text (F := R) [ "beam 1"; "1 0 0"; "endbeam" ]%string
  /\ read_beams_text (F := R)
       [ "beam 1"; "1 0 0"; "endbeam"; " endbeam"; "beam 2"; "endbeam" ]%string
     = read_beams_text (F := R)
         [ "beam 1"; "1 0 0"; "endbeam"; "beam 2"; "endbeam" ]%string.
Proof.
  destruct (stray_endbeam_ignored (F := R) [ "beam 1"; "1 0 0" ]%string
              [ "beam 1"; "1 0 0"; "endbeam" ]%string
              "endbeam"%string " endbeam"%string eq_refl eq_refl) as [H1 _].
  destruct (stray_endbeam_ignored (F := R) [ "beam 1"; "1 0 0" ]%string
              [ "beam 2"; "endbeam" ]%string
              "endbeam"%string " endbeam"%string eq_refl eq_refl) as [_ H2].
  split; [exact H1 | exact H2].
Defined.

Lemma stray_coordinates_dropped_witness :
  read_beams_text (F := R) [ "0 0 0"; "1 0 0"; "beam 2"; "0 0 1"; "endbeam" ]%string
  = read_beams_text (F := R) [ "beam 2"; "0 0 1"; "endbeam" ]%string.
Proof.
  apply (stray_coordinates_dropped [] [ "0 0 1"; "endbeam" ]%string
           "beam 2"%string 2
           [coord_R "0 0 0" "0" "0" "0"; coord_R "1 0 0" "1" "0" "0"]).
  - prove_coords.
  - prove_header.
Defined.

Lemma read_beams_text_error_kinds_witness :
  (exists l, IntLiteralError "1.5"%string = BadPointLine l)
  \/ (exists t, IntLiteralError "1.5"%string = IntLiteralError t)
  \/ (exists t, IntLiteralError "1.5"%string = FloatLiteralError t).
Proof.
  exact (read_beams_text_error_kinds (F := R) [ "beam 1.5"; "endbeam" ]%string
           (IntLiteralError "1.5"%string) eq_refl).
Defined.

Lemma read_beams_text_beams_shape_witness :
  Forall (fun b : Beam R =>
            exists n, (1 <= n)%nat /\ shape (points b) = [n; 3%nat]
                      /\ length (data (points b)) = (n * 3)%nat)
    [short_beam; long_beam].
Proof.
  exact (read_beams_text_beams_shape _ [short_beam; long_beam] short_long_input).
Defined.

Lemma header_outcome_witness :
  parse_line (F := R) parser_init "beam 12 and more"%string
  = Ok (mk_pstate [] (Some 12%Z) []).
Proof.
  exact (header_outcome (F := R) [] [] parser_init "beam 12 and more"%string
           eq_refl eq_refl).
Defined.

Lemma pad_points_explicit_target_witness :
  exists x mask,
    pad_points [short_beam; long_beam] (Some 1%nat) = Ok (x, mask, [1; 2]%nat)
    /\ shape x = [2; 1; 3]%nat
    /\ row x 1 = [1; 0; 0] /\ row mask 1 = [true].
Proof.
  destruct (pad_points_explicit_target [short_beam; long_beam] 1
              short_long_well_shaped)
    as (x & mask & Hp & Hx & _ & _ & _ & Hrows).
  exists x, mask. destruct (Hrows 1%nat long_beam eq_refl) as [Hx1 Hm1].
  repeat split; assumption.
Defined.

Lemma mini_batches_partition_witness :
  exists starts,
    py_range0 3 2 = Ok starts
    /\ concat (map (fun st => batch_slice [short_beam; long_beam; other_short_beam] st 2)
                 starts)
       = [short_beam; long_beam; other_short_beam]
    /\ Forall (fun st =>
         (1 <= length (batch_slice [short_beam; long_beam; other_short_beam] st 2)
          <= 2)%nat) starts.
Proof.
  exact (mini_batches_partition [short_beam; long_beam; other_short_beam] 2
           ltac:(lia)).
Defined.

Lemma infer_by_mini_batches_witness :
  exists results,
    infer padding_sensitive_ckpt [short_beam; long_beam] 32 = Ok results
    /\ length results = 2%nat.
Proof.
  destruct (infer_by_mini_batches padding_sensitive_ckpt [short_beam; long_beam] 32
              short_long_parsed ltac:(lia)) as (starts & results & _ & Hi & _ & Hl).
  exists results. split; [exact Hi | exact Hl].
Defined.

Lemma main_non_positive_batch_size_witness :
  main [ "beam 1"; "1 0 0"; "endbeam"; "beam 2"; "1 0 0"; "1 0 0"; "endbeam" ]%string
    padding_sensitive_ckpt (-1)
  = ([EvReadInput; EvLoadCheckpoint; EvWriteOutput []], Ok tt).
Proof.
  exact (main_non_positive_batch_size _ padding_sensitive_ckpt (-1)
           [short_beam; long_beam] short_long_input ltac:(discriminate)
           padding_ckpt_shapes ltac:(lia)).
Defined.

Lemma main_fails_before_inference_witness :
  main [ "beam 1"; "1 0 0"; "endbeam"; "beam 2"; "1 0 0"; "1 0 0"; "endbeam" ]%string
    empty_ckpt 32
  = ([EvReadInput; EvLoadCheckpoint], Err CheckpointMismatch).
Proof.
  exact (proj1 (main_fails_before_inference _ empty_ckpt 32)
           [short_beam; long_beam] short_long_input ltac:(discriminate) eq_refl).
Defined.

Lemma forward_cloud_permutation_witness :
  forward_cloud padding_sensitive_ckpt [[1; 0; 0]; [0; 0; 0]]
  = forward_cloud padding_sensitive_ckpt [[0; 0; 0]; [1; 0; 0]].
Proof.
  apply (@forward_cloud_permutation R R_float Rmax_comm
           (fun a b c => Rmax_assoc a b c)).
  apply perm_swap.
Defined.

Lemma forward_output_shape_witness :
  exists v c,
    forward padding_sensitive_ckpt (mk_ndarray [1; 1; 3]%nat [1; 0; 0]) = Ok (v, c)
    /\ length v = 1%nat /\ length c = 1%nat
    /\ Forall (fun r => length r = 3%nat) v
    /\ Forall (fun r => length r = 3%nat) c.
Proof.
  exact (forward_output_shape padding_sensitive_ckpt
           (mk_ndarray [1; 1; 3]%nat [1; 0; 0]) 1 1 padding_ckpt_shapes eq_refl
           ltac:(lia)).
Defined.

Lemma write_results_text_blocks_witness :
  write_results_text
    [mk_pred 7 (snd (canonicalize raw_345)) (fst (canonicalize raw_345)) f0 f0]
  = ([ "result 7" ++ newline; "c -0.320000 0.240000 3.000000" ++ newline;
       "v 0.600000 0.800000 0.000000" ++ newline;
       "t 0.000000 0.000000" ++ newline; "endresult" ++ newline ]%string,
     Ok tt).
Proof.
  rewrite (write_results_text_blocks
             [mk_pred 7 (snd (canonicalize raw_345)) (fst (canonicalize raw_345))
                f0 f0]
             ltac:(repeat constructor)).
  vm_compute. reflexivity.
Defined.

Lemma main_events_witness :
  exists results,
    main [ "beam 1"; "1 0 0"; "endbeam"; "beam 2"; "1 0 0"; "1 0 0"; "endbeam" ]%string
      padding_sensitive_ckpt 1
    = ([EvReadInput; EvLoadCheckpoint; EvForward [1; 1; 3]%nat;
        EvForward [1; 2; 3]%nat;
        EvWriteOutput (concat (map result_lines results))], Ok tt).
Proof.
  destruct (main_events _ padding_sensitive_ckpt 1 [short_beam; long_beam]
              short_long_input ltac:(discriminate) padding_ckpt_shapes ltac:(lia))
    as (starts & results & Hst & _ & Hm).
  injection Hst as <-. exists results. exact Hm.
Defined.

(** On the raw outputs (1e-9, 0, 0, 1, 2, 3) the norm is below eps, the
    clamp is active, and every operation is within 2^-24 of the exact
    one. *)
Lemma raw_clamped_rounds : canonicalize_rounds f32_val f32_finite u32 raw_clamped.
Proof.
  unfold canonicalize_rounds, normalize, fsum, raw_clamped.
  cbn [take drop map zip_with foldl sum_rounds].
  split; [reflexivity|].
  split; [f32_eval; lra|].
  split; [repeat constructor; f32_close|].
  split; [repeat split; f32_close|].
  split.
  { split; [vm_compute; reflexivity|]. f32_eval.
    match goal with
    | |- close _ (sqrt _) ?n =>
        apply (close_sqrt u32 u32_range _ _ (n * (16777216 / 16777217))
                 (n * (16777216 / 16777215)))
    end; unfold u32; lra. }
  split.
  { f32_eval. rewrite Rmax_right by lra. lra. }
  split; [repeat constructor; f32_close|].
  split; [repeat constructor; f32_close|].
  split; [repeat split; f32_close|].
  split; [repeat constructor; f32_close|].
  repeat constructor; f32_close.
Qed.

Lemma canonicalize_norm_bound_witness :
  map fmt6 (fst (canonicalize raw_clamped)) = ["0.100000"; "0.000000"; "0.000000"]%string
  /\ map fmt6 (snd (canonicalize raw_clamped)) = ["0.990000"; "2.000000"; "3.000000"]%string
  /\ real_norm (map f32_val (fst (canonicalize raw_clamped))) <= 1 + 5 * u32
  /\ Rabs (real_dot (map f32_val (snd (canonicalize raw_clamped)))
                    (map f32_val (fst (canonicalize raw_clamped)))
           - real_dot (map f32_val [f32_literal "1"; f32_literal "2"; f32_literal "3"])
                      (map f32_val (fst (canonicalize raw_clamped)))
             * (1 - real_dot (map f32_val (fst (canonicalize raw_clamped)))
                             (map f32_val (fst (canonicalize raw_clamped)))))
     <= 9 * u32 * abs_sum (map f32_val [f32_literal "1"; f32_literal "2";
                                        f32_literal "3"]).
Proof.
  split; [vm_compute; reflexivity|].
  split; [vm_compute; reflexivity|].
  exact (canonicalize_norm_bound f32_val f32_finite u32
           (f32_literal "1e-9") (f32_literal "0") (f32_literal "0")
           (f32_literal "1") (f32_literal "2") (f32_literal "3")
           u32_range raw_clamped_rounds).
Defined.

End ExtraWitnesses.
